(** * Food-order management system: the REST resource handlers and the
      checkout flow, embedded in Rocq.

    The development follows the TypeScript sources:
    - [src/db/schema.ts] and the migration [drizzle/0000_low_sentry.sql]
      give the tables, their NOT NULL columns and their UNIQUE indexes;
    - the eight route files give the GET / POST / PUT / DELETE handlers of
      shops, customers, menu items, offers, orders, order items, payments
      and receipts;
    - the checkout page gives [generateTokenNumber], [handleCheckout]
      and the cart functions;
    - the menu page, the navigation bar, the kitchen display, the
      customer dashboard and the sign-up and login pages give the
      functions that keep the cart, the orders and the accounts in the
      browser's local storage.

    Conventions of the embedding.
    - A JavaScript value is a [JSValue]; a request body is whatever
      [request.json()] returned, or the exception it raised.
    - A JavaScript number is the rational it denotes, or NaN, or an
      infinity; rounding to binary64 is not modelled.
    - A string is the sequence of bytes that encodes the JavaScript string
      in UTF-8 (a string literal of this file is read that way); white
      space is that of ECMAScript, [length] counts UTF-16 code units and
      letter case is that of the letters A to Z.
    - A handler is a function from the store and the request to the new
      store and the response; [try]/[catch] and early [return] are the
      three outcomes of the [Flow] monad. *)

From Stdlib Require Import String Ascii List ZArith QArith Bool Lia.
From Stdlib Require Import DecimalString Permutation.
Import ListNotations.

Set Warnings "-register-all".
Local Open Scope string_scope.
Local Open Scope Z_scope.

(** ** Strings *)

Module Str.

(** White space of [String.prototype.trim] and of the numeric parsers
    (the WhiteSpace and LineTerminator code points of ECMAScript), as
    UTF-8 encodes it.  On one byte: TAB, LF, VT, FF, CR and SPACE. *)
Definition is_ws (c : ascii) : bool :=
  let n := nat_of_ascii c in
  (Nat.leb 9 n && Nat.leb n 13) || Nat.eqb n 32.

(** On two bytes: U+00A0 (C2 A0). *)
Definition is_ws2 (c1 c2 : ascii) : bool :=
  Nat.eqb (nat_of_ascii c1) 194 && Nat.eqb (nat_of_ascii c2) 160.

(** On three bytes: U+1680 (E1 9A 80), U+2000 to U+200A (E2 80 80 to
    E2 80 8A), U+2028 and U+2029 (E2 80 A8, E2 80 A9), U+202F (E2 80 AF),
    U+205F (E2 81 9F), U+3000 (E3 80 80) and U+FEFF (EF BB BF). *)
Definition is_ws3 (c1 c2 c3 : ascii) : bool :=
  let a := nat_of_ascii c1 in
  let b := nat_of_ascii c2 in
  let c := nat_of_ascii c3 in
  (Nat.eqb a 225 && Nat.eqb b 154 && Nat.eqb c 128)
  || (Nat.eqb a 226 && Nat.eqb b 128
      && ((Nat.leb 128 c && Nat.leb c 138) || Nat.eqb c 168 || Nat.eqb c 169
          || Nat.eqb c 175))
  || (Nat.eqb a 226 && Nat.eqb b 129 && Nat.eqb c 159)
  || (Nat.eqb a 227 && Nat.eqb b 128 && Nat.eqb c 128)
  || (Nat.eqb a 239 && Nat.eqb b 187 && Nat.eqb c 191).

(** What follows the first character of the string, when that character
    is white space. *)
Definition ws_head (s : string) : option string :=
  match s with
  | String c1 s1 =>
      if is_ws c1 then Some s1
      else
        match s1 with
        | String c2 s2 =>
            if is_ws2 c1 c2 then Some s2
            else
              match s2 with
              | String c3 s3 => if is_ws3 c1 c2 c3 then Some s3 else None
              | EmptyString => None
              end
        | EmptyString => None
        end
  | EmptyString => None
  end.

Fixpoint trimStart (s : string) : string :=
  match s with
  | EmptyString => EmptyString
  | String c1 s1 =>
      if is_ws c1 then trimStart s1
      else
        match s1 with
        | String c2 s2 =>
            if is_ws2 c1 c2 then trimStart s2
            else
              match s2 with
              | String c3 s3 => if is_ws3 c1 c2 c3 then trimStart s3 else s
              | EmptyString => s
              end
        | EmptyString => s
        end
  end.

Definition is_empty (s : string) : bool :=
  match s with EmptyString => true | _ => false end.

(** The string is white space throughout. *)
Definition all_ws (s : string) : bool := is_empty (trimStart s).

(** The string up to the point from which it is white space throughout. *)
Fixpoint trimEnd (s : string) : string :=
  match s with
  | EmptyString => EmptyString
  | String c s' => if all_ws s then EmptyString else String c (trimEnd s')
  end.

Definition trim (s : string) : string := trimEnd (trimStart s).

(** The lower case of the letters A to Z; [toLowerCase] below is
    [String.prototype.toLowerCase] on the strings whose upper-case
    letters are among them, and leaves the other letters as they are. *)
Definition lower_ascii (c : ascii) : ascii :=
  let n := nat_of_ascii c in
  if Nat.leb 65 n && Nat.leb n 90 then ascii_of_nat (n + 32) else c.

Fixpoint toLowerCase (s : string) : string :=
  match s with
  | EmptyString => EmptyString
  | String c s' => String (lower_ascii c) (toLowerCase s')
  end.

(** The UTF-16 code units that the character beginning with this byte
    takes: none for a continuation byte, two for the first byte of a
    four-byte sequence, one otherwise. *)
Definition units (c : ascii) : nat :=
  let n := nat_of_ascii c in
  if Nat.leb 128 n && Nat.leb n 191 then 0
  else if Nat.leb 240 n then 2 else 1.

(** [s.length] *)
Fixpoint length (s : string) : nat :=
  match s with
  | EmptyString => 0
  | String c s' => units c + length s'
  end.

(** [hay.includes(needle)] *)
Fixpoint includes (hay needle : string) : bool :=
  String.prefix needle hay ||
  match hay with
  | EmptyString => false
  | String _ hay' => includes hay' needle
  end.

(** [s.slice(-n)]: the last [n] characters. *)
Definition slice_last (n : nat) (s : string) : string :=
  let len := String.length s in
  String.substring (len - n) (len - (len - n)) s.

Fixpoint repeat_char (c : ascii) (n : nat) : string :=
  match n with O => EmptyString | S k => String c (repeat_char c k) end.

(** [s.padStart(n, "0")] *)
Definition padStart0 (n : nat) (s : string) : string :=
  repeat_char "0"%char (n - String.length s) ++ s.

(** Lexicographic order on bytes, the order SQLite's BINARY collation and
    JavaScript's string comparison use on ASCII text. *)
Fixpoint leb (a b : string) : bool :=
  match a, b with
  | EmptyString, _ => true
  | String _ _, EmptyString => false
  | String x a', String y b' =>
      let nx := nat_of_ascii x in
      let ny := nat_of_ascii y in
      if Nat.ltb nx ny then true
      else if Nat.ltb ny nx then false
      else leb a' b'
  end.

End Str.

(** ** Numbers *)

Inductive JSNumber : Type :=
| NaN
| NegInf
| Fin (q : Q)
| PosInf.

Module Num.

Definition isNaN (n : JSNumber) : bool :=
  match n with NaN => true | _ => false end.

(** [a < b]; any comparison with NaN is false. *)
Definition ltb (a b : JSNumber) : bool :=
  match a, b with
  | NaN, _ | _, NaN => false
  | NegInf, NegInf => false
  | NegInf, _ => true
  | _, NegInf => false
  | PosInf, _ => false
  | _, PosInf => true
  | Fin x, Fin y => negb (Qle_bool y x)
  end.

(** [a <= b] *)
Definition leb (a b : JSNumber) : bool :=
  match a, b with
  | NaN, _ | _, NaN => false
  | NegInf, _ => true
  | _, PosInf => true
  | _, NegInf => false
  | PosInf, _ => false
  | Fin x, Fin y => Qle_bool x y
  end.

(** [a > b] *)
Definition gtb (a b : JSNumber) : bool := ltb b a.

(** [a === b] on numbers *)
Definition eqb (a b : JSNumber) : bool :=
  match a, b with
  | Fin x, Fin y => Qeq_bool x y
  | NegInf, NegInf | PosInf, PosInf => true
  | _, _ => false
  end.

Definition of_Z (z : Z) : JSNumber := Fin (inject_Z z).

Definition zero : JSNumber := of_Z 0.
Definition hundred : JSNumber := of_Z 100.

(** [Number.isInteger] *)
Definition isInteger (n : JSNumber) : bool :=
  match n with
  | Fin q => Pos.eqb (Qden (Qred q)) 1
  | _ => false
  end.

(** [Math.min(a, b)]: NaN if either is NaN. *)
Definition min (a b : JSNumber) : JSNumber :=
  match a, b with
  | NaN, _ | _, NaN => NaN
  | _, _ => if leb a b then a else b
  end.

Definition neg (n : JSNumber) : JSNumber :=
  match n with
  | NaN => NaN
  | NegInf => PosInf
  | PosInf => NegInf
  | Fin q => Fin (Qopp q)
  end.

End Num.

(** ** The numeric parsers of the language: [parseInt], [parseFloat] and
       the string-to-number conversion *)

Module Parse.

Definition digit_of (radix : Z) (c : ascii) : option Z :=
  let n := Z.of_nat (nat_of_ascii c) in
  let v :=
    if (48 <=? n) && (n <=? 57) then Some (n - 48)
    else if (97 <=? n) && (n <=? 122) then Some (n - 87)
    else if (65 <=? n) && (n <=? 90) then Some (n - 55)
    else None in
  match v with
  | Some d => if d <? radix then Some d else None
  | None => None
  end.

(** The longest run of digits of the radix at the head of [s], most
    significant first, and what follows it. *)
Fixpoint digits (radix : Z) (s : string) : list Z * string :=
  match s with
  | EmptyString => ([], s)
  | String c s' =>
      match digit_of radix c with
      | Some d => let (ds, rest) := digits radix s' in (d :: ds, rest)
      | None => ([], s)
      end
  end.

Definition value (radix : Z) (ds : list Z) : Z :=
  fold_left (fun acc d => acc * radix + d) ds 0.

(** An optional sign: [true] for "-". *)
Definition sign (s : string) : bool * string :=
  match s with
  | String "-"%char s' => (true, s')
  | String "+"%char s' => (false, s')
  | _ => (false, s)
  end.

Definition strip_radix_prefix (x X : ascii) (s : string) : option string :=
  match s with
  | String "0"%char (String c s') =>
      if Ascii.eqb c x || Ascii.eqb c X then Some s' else None
  | _ => None
  end.

(** [parseInt(s)] with no radix argument. *)
Definition parseInt (s : string) : JSNumber :=
  let (neg, s1) := sign (Str.trimStart s) in
  let (radix, s2) :=
    match strip_radix_prefix "x" "X" s1 with
    | Some s' => (16, s')
    | None => (10, s1)
    end in
  match fst (digits radix s2) with
  | [] => NaN
  | ds => Num.of_Z (if neg then - value radix ds else value radix ds)
  end.

Definition apply_sign (neg : bool) (n : JSNumber) : JSNumber :=
  if neg then Num.neg n else n.

(** The exponent part [e[+-]digits], taken only when it is complete. *)
Definition exponent (s : string) : Z * string :=
  match s with
  | String c s' =>
      if Ascii.eqb c "e" || Ascii.eqb c "E" then
        let (neg, s1) := sign s' in
        match digits 10 s1 with
        | ([], _) => (0, s)
        | (ds, rest) => ((if neg then - value 10 ds else value 10 ds), rest)
        end
      else (0, s)
  | EmptyString => (0, s)
  end.

(** The longest decimal literal at the head of [s] (after an optional
    sign), with the text that follows it. *)
Definition decimal_prefix (s : string) : JSNumber * string :=
  let (neg, s1) := sign s in
  if String.prefix "Infinity" s1
  then (apply_sign neg PosInf, String.substring 8 (String.length s1 - 8) s1)
  else
    let (ip, r1) := digits 10 s1 in
    let (fp, r2) :=
      match r1 with
      | String "."%char r => digits 10 r
      | _ => ([], r1)
      end in
    match ip, fp with
    | [], [] => (NaN, s)
    | _, _ =>
        let (e, r3) := exponent r2 in
        let m := inject_Z (value 10 (ip ++ fp)) in
        let q := Qred (m * Qpower (inject_Z 10) (e - Z.of_nat (List.length fp))) in
        (apply_sign neg (Fin q), r3)
    end.

(** [parseFloat(s)] on a string. *)
Definition parseFloat (s : string) : JSNumber :=
  fst (decimal_prefix (Str.trimStart s)).

(** Whole-string literal in a radix given by a [0x], [0o] or [0b] prefix. *)
Definition radix_literal (radix : Z) (s : string) : JSNumber :=
  match digits radix s with
  | ([], _) => NaN
  | (ds, EmptyString) => Num.of_Z (value radix ds)
  | (_, _) => NaN
  end.

(** The conversion of a string to a number ([Number(s)]): the whole
    trimmed string must be a numeric literal; the empty string is 0. *)
Definition toNumber (s : string) : JSNumber :=
  let t := Str.trim s in
  if Str.is_empty t then Num.zero else
  match strip_radix_prefix "x" "X" t with
  | Some h => radix_literal 16 h
  | None =>
  match strip_radix_prefix "o" "O" t with
  | Some o => radix_literal 8 o
  | None =>
  match strip_radix_prefix "b" "B" t with
  | Some b => radix_literal 2 b
  | None =>
      match decimal_prefix t with
      | (n, EmptyString) => n
      | (_, _) => NaN
      end
  end end end.

End Parse.

(** ** Values *)

Inductive JSValue : Type :=
| JUndefined
| JNull
| JBool (b : bool)
| JNum (n : JSNumber)
| JStr (s : string)
| JArr (items : list JSValue)
| JObj (props : list (string * JSValue)).

(** An object literal: property names with their values. *)
Definition Obj : Type := list (string * JSValue).

Module JS.

Definition num (z : Z) : JSValue := JNum (Num.of_Z z).

(** [o[k]] on an object: [undefined] when the property is absent. *)
Fixpoint get (o : Obj) (k : string) : JSValue :=
  match o with
  | [] => JUndefined
  | (k', v) :: o' => if String.eqb k k' then v else get o' k
  end.

(** [o[k] = v]: replaces the property in place, or adds it last. *)
Fixpoint set (o : Obj) (k : string) (v : JSValue) : Obj :=
  match o with
  | [] => [(k, v)]
  | (k', v') :: o' =>
      if String.eqb k k' then (k, v) :: o' else (k', v') :: set o' k v
  end.

Definition has (o : Obj) (k : string) : bool :=
  existsb (fun kv => String.eqb k (fst kv)) o.

(** [Object.keys(o).length === 0] *)
Definition no_keys (o : Obj) : bool :=
  match o with [] => true | _ => false end.

Definition is_undefined (v : JSValue) : bool :=
  match v with JUndefined => true | _ => false end.

Definition is_null (v : JSValue) : bool :=
  match v with JNull => true | _ => false end.

(** [v === undefined || v === null] *)
Definition is_nullish (v : JSValue) : bool := is_undefined v || is_null v.

(** Truthiness: [if (v)], [!v], [v ? a : b], [Boolean(v)]. *)
Definition truthy (v : JSValue) : bool :=
  match v with
  | JUndefined | JNull => false
  | JBool b => b
  | JNum NaN => false
  | JNum (Fin q) => negb (Qeq_bool q 0)
  | JNum _ => true
  | JStr s => negb (Str.is_empty s)
  | JArr _ | JObj _ => true
  end.

Definition falsy (v : JSValue) : bool := negb (truthy v).

(** [typeof v === 'string'] and [typeof v === 'number'] *)
Definition is_string (v : JSValue) : bool :=
  match v with JStr _ => true | _ => false end.

Definition is_number (v : JSValue) : bool :=
  match v with JNum _ => true | _ => false end.

(** [Number.isInteger(v)] *)
Definition isInteger (v : JSValue) : bool :=
  match v with JNum n => Num.isInteger n | _ => false end.

(** [parseFloat(v)]: the argument is first converted to a string.  A
    number prints as a literal that reads back as itself; an array prints
    its items separated by commas, so only its first item can contribute;
    [true], [null], [undefined] and objects print as words. *)
Fixpoint parseFloat (v : JSValue) : JSNumber :=
  match v with
  | JNum n => n
  | JStr s => Parse.parseFloat s
  | JArr (x :: _) => parseFloat x
  | _ => NaN
  end.

(** The text of a value already known to be a string. *)
Definition text (v : JSValue) : string :=
  match v with JStr s => s | _ => EmptyString end.

(** The first decimal digit of [n/d >= 1], and of [0 < n/d < 1]. *)
Fixpoint leading_digit_big (fuel : nat) (n d : Z) : Z :=
  match fuel with
  | O => n / d
  | S f => if n / d <? 10 then n / d else leading_digit_big f n (d * 10)
  end.

Fixpoint leading_digit_small (fuel : nat) (n d : Z) : Z :=
  match fuel with
  | O => n / d
  | S f => if 1 <=? n / d then n / d else leading_digit_small f (n * 10) d
  end.

(** [parseInt(n)] on a number: the number prints in plain decimal
    notation when its magnitude is in [1e-6, 1e21) and is then truncated;
    outside it prints in exponent notation, of which [parseInt] reads the
    leading digit. *)
Definition parseInt_number (n : JSNumber) : JSNumber :=
  match n with
  | Fin q =>
      let a := Z.abs (Qnum q) in
      let d := Zpos (Qden q) in
      let magnitude :=
        if a =? 0 then 0
        else if 10 ^ 21 * d <=? a
        then leading_digit_big (Z.to_nat (Z.log2 a) + 1) a d
        else if a * 10 ^ 6 <? d
        then leading_digit_small (Z.to_nat (Z.log2 d) + 1) a d
        else a / d in
      Num.of_Z (if Qnum q <? 0 then - magnitude else magnitude)
  | _ => NaN
  end.

(** [parseInt(v)]: the argument is first converted to a string. *)
Fixpoint parseInt (v : JSValue) : JSNumber :=
  match v with
  | JNum n => parseInt_number n
  | JStr s => Parse.parseInt s
  | JArr (x :: _) => parseInt x
  | _ => NaN
  end.

(** The conversion to a number that [isNaN(v)] and [v <= 0] apply. *)
Fixpoint toNumber (v : JSValue) : JSNumber :=
  match v with
  | JUndefined => NaN
  | JNull => Num.zero
  | JBool b => if b then Num.of_Z 1 else Num.zero
  | JNum n => n
  | JStr s => Parse.toNumber s
  | JArr [] => Num.zero
  | JArr [x] =>
      match x with
      | JUndefined | JNull => Num.zero
      | JBool _ | JObj _ => NaN
      | _ => toNumber x
      end
  | JArr _ => NaN
  | JObj _ => NaN
  end.

(** [isNaN(v)] (the global function) *)
Definition isNaN (v : JSValue) : bool := Num.isNaN (toNumber v).

End JS.

(** ** Exceptions *)

Inductive Exn : Type :=
| TypeError (msg : string)
| SyntaxError (msg : string)
| DbError (msg : string).

Definition message (e : Exn) : string :=
  match e with TypeError m | SyntaxError m | DbError m => m end.

(** ** The relational store

    The handlers reach the database through the [db] object of
    drizzle-orm over SQLite (the module [@/db] that opens the connection
    only passes the schema on).  What the handlers rely on is modelled
    from [src/db/schema.ts] and the migration: an auto-increment integer
    primary key, NOT NULL columns, column defaults, and the UNIQUE indexes
    on [customers.email], [orders.token_number] and
    [payments.transaction_id], whose violation raises an error whose
    message starts with "UNIQUE constraint failed".  Values are stored as
    they are bound; foreign keys carry no ON DELETE action and are not
    enforced; a statement fails only on a constraint. *)

Record Column : Type := {
  col_name : string;      (* property name in drizzle rows *)
  col_sql : string;       (* column name in SQL and in error messages *)
  col_notnull : bool;
  col_unique : bool;
  col_default : option JSValue
}.

Record Schema : Type := {
  tbl_sql : string;
  tbl_columns : list Column
}.

Definition column (name sql : string) (notnull unique : bool)
  (default : option JSValue) : Column :=
  {| col_name := name; col_sql := sql; col_notnull := notnull;
     col_unique := unique; col_default := default |}.

Inductive TableId : Type :=
| Shops | Customers | MenuItems | Offers | Orders | OrderItems | Payments
| Receipts.

Definition schema (t : TableId) : Schema :=
  match t with
  | Shops =>
      {| tbl_sql := "shops";
         tbl_columns :=
           [ column "name" "name" true false None;
             column "address" "address" true false None;
             column "contact" "contact" true false None;
             column "email" "email" true false None;
             column "createdAt" "created_at" true false None ] |}
  | Customers =>
      {| tbl_sql := "customers";
         tbl_columns :=
           [ column "name" "name" true false None;
             column "email" "email" true true None;
             column "phone" "phone" true false None;
             column "address" "address" true false None;
             column "latitude" "latitude" false false None;
             column "longitude" "longitude" false false None;
             column "createdAt" "created_at" true false None ] |}
  | MenuItems =>
      {| tbl_sql := "menu_items";
         tbl_columns :=
           [ column "name" "name" true false None;
             column "category" "category" true false None;
             column "price" "price" true false None;
             column "availability" "availability" true false
               (Some (JBool true));
             column "description" "description" false false None;
             column "imageUrl" "image_url" false false None;
             column "createdAt" "created_at" true false None ] |}
  | Offers =>
      {| tbl_sql := "offers";
         tbl_columns :=
           [ column "title" "title" true false None;
             column "description" "description" false false None;
             column "discountPercent" "discount_percent" true false None;
             column "validFrom" "valid_from" true false None;
             column "validUntil" "valid_until" true false None;
             column "createdAt" "created_at" true false None ] |}
  | Orders =>
      {| tbl_sql := "orders";
         tbl_columns :=
           [ column "customerId" "customer_id" false false None;
             column "tokenNumber" "token_number" true true None;
             column "subtotal" "subtotal" true false None;
             column "discount" "discount" true false (Some (JS.num 0));
             column "finalAmount" "final_amount" true false None;
             column "status" "status" true false
               (Some (JStr "Order Received"));
             column "deliveryMode" "delivery_mode" true false None;
             column "paymentStatus" "payment_status" true false
               (Some (JStr "Pending"));
             column "estimatedReadyTime" "estimated_ready_time" false false
               None;
             column "createdAt" "created_at" true false None;
             column "updatedAt" "updated_at" true false None ] |}
  | OrderItems =>
      {| tbl_sql := "order_items";
         tbl_columns :=
           [ column "orderId" "order_id" false false None;
             column "menuItemId" "menu_item_id" false false None;
             column "quantity" "quantity" true false None;
             column "price" "price" true false None;
             column "createdAt" "created_at" true false None ] |}
  | Payments =>
      {| tbl_sql := "payments";
         tbl_columns :=
           [ column "orderId" "order_id" false false None;
             column "transactionId" "transaction_id" true true None;
             column "paymentMode" "payment_mode" true false None;
             column "amountPaid" "amount_paid" true false None;
             column "paymentStatus" "payment_status" true false None;
             column "createdAt" "created_at" true false None ] |}
  | Receipts =>
      {| tbl_sql := "receipts";
         tbl_columns :=
           [ column "orderId" "order_id" false false None;
             column "receiptData" "receipt_data" true false None;
             column "createdAt" "created_at" true false None ] |}
  end.

Record Table : Type := {
  rows : list Obj;
  next_id : Z
}.

Definition empty_table : Table := {| rows := []; next_id := 1 |}.

Record Store : Type := {
  shops : Table;
  customers : Table;
  menuItems : Table;
  offers : Table;
  orders : Table;
  orderItems : Table;
  payments : Table;
  receipts : Table
}.

Definition empty_store : Store :=
  {| shops := empty_table; customers := empty_table;
     menuItems := empty_table; offers := empty_table;
     orders := empty_table; orderItems := empty_table;
     payments := empty_table; receipts := empty_table |}.

Definition table (st : Store) (t : TableId) : Table :=
  match t with
  | Shops => shops st
  | Customers => customers st
  | MenuItems => menuItems st
  | Offers => offers st
  | Orders => orders st
  | OrderItems => orderItems st
  | Payments => payments st
  | Receipts => receipts st
  end.

Definition with_table (st : Store) (t : TableId) (tb : Table) : Store :=
  match t with
  | Shops =>
      {| shops := tb; customers := customers st; menuItems := menuItems st;
         offers := offers st; orders := orders st;
         orderItems := orderItems st; payments := payments st;
         receipts := receipts st |}
  | Customers =>
      {| shops := shops st; customers := tb; menuItems := menuItems st;
         offers := offers st; orders := orders st;
         orderItems := orderItems st; payments := payments st;
         receipts := receipts st |}
  | MenuItems =>
      {| shops := shops st; customers := customers st; menuItems := tb;
         offers := offers st; orders := orders st;
         orderItems := orderItems st; payments := payments st;
         receipts := receipts st |}
  | Offers =>
      {| shops := shops st; customers := customers st;
         menuItems := menuItems st; offers := tb; orders := orders st;
         orderItems := orderItems st; payments := payments st;
         receipts := receipts st |}
  | Orders =>
      {| shops := shops st; customers := customers st;
         menuItems := menuItems st; offers := offers st; orders := tb;
         orderItems := orderItems st; payments := payments st;
         receipts := receipts st |}
  | OrderItems =>
      {| shops := shops st; customers := customers st;
         menuItems := menuItems st; offers := offers st;
         orders := orders st; orderItems := tb; payments := payments st;
         receipts := receipts st |}
  | Payments =>
      {| shops := shops st; customers := customers st;
         menuItems := menuItems st; offers := offers st;
         orders := orders st; orderItems := orderItems st; payments := tb;
         receipts := receipts st |}
  | Receipts =>
      {| shops := shops st; customers := customers st;
         menuItems := menuItems st; offers := offers st;
         orders := orders st; orderItems := orderItems st;
         payments := payments st; receipts := tb |}
  end.

Module Db.

(** SQL equality of two stored values (NULL equals nothing). *)
Definition sql_eqb (a b : JSValue) : bool :=
  match a, b with
  | JStr x, JStr y => String.eqb x y
  | JNum x, JNum y => Num.eqb x y
  | JBool x, JBool y => Bool.eqb x y
  | _, _ => false
  end.

(** [eq(table.id, n)] *)
Definition has_id (n : JSNumber) (r : Obj) : bool :=
  sql_eqb (JS.get r "id") (JNum n).

(** The value bound for a column by an insert: the supplied one, else the
    column default, else NULL.  drizzle drops [undefined] properties. *)
Definition bound_value (values : Obj) (c : Column) : JSValue :=
  match JS.get values (col_name c) with
  | JUndefined =>
      match col_default c with Some d => d | None => JNull end
  | v => v
  end.

Definition new_row (sch : Schema) (id : Z) (values : Obj) : Obj :=
  ("id", JS.num id)
    :: map (fun c => (col_name c, bound_value values c)) (tbl_columns sch).

Definition constraint_message (kind : string) (sch : Schema) (c : Column)
  : string :=
  kind ++ " constraint failed: " ++ tbl_sql sch ++ "." ++ col_sql c.

(** The first NOT NULL column that the row leaves NULL. *)
Definition null_violation (sch : Schema) (r : Obj) : option Column :=
  find (fun c => col_notnull c && JS.is_nullish (JS.get r (col_name c)))
       (tbl_columns sch).

Definition unique_columns (sch : Schema) : list Column :=
  filter col_unique (tbl_columns sch).

(** Some row of [rs] holds [v] in column [c]. *)
Definition holds (rs : list Obj) (c : Column) (v : JSValue) : bool :=
  existsb (fun r => sql_eqb (JS.get r (col_name c)) v) rs.

(** The first UNIQUE column in which the row collides with [rs]. *)
Definition unique_violation (sch : Schema) (rs : list Obj) (r : Obj)
  : option Column :=
  find (fun c => holds rs c (JS.get r (col_name c))) (unique_columns sch).

(** How many rows of [rs] hold [v] in column [c]. *)
Definition count_holding (rs : list Obj) (c : Column) (v : JSValue) : nat :=
  List.length (filter (fun r => sql_eqb (JS.get r (col_name c)) v) rs).

(** [db.insert(t).values(values).returning()] *)
Definition insert (st : Store) (t : TableId) (values : Obj)
  : Exn + (Store * list Obj) :=
  let sch := schema t in
  let tb := table st t in
  let r := new_row sch (next_id tb) values in
  match null_violation sch r with
  | Some c => inl (DbError (constraint_message "NOT NULL" sch c))
  | None =>
      match unique_violation sch (rows tb) r with
      | Some c => inl (DbError (constraint_message "UNIQUE" sch c))
      | None =>
          inr (with_table st t
                 {| rows := rows tb ++ [r]; next_id := next_id tb + 1 |},
               [r])
      end
  end.

(** [set] applied to one row. *)
Definition assign (changes : Obj) (r : Obj) : Obj :=
  fold_right (fun kv acc => JS.set acc (fst kv) (snd kv)) r changes.

(** A NOT NULL column that the update sets to NULL. *)
Definition nulled_column (sch : Schema) (changes : Obj) : option Column :=
  find (fun c => col_notnull c && JS.has changes (col_name c)
                 && JS.is_nullish (JS.get changes (col_name c)))
       (tbl_columns sch).

(** A UNIQUE column that the update sets to a value which, in the
    updated rows [rs], more than one row would hold. *)
Definition collided_column (sch : Schema) (changes : Obj) (rs : list Obj)
  : option Column :=
  find (fun c => JS.has changes (col_name c)
                 && Nat.ltb 1 (count_holding rs c (JS.get changes (col_name c))))
       (unique_columns sch).

(** [db.update(t).set(changes).where(eq(t.id, id)).returning()].
    An empty [set] is refused before any SQL runs; the constraints are
    checked when the statement matches a row; the updated rows are
    returned. *)
Definition update (st : Store) (t : TableId) (changes : Obj) (id : JSNumber)
  : Exn + (Store * list Obj) :=
  let sch := schema t in
  let tb := table st t in
  if JS.no_keys changes then inl (DbError "No values to set") else
  match filter (has_id id) (rows tb) with
  | [] => inr (st, [])
  | matching =>
      let rs := map (fun r => if has_id id r then assign changes r else r)
                    (rows tb) in
      match nulled_column sch changes with
      | Some c => inl (DbError (constraint_message "NOT NULL" sch c))
      | None =>
          match collided_column sch changes rs with
          | Some c => inl (DbError (constraint_message "UNIQUE" sch c))
          | None =>
              inr (with_table st t {| rows := rs; next_id := next_id tb |},
                   map (assign changes) matching)
          end
      end
  end.

(** [db.delete(t).where(eq(t.id, id)).returning()] *)
Definition delete (st : Store) (t : TableId) (id : JSNumber)
  : Store * list Obj :=
  let tb := table st t in
  (with_table st t
     {| rows := filter (fun r => negb (has_id id r)) (rows tb);
        next_id := next_id tb |},
   filter (has_id id) (rows tb)).

(** [db.select().from(t).where(eq(t.id, id)).limit(1)] *)
Definition select_by_id (st : Store) (t : TableId) (id : JSNumber)
  : list Obj :=
  firstn 1 (filter (has_id id) (rows (table st t))).

End Db.

(** ** List queries: conditions, ordering and the LIMIT/OFFSET window *)

Inductive Cond : Type :=
| Like (col : string) (pattern : string)
| Eq (col : string) (v : JSValue)
| Lte (col : string) (v : string)
| Gte (col : string) (v : string)
| And (cs : list Cond)
| Or (cs : list Cond).

Record ListQuery : Type := {
  q_table : TableId;
  q_where : list Cond;           (* [and(...conditions)], or none *)
  q_order_desc : option string;  (* [orderBy(desc(column))] *)
  q_limit : JSNumber;
  q_offset : JSNumber
}.

(** What the platform supplies to a handler: the clock, the [Date]
    constructor, what the driver does with a LIMIT or OFFSET that is not a
    non-negative integer, and the order in which the server takes the
    requests that a page has sent together (a rearrangement of them,
    whichever the run gives). *)
Record Env : Type := {
  now : string;                          (* [new Date().toISOString()] *)
  parseDate : JSValue -> option string;  (* [new Date(v)]: [None] when
                                            invalid, else its ISO string *)
  irregular_window :
    JSNumber -> JSNumber -> list Obj -> Exn + list Obj;
  arrival : forall A : Type, list A -> list A
}.

Module Query.

Definition eq_nocase (a b : ascii) : bool :=
  Ascii.eqb (Str.lower_ascii a) (Str.lower_ascii b).

(** SQLite's LIKE: [%] matches any run, [_] any one character, letters
    match without regard to ASCII case. *)
Fixpoint like (pattern text : string) : bool :=
  match pattern with
  | EmptyString => Str.is_empty text
  | String p pattern' =>
      if Ascii.eqb p "%" then
        (fix any (t : string) : bool :=
           like pattern' t ||
           match t with
           | EmptyString => false
           | String _ t' => any t'
           end) text
      else
        match text with
        | EmptyString => false
        | String c text' =>
            (Ascii.eqb p "_" || eq_nocase p c) && like pattern' text'
        end
  end.

Fixpoint holds (c : Cond) (r : Obj) : bool :=
  match c with
  | Like col pattern =>
      match JS.get r col with
      | JStr s => like pattern s
      | _ => false
      end
  | Eq col v => Db.sql_eqb (JS.get r col) v
  | Lte col v =>
      match JS.get r col with
      | JStr s => Str.leb s v
      | _ => false
      end
  | Gte col v =>
      match JS.get r col with
      | JStr s => Str.leb v s
      | _ => false
      end
  | And cs => forallb (fun c' => holds c' r) cs
  | Or cs => existsb (fun c' => holds c' r) cs
  end.

Definition key_of (col : string) (r : Obj) : string :=
  match JS.get r col with JStr s => s | _ => EmptyString end.

(** Insertion into a list sorted by descending key; equal keys keep their
    table order. *)
Fixpoint insert_desc (col : string) (r : Obj) (sorted : list Obj) : list Obj :=
  match sorted with
  | [] => [r]
  | x :: rest =>
      if Str.leb (key_of col r) (key_of col x)
      then x :: insert_desc col r rest
      else r :: sorted
  end.

Definition order_desc (col : string) (rs : list Obj) : list Obj :=
  fold_left (fun acc r => insert_desc col r acc) rs [].

Definition as_count (n : JSNumber) : option nat :=
  match n with
  | Fin q =>
      if Num.isInteger n && Qle_bool 0 q
      then Some (Z.to_nat (Qnum (Qred q)))
      else None
  | _ => None
  end.

Definition window (env : Env) (limit offset : JSNumber) (rs : list Obj)
  : Exn + list Obj :=
  match as_count limit, as_count offset with
  | Some l, Some o => inr (firstn l (skipn o rs))
  | _, _ => irregular_window env limit offset rs
  end.

Definition run (env : Env) (st : Store) (q : ListQuery) : Exn + list Obj :=
  let matching :=
    filter (fun r => forallb (fun c => holds c r) (q_where q))
           (rows (table st (q_table q))) in
  let ordered :=
    match q_order_desc q with
    | Some col => order_desc col matching
    | None => matching
    end in
  window env (q_limit q) (q_offset q) ordered.

End Query.

(** ** Requests, responses and control flow *)

Inductive Body : Type :=
| Json (v : JSValue)            (* [request.json()] resolved with [v] *)
| Malformed (reason : string).  (* [request.json()] threw a SyntaxError *)

Record Request : Type := {
  url_query : list (string * string);
  req_body : Body
}.

Record Response : Type := {
  resp_status : Z;
  resp_body : JSValue
}.

(** [NextResponse.json(body, { status })] *)
Definition json (body : JSValue) (status : Z) : Response :=
  {| resp_status := status; resp_body := body |}.

(** [{ error: msg, code: code }] with a status *)
Definition error_with_code (msg code : string) (status : Z) : Response :=
  json (JObj [("error", JStr msg); ("code", JStr code)]) status.

(** [{ error: msg }] with a status *)
Definition error_only (msg : string) (status : Z) : Response :=
  json (JObj [("error", JStr msg)]) status.

(** The last [catch] of every handler. *)
Definition internal_error (e : Exn) : Response :=
  error_only ("Internal server error: " ++ message e) 500.

(** [response.ok] *)
Definition ok (r : Response) : bool :=
  (200 <=? resp_status r) && (resp_status r <=? 299).

(** A point of a handler body: it goes on with a value, it has returned a
    response, or it has thrown. *)
Inductive Flow (A : Type) : Type :=
| Next (a : A)
| Reply (r : Response)
| Throw (e : Exn).

Arguments Next {A} a.
Arguments Reply {A} r.
Arguments Throw {A} e.

Definition bind {A B : Type} (m : Flow A) (k : A -> Flow B) : Flow B :=
  match m with
  | Next a => k a
  | Reply r => Reply r
  | Throw e => Throw e
  end.

Declare Scope flow_scope.
Delimit Scope flow_scope with flow.
Bind Scope flow_scope with Flow.

Notation "x <- m ;; k" := (bind m (fun x => k))
  (at level 61, m at next level, right associativity) : flow_scope.
Notation "'answer' r 'when' c ;; k" := (if c then Reply r else k)
  (at level 61, r at next level, c at next level, right associativity)
  : flow_scope.

Local Open Scope flow_scope.

(** [searchParams.get(k)] *)
Fixpoint searchParam (ps : list (string * string)) (k : string)
  : option string :=
  match ps with
  | [] => None
  | (k', v) :: ps' => if String.eqb k k' then Some v else searchParam ps' k
  end.

Definition param (req : Request) (k : string) : option string :=
  searchParam (url_query req) k.

(** [if (s)] on the result of [searchParams.get]. *)
Definition present (p : option string) : bool :=
  match p with
  | Some s => negb (Str.is_empty s)
  | None => false
  end.

(** [searchParams.get(k) ?? d] *)
Definition or_default (p : option string) (d : string) : string :=
  match p with Some s => s | None => d end.

(** [!id || isNaN(parseInt(id))] *)
Definition invalid_id (p : option string) : bool :=
  match p with
  | Some s => Str.is_empty s || Num.isNaN (Parse.parseInt s)
  | None => true
  end.

(** [parseInt(id)] once [id] is known to be a string. *)
Definition id_of (p : option string) : JSNumber :=
  Parse.parseInt (or_default p "").

(** [await request.json()] *)
Definition request_json (req : Request) : Flow JSValue :=
  match req_body req with
  | Json v => Next v
  | Malformed reason => Throw (SyntaxError reason)
  end.

(** [const { a, b, ... } = body]: reading any property of [null] or
    [undefined] throws; other values answer [undefined] for a property
    they do not have. *)
Definition destructure (body : JSValue) : Flow Obj :=
  match body with
  | JObj o => Next o
  | JNull | JUndefined =>
      Throw (TypeError "Cannot destructure property of 'body' as it is null.")
  | _ => Next []
  end.

(** [v.trim()] *)
Definition trim_of (v : JSValue) : Flow string :=
  match v with
  | JStr s => Next (Str.trim s)
  | JNull | JUndefined =>
      Throw (TypeError "Cannot read properties of null (reading 'trim')")
  | _ => Throw (TypeError "trim is not a function")
  end.

(** [v.trim() === ''] *)
Definition trims_to_empty (v : JSValue) : Flow bool :=
  t <- trim_of v ;; Next (Str.is_empty t).

(** [!v || v.trim() === ''] *)
Definition blank (v : JSValue) : Flow bool :=
  if JS.falsy v then Next true else trims_to_empty v.

(** [v ? v.trim() : null] *)
Definition trimmed_or_null (v : JSValue) : Flow JSValue :=
  if JS.truthy v then (t <- trim_of v ;; Next (JStr t)) else Next JNull.

(** [rows[0]] *)
Definition first_row (rs : list Obj) : JSValue :=
  match rs with
  | r :: _ => JObj r
  | [] => JUndefined
  end.

(** A handler: the store and the response it leaves. *)
Definition Handler : Type := Env -> Store -> Request -> Store * Response.

(** [try { ... } catch (error) { handler }]: nothing is written unless
    the body ran to its final statement. *)
Definition try_catch (st : Store) (body : Flow (Store * Response))
  (handler : Exn -> Response) : Store * Response :=
  match body with
  | Next out => out
  | Reply r => (st, r)
  | Throw e => (st, handler e)
  end.

(** The LIMIT and OFFSET every list request computes:
    [Math.min(parseInt(limit ?? '10'), 100)] and [parseInt(offset ?? '0')]. *)
Definition page_limit (req : Request) : JSNumber :=
  Num.min (Parse.parseInt (or_default (param req "limit") "10")) Num.hundred.

Definition page_offset (req : Request) : JSNumber :=
  Parse.parseInt (or_default (param req "offset") "0").

(** [await query...] followed by [NextResponse.json(results, 200)]. *)
Definition list_reply (env : Env) (st : Store) (q : ListQuery)
  : Flow (Store * Response) :=
  match Query.run env st q with
  | inr rs => Next (st, json (JArr (map JObj rs)) 200)
  | inl e => Throw e
  end.

(** [like(column, `%${search}%`)] *)
Definition contains (col search : string) : Cond :=
  Like col ("%" ++ search ++ "%").

(** Comparisons of a value with a number: both sides are converted to
    numbers ([v <= 0], [v < 0]). *)
Definition le_zero (v : JSValue) : bool := Num.leb (JS.toNumber v) Num.zero.
Definition lt_zero (v : JSValue) : bool := Num.ltb (JS.toNumber v) Num.zero.

Definition is_nil {A : Type} (l : list A) : bool :=
  match l with [] => true | _ => false end.

(** [if (p) conditions.push(f(p))] on a query parameter. *)
Definition push_if_present (p : option string) (f : string -> Cond)
  : list Cond :=
  match p with
  | Some s => if Str.is_empty s then [] else [f s]
  | None => []
  end.

(** [if (p && !isNaN(parseInt(p))) conditions.push(eq(col, parseInt(p)))] *)
Definition push_if_numeric (p : option string) (col : string) : list Cond :=
  match p with
  | Some s =>
      if Str.is_empty s || Num.isNaN (Parse.parseInt s) then []
      else [Eq col (JNum (Parse.parseInt s))]
  | None => []
  end.

(** [if (conditions.length > 0) query = query.where(and(...conditions))] *)
Definition where_all (conditions : list Cond) : list Cond :=
  match conditions with
  | [] => []
  | _ => [And conditions]
  end.

(** [x = d] in a destructuring pattern: the default replaces [undefined]. *)
Definition defaulted (v d : JSValue) : JSValue :=
  if JS.is_undefined v then d else v.

(** [v || d] *)
Definition or_else (v d : JSValue) : JSValue :=
  if JS.truthy v then v else d.

(** ** The orders route ([src/app/api/orders/route.ts]) *)

Module OrdersRoute.

Definition GET : Handler := fun env st req =>
  try_catch st
    (let id := param req "id" in
     if present id then
       answer error_with_code "Valid ID is required" "INVALID_ID" 400
         when invalid_id id ;;
       let order := Db.select_by_id st Orders (id_of id) in
       answer error_with_code "Order not found" "ORDER_NOT_FOUND" 404
         when is_nil order ;;
       Next (st, json (first_row order) 200)
     else
       let limit := page_limit req in
       let offset := page_offset req in
       let conditions :=
         (push_if_present (param req "search") (contains "tokenNumber")
          ++ push_if_present (param req "status")
               (fun s => Eq "status" (JStr s))
          ++ push_if_present (param req "paymentStatus")
               (fun s => Eq "paymentStatus" (JStr s))
          ++ push_if_numeric (param req "customerId") "customerId")%list in
       list_reply env st
         {| q_table := Orders; q_where := where_all conditions;
            q_order_desc := Some "createdAt";
            q_limit := limit; q_offset := offset |})
    internal_error.

Definition POST : Handler := fun env st req =>
  try_catch st
    (body <- request_json req ;;
     o <- destructure body ;;
     let customerId := JS.get o "customerId" in
     let tokenNumber := JS.get o "tokenNumber" in
     let subtotal := JS.get o "subtotal" in
     let discount := defaulted (JS.get o "discount") (JS.num 0) in
     let finalAmount := JS.get o "finalAmount" in
     let status := defaulted (JS.get o "status") (JStr "Order Received") in
     let deliveryMode := JS.get o "deliveryMode" in
     let paymentStatus := defaulted (JS.get o "paymentStatus") (JStr "Pending") in
     let estimatedReadyTime := JS.get o "estimatedReadyTime" in
     no_token <- blank tokenNumber ;;
     answer error_with_code "Token number is required" "MISSING_TOKEN_NUMBER" 400
       when no_token ;;
     answer error_with_code "Valid positive subtotal is required"
              "INVALID_SUBTOTAL" 400
       when JS.falsy subtotal || negb (JS.is_number subtotal)
            || le_zero subtotal ;;
     answer error_with_code "Valid positive final amount is required"
              "INVALID_FINAL_AMOUNT" 400
       when JS.falsy finalAmount || negb (JS.is_number finalAmount)
            || le_zero finalAmount ;;
     no_mode <- blank deliveryMode ;;
     answer error_with_code "Delivery mode is required" "MISSING_DELIVERY_MODE" 400
       when no_mode ;;
     answer error_with_code "Discount must be a non-negative number"
              "INVALID_DISCOUNT" 400
       when negb (JS.is_number discount) || lt_zero discount ;;
     token <- trim_of tokenNumber ;;
     mode <- trim_of deliveryMode ;;
     let insertData : Obj :=
       [ ("tokenNumber", JStr token);
         ("subtotal", subtotal);
         ("discount", discount);
         ("finalAmount", finalAmount);
         ("status", or_else status (JStr "Order Received"));
         ("deliveryMode", JStr mode);
         ("paymentStatus", or_else paymentStatus (JStr "Pending"));
         ("createdAt", JStr (now env));
         ("updatedAt", JStr (now env)) ] in
     insertData <-
       (if negb (JS.is_nullish customerId) then
          answer error_with_code "Customer ID must be a positive number"
                   "INVALID_CUSTOMER_ID" 400
            when negb (JS.is_number customerId) || le_zero customerId ;;
          Next (JS.set insertData "customerId" customerId)
        else Next insertData) ;;
     let insertData :=
       if JS.truthy estimatedReadyTime
       then JS.set insertData "estimatedReadyTime" estimatedReadyTime
       else insertData in
     match Db.insert st Orders insertData with
     | inr (st', newOrder) => Next (st', json (first_row newOrder) 201)
     | inl dbError =>
         if negb (Str.is_empty (message dbError))
            && Str.includes (message dbError) "UNIQUE"
         then Reply (error_with_code "Token number already exists"
                       "DUPLICATE_TOKEN_NUMBER" 400)
         else Throw dbError
     end)
    internal_error.

Definition PUT : Handler := fun env st req =>
  try_catch st
    (let id := param req "id" in
     answer error_with_code "Valid ID is required" "INVALID_ID" 400
       when invalid_id id ;;
     body <- request_json req ;;
     o <- destructure body ;;
     let customerId := JS.get o "customerId" in
     let status := JS.get o "status" in
     let deliveryMode := JS.get o "deliveryMode" in
     let paymentStatus := JS.get o "paymentStatus" in
     let estimatedReadyTime := JS.get o "estimatedReadyTime" in
     let discount := JS.get o "discount" in
     let finalAmount := JS.get o "finalAmount" in
     let existingOrder := Db.select_by_id st Orders (id_of id) in
     answer error_with_code "Order not found" "ORDER_NOT_FOUND" 404
       when is_nil existingOrder ;;
     let updateData : Obj := [("updatedAt", JStr (now env))] in
     updateData <-
       (if negb (JS.is_undefined customerId) then
          answer error_with_code "Customer ID must be a positive number or null"
                   "INVALID_CUSTOMER_ID" 400
            when negb (JS.is_null customerId)
                 && (negb (JS.is_number customerId) || le_zero customerId) ;;
          Next (JS.set updateData "customerId" customerId)
        else Next updateData) ;;
     updateData <-
       (if negb (JS.is_undefined status) then
          empty <- blank status ;;
          answer error_with_code "Status cannot be empty" "INVALID_STATUS" 400
            when empty ;;
          t <- trim_of status ;;
          Next (JS.set updateData "status" (JStr t))
        else Next updateData) ;;
     updateData <-
       (if negb (JS.is_undefined deliveryMode) then
          empty <- blank deliveryMode ;;
          answer error_with_code "Delivery mode cannot be empty"
                   "INVALID_DELIVERY_MODE" 400
            when empty ;;
          t <- trim_of deliveryMode ;;
          Next (JS.set updateData "deliveryMode" (JStr t))
        else Next updateData) ;;
     updateData <-
       (if negb (JS.is_undefined paymentStatus) then
          empty <- blank paymentStatus ;;
          answer error_with_code "Payment status cannot be empty"
                   "INVALID_PAYMENT_STATUS" 400
            when empty ;;
          t <- trim_of paymentStatus ;;
          Next (JS.set updateData "paymentStatus" (JStr t))
        else Next updateData) ;;
     let updateData :=
       if negb (JS.is_undefined estimatedReadyTime)
       then JS.set updateData "estimatedReadyTime" estimatedReadyTime
       else updateData in
     updateData <-
       (if negb (JS.is_undefined discount) then
          answer error_with_code "Discount must be a non-negative number"
                   "INVALID_DISCOUNT" 400
            when negb (JS.is_number discount) || lt_zero discount ;;
          Next (JS.set updateData "discount" discount)
        else Next updateData) ;;
     updateData <-
       (if negb (JS.is_undefined finalAmount) then
          answer error_with_code "Final amount must be a positive number"
                   "INVALID_FINAL_AMOUNT" 400
            when negb (JS.is_number finalAmount) || le_zero finalAmount ;;
          Next (JS.set updateData "finalAmount" finalAmount)
        else Next updateData) ;;
     match Db.update st Orders updateData (id_of id) with
     | inr (st', updated) => Next (st', json (first_row updated) 200)
     | inl e => Throw e
     end)
    internal_error.

Definition DELETE : Handler := fun env st req =>
  try_catch st
    (let id := param req "id" in
     answer error_with_code "Valid ID is required" "INVALID_ID" 400
       when invalid_id id ;;
     let existingOrder := Db.select_by_id st Orders (id_of id) in
     answer error_with_code "Order not found" "ORDER_NOT_FOUND" 404
       when is_nil existingOrder ;;
     let (st', deleted) := Db.delete st Orders (id_of id) in
     Next (st', json (JObj [ ("message", JStr "Order deleted successfully");
                            ("order", first_row deleted) ]) 200))
    internal_error.

End OrdersRoute.

(** ** The payments route ([src/unnamed/part_000]) *)

Module PaymentsRoute.

Definition GET : Handler := fun env st req =>
  try_catch st
    (let id := param req "id" in
     if present id then
       answer error_with_code "Valid ID is required" "INVALID_ID" 400
         when invalid_id id ;;
       let payment := Db.select_by_id st Payments (id_of id) in
       answer error_with_code "Payment not found" "PAYMENT_NOT_FOUND" 404
         when is_nil payment ;;
       Next (st, json (first_row payment) 200)
     else
       let limit := page_limit req in
       let offset := page_offset req in
       let conditions :=
         (push_if_present (param req "search") (contains "transactionId")
          ++ push_if_numeric (param req "orderId") "orderId"
          ++ push_if_present (param req "paymentStatus")
               (fun s => Eq "paymentStatus" (JStr s))
          ++ push_if_present (param req "paymentMode")
               (fun s => Eq "paymentMode" (JStr s)))%list in
       list_reply env st
         {| q_table := Payments; q_where := where_all conditions;
            q_order_desc := None; q_limit := limit; q_offset := offset |})
    internal_error.

Definition POST : Handler := fun env st req =>
  try_catch st
    (body <- request_json req ;;
     o <- destructure body ;;
     let transactionId := JS.get o "transactionId" in
     let paymentMode := JS.get o "paymentMode" in
     let amountPaid := JS.get o "amountPaid" in
     let paymentStatus := JS.get o "paymentStatus" in
     let orderId := JS.get o "orderId" in
     no_txn <- blank transactionId ;;
     answer error_with_code "Transaction ID is required and cannot be empty"
              "MISSING_TRANSACTION_ID" 400
       when no_txn ;;
     no_mode <- blank paymentMode ;;
     answer error_with_code "Payment mode is required" "MISSING_PAYMENT_MODE" 400
       when no_mode ;;
     answer error_with_code "Amount paid is required" "MISSING_AMOUNT_PAID" 400
       when JS.is_nullish amountPaid ;;
     answer error_with_code "Amount paid must be a positive number"
              "INVALID_AMOUNT_PAID" 400
       when negb (JS.is_number amountPaid) || le_zero amountPaid ;;
     no_status <- blank paymentStatus ;;
     answer error_with_code "Payment status is required"
              "MISSING_PAYMENT_STATUS" 400
       when no_status ;;
     txn <- trim_of transactionId ;;
     mode <- trim_of paymentMode ;;
     status <- trim_of paymentStatus ;;
     let insertData : Obj :=
       [ ("transactionId", JStr txn);
         ("paymentMode", JStr mode);
         ("amountPaid", amountPaid);
         ("paymentStatus", JStr status);
         ("createdAt", JStr (now env)) ] in
     insertData <-
       (if negb (JS.is_nullish orderId) then
          answer error_with_code "Order ID must be a valid number"
                   "INVALID_ORDER_ID" 400
            when negb (JS.is_number orderId) || JS.isNaN orderId ;;
          Next (JS.set insertData "orderId" orderId)
        else Next insertData) ;;
     match Db.insert st Payments insertData with
     | inr (st', newPayment) => Next (st', json (first_row newPayment) 201)
     | inl dbError =>
         if negb (Str.is_empty (message dbError))
            && Str.includes (message dbError) "UNIQUE constraint failed"
         then Reply (error_with_code "Transaction ID already exists"
                       "DUPLICATE_TRANSACTION_ID" 400)
         else Throw dbError
     end)
    internal_error.

Definition PUT : Handler := fun env st req =>
  try_catch st
    (let id := param req "id" in
     answer error_with_code "Valid ID is required" "INVALID_ID" 400
       when invalid_id id ;;
     body <- request_json req ;;
     o <- destructure body ;;
     let orderId := JS.get o "orderId" in
     let paymentMode := JS.get o "paymentMode" in
     let paymentStatus := JS.get o "paymentStatus" in
     let existingPayment := Db.select_by_id st Payments (id_of id) in
     answer error_with_code "Payment not found" "PAYMENT_NOT_FOUND" 404
       when is_nil existingPayment ;;
     let updateData : Obj := [] in
     updateData <-
       (if negb (JS.is_undefined orderId) then
          if JS.is_null orderId then Next (JS.set updateData "orderId" JNull)
          else if JS.is_number orderId && negb (JS.isNaN orderId)
          then Next (JS.set updateData "orderId" orderId)
          else Reply (error_with_code "Order ID must be a valid number or null"
                        "INVALID_ORDER_ID" 400)
        else Next updateData) ;;
     updateData <-
       (if negb (JS.is_undefined paymentMode) && negb (JS.is_null paymentMode)
        then
          empty <- trims_to_empty paymentMode ;;
          answer error_with_code "Payment mode cannot be empty"
                   "INVALID_PAYMENT_MODE" 400
            when empty ;;
          t <- trim_of paymentMode ;;
          Next (JS.set updateData "paymentMode" (JStr t))
        else Next updateData) ;;
     updateData <-
       (if negb (JS.is_undefined paymentStatus)
           && negb (JS.is_null paymentStatus)
        then
          empty <- trims_to_empty paymentStatus ;;
          answer error_with_code "Payment status cannot be empty"
                   "INVALID_PAYMENT_STATUS" 400
            when empty ;;
          t <- trim_of paymentStatus ;;
          Next (JS.set updateData "paymentStatus" (JStr t))
        else Next updateData) ;;
     answer error_with_code "No valid fields to update" "NO_UPDATE_FIELDS" 400
       when JS.no_keys updateData ;;
     match Db.update st Payments updateData (id_of id) with
     | inr (st', updated) => Next (st', json (first_row updated) 200)
     | inl e => Throw e
     end)
    internal_error.

Definition DELETE : Handler := fun env st req =>
  try_catch st
    (let id := param req "id" in
     answer error_with_code "Valid ID is required" "INVALID_ID" 400
       when invalid_id id ;;
     let existingPayment := Db.select_by_id st Payments (id_of id) in
     answer error_with_code "Payment not found" "PAYMENT_NOT_FOUND" 404
       when is_nil existingPayment ;;
     let (st', deleted) := Db.delete st Payments (id_of id) in
     Next (st', json (JObj [ ("message", JStr "Payment deleted successfully");
                            ("payment", first_row deleted) ]) 200))
    internal_error.

End PaymentsRoute.

(** ** The customers route ([src/unnamed/part_001]) *)

Module CustomersRoute.

(** The [catch] of POST and PUT: a message that mentions a unique
    constraint is reported as a duplicate email. *)
Definition duplicate_email_or_internal (e : Exn) : Response :=
  if Str.includes (message e) "UNIQUE" || Str.includes (message e) "unique"
  then error_with_code "Email already exists" "DUPLICATE_EMAIL" 400
  else internal_error e.

(** [v.trim() === ''] where [typeof v === 'string'] has been checked. *)
Definition empty_text (v : JSValue) : bool :=
  Str.is_empty (Str.trim (JS.text v)).

Definition trimmed (v : JSValue) : JSValue := JStr (Str.trim (JS.text v)).

Definition normalized_email (v : JSValue) : JSValue :=
  JStr (Str.toLowerCase (Str.trim (JS.text v))).

Definition GET : Handler := fun env st req =>
  try_catch st
    (let id := param req "id" in
     if present id then
       answer error_with_code "Valid ID is required" "INVALID_ID" 400
         when invalid_id id ;;
       let customer := Db.select_by_id st Customers (id_of id) in
       answer error_with_code "Customer not found" "NOT_FOUND" 404
         when is_nil customer ;;
       Next (st, json (first_row customer) 200)
     else
       let limit := page_limit req in
       let offset := page_offset req in
       let search := param req "search" in
       list_reply env st
         {| q_table := Customers;
            q_where :=
              push_if_present search
                (fun s => Or [ contains "name" s; contains "email" s;
                               contains "phone" s ]);
            q_order_desc := None; q_limit := limit; q_offset := offset |})
    internal_error.

Definition POST : Handler := fun env st req =>
  try_catch st
    (body <- request_json req ;;
     o <- destructure body ;;
     let name := JS.get o "name" in
     let email := JS.get o "email" in
     let phone := JS.get o "phone" in
     let address := JS.get o "address" in
     let latitude := JS.get o "latitude" in
     let longitude := JS.get o "longitude" in
     answer error_with_code "Name is required and must not be empty"
              "MISSING_NAME" 400
       when JS.falsy name || negb (JS.is_string name) || empty_text name ;;
     answer error_with_code "Email is required and must not be empty"
              "MISSING_EMAIL" 400
       when JS.falsy email || negb (JS.is_string email) || empty_text email ;;
     answer error_with_code "Phone is required and must not be empty"
              "MISSING_PHONE" 400
       when JS.falsy phone || negb (JS.is_string phone) || empty_text phone ;;
     answer error_with_code "Address is required and must not be empty"
              "MISSING_ADDRESS" 400
       when JS.falsy address || negb (JS.is_string address)
            || empty_text address ;;
     let insertData : Obj :=
       [ ("name", trimmed name);
         ("email", normalized_email email);
         ("phone", trimmed phone);
         ("address", trimmed address);
         ("createdAt", JStr (now env)) ] in
     let insertData :=
       if negb (JS.is_nullish latitude)
       then JS.set insertData "latitude" (JNum (JS.parseFloat latitude))
       else insertData in
     let insertData :=
       if negb (JS.is_nullish longitude)
       then JS.set insertData "longitude" (JNum (JS.parseFloat longitude))
       else insertData in
     match Db.insert st Customers insertData with
     | inr (st', newCustomer) => Next (st', json (first_row newCustomer) 201)
     | inl e => Throw e
     end)
    duplicate_email_or_internal.

Definition PUT : Handler := fun env st req =>
  try_catch st
    (let id := param req "id" in
     answer error_with_code "Valid ID is required" "INVALID_ID" 400
       when invalid_id id ;;
     let existingCustomer := Db.select_by_id st Customers (id_of id) in
     answer error_with_code "Customer not found" "NOT_FOUND" 404
       when is_nil existingCustomer ;;
     body <- request_json req ;;
     o <- destructure body ;;
     let name := JS.get o "name" in
     let email := JS.get o "email" in
     let phone := JS.get o "phone" in
     let address := JS.get o "address" in
     let latitude := JS.get o "latitude" in
     let longitude := JS.get o "longitude" in
     let updateData : Obj := [] in
     updateData <-
       (if negb (JS.is_undefined name) then
          answer error_with_code "Name must not be empty" "INVALID_NAME" 400
            when negb (JS.is_string name) || empty_text name ;;
          Next (JS.set updateData "name" (trimmed name))
        else Next updateData) ;;
     updateData <-
       (if negb (JS.is_undefined email) then
          answer error_with_code "Email must not be empty" "INVALID_EMAIL" 400
            when negb (JS.is_string email) || empty_text email ;;
          Next (JS.set updateData "email" (normalized_email email))
        else Next updateData) ;;
     updateData <-
       (if negb (JS.is_undefined phone) then
          answer error_with_code "Phone must not be empty" "INVALID_PHONE" 400
            when negb (JS.is_string phone) || empty_text phone ;;
          Next (JS.set updateData "phone" (trimmed phone))
        else Next updateData) ;;
     updateData <-
       (if negb (JS.is_undefined address) then
          answer error_with_code "Address must not be empty"
                   "INVALID_ADDRESS" 400
            when negb (JS.is_string address) || empty_text address ;;
          Next (JS.set updateData "address" (trimmed address))
        else Next updateData) ;;
     let updateData :=
       if negb (JS.is_undefined latitude)
       then JS.set updateData "latitude"
              (if negb (JS.is_null latitude)
               then JNum (JS.parseFloat latitude) else JNull)
       else updateData in
     let updateData :=
       if negb (JS.is_undefined longitude)
       then JS.set updateData "longitude"
              (if negb (JS.is_null longitude)
               then JNum (JS.parseFloat longitude) else JNull)
       else updateData in
     answer json (first_row existingCustomer) 200
       when JS.no_keys updateData ;;
     match Db.update st Customers updateData (id_of id) with
     | inr (st', updated) => Next (st', json (first_row updated) 200)
     | inl e => Throw e
     end)
    duplicate_email_or_internal.

Definition DELETE : Handler := fun env st req =>
  try_catch st
    (let id := param req "id" in
     answer error_with_code "Valid ID is required" "INVALID_ID" 400
       when invalid_id id ;;
     let existingCustomer := Db.select_by_id st Customers (id_of id) in
     answer error_with_code "Customer not found" "NOT_FOUND" 404
       when is_nil existingCustomer ;;
     let (st', deleted) := Db.delete st Customers (id_of id) in
     Next (st', json (JObj [ ("message", JStr "Customer deleted successfully");
                            ("customer", first_row deleted) ]) 200))
    internal_error.

End CustomersRoute.

(** ** The offers route ([src/app/api/offers/route.ts], lines 1-354) *)

Module OffersRoute.

(** [isNaN(discount) || discount < 0 || discount > 100] *)
Definition bad_percent (discount : JSNumber) : bool :=
  Num.isNaN discount || Num.ltb discount Num.zero
  || Num.gtb discount Num.hundred.

Definition GET : Handler := fun env st req =>
  try_catch st
    (let id := param req "id" in
     if present id then
       answer error_with_code "Valid ID is required" "INVALID_ID" 400
         when invalid_id id ;;
       let offer := Db.select_by_id st Offers (id_of id) in
       answer error_only "Offer not found" 404
         when is_nil offer ;;
       Next (st, json (first_row offer) 200)
     else
       let limit := page_limit req in
       let offset := page_offset req in
       let search := param req "search" in
       let activeFilter := param req "active" in
       let conditions :=
         (push_if_present search
            (fun s => Or [contains "title" s; contains "description" s])
          ++ match activeFilter with
             | Some "true" =>
                 [And [Lte "validFrom" (now env); Gte "validUntil" (now env)]]
             | _ => []
             end)%list in
       list_reply env st
         {| q_table := Offers; q_where := where_all conditions;
            q_order_desc := None; q_limit := limit; q_offset := offset |})
    internal_error.

Definition POST : Handler := fun env st req =>
  try_catch st
    (body <- request_json req ;;
     o <- destructure body ;;
     let title := JS.get o "title" in
     let description := JS.get o "description" in
     let discountPercent := JS.get o "discountPercent" in
     let validFrom := JS.get o "validFrom" in
     let validUntil := JS.get o "validUntil" in
     no_title <- blank title ;;
     answer error_with_code "Title is required and cannot be empty"
              "MISSING_REQUIRED_FIELD" 400
       when no_title ;;
     answer error_with_code "Discount percent is required"
              "MISSING_REQUIRED_FIELD" 400
       when JS.is_nullish discountPercent ;;
     answer error_with_code "Valid from date is required"
              "MISSING_REQUIRED_FIELD" 400
       when JS.falsy validFrom ;;
     answer error_with_code "Valid until date is required"
              "MISSING_REQUIRED_FIELD" 400
       when JS.falsy validUntil ;;
     let discount := JS.parseFloat discountPercent in
     answer error_with_code
              "Discount percent must be a number between 0 and 100"
              "INVALID_DISCOUNT_PERCENT" 400
       when bad_percent discount ;;
     match parseDate env validFrom with
     | None =>
         Reply (error_with_code "Valid from must be a valid ISO timestamp"
                  "INVALID_DATE_FORMAT" 400)
     | Some validFromIso =>
     match parseDate env validUntil with
     | None =>
         Reply (error_with_code "Valid until must be a valid ISO timestamp"
                  "INVALID_DATE_FORMAT" 400)
     | Some validUntilIso =>
         t <- trim_of title ;;
         d <- trimmed_or_null description ;;
         let insertData : Obj :=
           [ ("title", JStr t);
             ("description", d);
             ("discountPercent", JNum discount);
             ("validFrom", JStr validFromIso);
             ("validUntil", JStr validUntilIso);
             ("createdAt", JStr (now env)) ] in
         match Db.insert st Offers insertData with
         | inr (st', newOffer) => Next (st', json (first_row newOffer) 201)
         | inl e => Throw e
         end
     end end)
    internal_error.

Definition PUT : Handler := fun env st req =>
  try_catch st
    (let id := param req "id" in
     answer error_with_code "Valid ID is required" "INVALID_ID" 400
       when invalid_id id ;;
     let existingOffer := Db.select_by_id st Offers (id_of id) in
     answer error_only "Offer not found" 404
       when is_nil existingOffer ;;
     body <- request_json req ;;
     o <- destructure body ;;
     let title := JS.get o "title" in
     let description := JS.get o "description" in
     let discountPercent := JS.get o "discountPercent" in
     let validFrom := JS.get o "validFrom" in
     let validUntil := JS.get o "validUntil" in
     let updateData : Obj := [] in
     updateData <-
       (if negb (JS.is_undefined title) then
          empty <- trims_to_empty title ;;
          answer error_with_code "Title cannot be empty" "INVALID_TITLE" 400
            when empty ;;
          t <- trim_of title ;;
          Next (JS.set updateData "title" (JStr t))
        else Next updateData) ;;
     updateData <-
       (if negb (JS.is_undefined description) then
          d <- trimmed_or_null description ;;
          Next (JS.set updateData "description" d)
        else Next updateData) ;;
     updateData <-
       (if negb (JS.is_undefined discountPercent) then
          let discount := JS.parseFloat discountPercent in
          answer error_with_code
                   "Discount percent must be a number between 0 and 100"
                   "INVALID_DISCOUNT_PERCENT" 400
            when bad_percent discount ;;
          Next (JS.set updateData "discountPercent" (JNum discount))
        else Next updateData) ;;
     updateData <-
       (if negb (JS.is_undefined validFrom) then
          match parseDate env validFrom with
          | None =>
              Reply (error_with_code "Valid from must be a valid ISO timestamp"
                       "INVALID_DATE_FORMAT" 400)
          | Some iso => Next (JS.set updateData "validFrom" (JStr iso))
          end
        else Next updateData) ;;
     updateData <-
       (if negb (JS.is_undefined validUntil) then
          match parseDate env validUntil with
          | None =>
              Reply (error_with_code "Valid until must be a valid ISO timestamp"
                       "INVALID_DATE_FORMAT" 400)
          | Some iso => Next (JS.set updateData "validUntil" (JStr iso))
          end
        else Next updateData) ;;
     match Db.update st Offers updateData (id_of id) with
     | inr (st', updated) => Next (st', json (first_row updated) 200)
     | inl e => Throw e
     end)
    internal_error.

Definition DELETE : Handler := fun env st req =>
  try_catch st
    (let id := param req "id" in
     answer error_with_code "Valid ID is required" "INVALID_ID" 400
       when invalid_id id ;;
     let existingOffer := Db.select_by_id st Offers (id_of id) in
     answer error_only "Offer not found" 404
       when is_nil existingOffer ;;
     let (st', deleted) := Db.delete st Offers (id_of id) in
     Next (st', json (JObj [ ("message", JStr "Offer deleted successfully");
                            ("offer", first_row deleted) ]) 200))
    internal_error.

End OffersRoute.

(** ** The shops route ([src/app/api/offers/route.ts], lines 354-613) *)

Module ShopsRoute.

Definition GET : Handler := fun env st req =>
  try_catch st
    (let id := param req "id" in
     if present id then
       answer error_with_code "Valid ID is required" "INVALID_ID" 400
         when invalid_id id ;;
       let shop := Db.select_by_id st Shops (id_of id) in
       answer error_with_code "Shop not found" "SHOP_NOT_FOUND" 404
         when is_nil shop ;;
       Next (st, json (first_row shop) 200)
     else
       let limit := page_limit req in
       let offset := page_offset req in
       let search := param req "search" in
       list_reply env st
         {| q_table := Shops;
            q_where :=
              push_if_present search
                (fun s => Or [ contains "name" s; contains "address" s;
                               contains "email" s ]);
            q_order_desc := None; q_limit := limit; q_offset := offset |})
    internal_error.

Definition POST : Handler := fun env st req =>
  try_catch st
    (body <- request_json req ;;
     o <- destructure body ;;
     let name := JS.get o "name" in
     let address := JS.get o "address" in
     let contact := JS.get o "contact" in
     let email := JS.get o "email" in
     no_name <- blank name ;;
     answer error_with_code "Name is required and cannot be empty"
              "MISSING_NAME" 400
       when no_name ;;
     no_address <- blank address ;;
     answer error_with_code "Address is required and cannot be empty"
              "MISSING_ADDRESS" 400
       when no_address ;;
     no_contact <- blank contact ;;
     answer error_with_code "Contact is required and cannot be empty"
              "MISSING_CONTACT" 400
       when no_contact ;;
     no_email <- blank email ;;
     answer error_with_code "Email is required and cannot be empty"
              "MISSING_EMAIL" 400
       when no_email ;;
     sanitizedName <- trim_of name ;;
     sanitizedAddress <- trim_of address ;;
     sanitizedContact <- trim_of contact ;;
     trimmedEmail <- trim_of email ;;
     let sanitizedEmail := Str.toLowerCase trimmedEmail in
     match Db.insert st Shops
             [ ("name", JStr sanitizedName);
               ("address", JStr sanitizedAddress);
               ("contact", JStr sanitizedContact);
               ("email", JStr sanitizedEmail);
               ("createdAt", JStr (now env)) ] with
     | inr (st', newShop) => Next (st', json (first_row newShop) 201)
     | inl e => Throw e
     end)
    internal_error.

Definition PUT : Handler := fun env st req =>
  try_catch st
    (let id := param req "id" in
     answer error_with_code "Valid ID is required" "INVALID_ID" 400
       when invalid_id id ;;
     body <- request_json req ;;
     o <- destructure body ;;
     let name := JS.get o "name" in
     let address := JS.get o "address" in
     let contact := JS.get o "contact" in
     let email := JS.get o "email" in
     let existingShop := Db.select_by_id st Shops (id_of id) in
     answer error_with_code "Shop not found" "SHOP_NOT_FOUND" 404
       when is_nil existingShop ;;
     let updateData : Obj := [] in
     updateData <-
       (if negb (JS.is_undefined name) then
          trimmedName <- trim_of name ;;
          answer error_with_code "Name cannot be empty" "INVALID_NAME" 400
            when Str.is_empty trimmedName ;;
          Next (JS.set updateData "name" (JStr trimmedName))
        else Next updateData) ;;
     updateData <-
       (if negb (JS.is_undefined address) then
          trimmedAddress <- trim_of address ;;
          answer error_with_code "Address cannot be empty" "INVALID_ADDRESS" 400
            when Str.is_empty trimmedAddress ;;
          Next (JS.set updateData "address" (JStr trimmedAddress))
        else Next updateData) ;;
     updateData <-
       (if negb (JS.is_undefined contact) then
          trimmedContact <- trim_of contact ;;
          answer error_with_code "Contact cannot be empty" "INVALID_CONTACT" 400
            when Str.is_empty trimmedContact ;;
          Next (JS.set updateData "contact" (JStr trimmedContact))
        else Next updateData) ;;
     updateData <-
       (if negb (JS.is_undefined email) then
          trimmedEmail <- trim_of email ;;
          answer error_with_code "Email cannot be empty" "INVALID_EMAIL" 400
            when Str.is_empty trimmedEmail ;;
          Next (JS.set updateData "email" (JStr (Str.toLowerCase trimmedEmail)))
        else Next updateData) ;;
     match Db.update st Shops updateData (id_of id) with
     | inr (st', updatedShop) => Next (st', json (first_row updatedShop) 200)
     | inl e => Throw e
     end)
    internal_error.

Definition DELETE : Handler := fun env st req =>
  try_catch st
    (let id := param req "id" in
     answer error_with_code "Valid ID is required" "INVALID_ID" 400
       when invalid_id id ;;
     let existingShop := Db.select_by_id st Shops (id_of id) in
     answer error_with_code "Shop not found" "SHOP_NOT_FOUND" 404
       when is_nil existingShop ;;
     let (st', deletedShop) := Db.delete st Shops (id_of id) in
     Next (st', json (JObj [ ("message", JStr "Shop deleted successfully");
                            ("shop", first_row deletedShop) ]) 200))
    internal_error.

End ShopsRoute.

(** ** The menu-items route ([src/app/api/offers/route.ts], lines 613-902) *)

Module MenuItemsRoute.

(** [typeof price === 'string' ? parseFloat(price) : price] *)
Definition parsed_price (price : JSValue) : JSValue :=
  if JS.is_string price then JNum (JS.parseFloat price) else price.

(** [isNaN(parsedPrice) || parsedPrice <= 0] *)
Definition bad_price (parsedPrice : JSValue) : bool :=
  JS.isNaN parsedPrice || le_zero parsedPrice.

Definition empty_text (v : JSValue) : bool :=
  Str.is_empty (Str.trim (JS.text v)).

Definition trimmed (v : JSValue) : JSValue := JStr (Str.trim (JS.text v)).

Definition GET : Handler := fun env st req =>
  try_catch st
    (let id := param req "id" in
     if present id then
       answer error_with_code "Valid ID is required" "INVALID_ID" 400
         when invalid_id id ;;
       let menuItem := Db.select_by_id st MenuItems (id_of id) in
       answer error_with_code "Menu item not found" "NOT_FOUND" 404
         when is_nil menuItem ;;
       Next (st, json (first_row menuItem) 200)
     else
       let limit := page_limit req in
       let offset := page_offset req in
       let search := param req "search" in
       let category := param req "category" in
       let availability := param req "availability" in
       let conditions :=
         (push_if_present search
            (fun s => Or [ contains "name" s; contains "category" s;
                           contains "description" s ])
          ++ push_if_present category (fun s => Eq "category" (JStr s))
          ++ match availability with
             | Some a =>
                 let isAvailable := String.eqb a "true" || String.eqb a "1" in
                 [Eq "availability" (JBool isAvailable)]
             | None => []
             end)%list in
       list_reply env st
         {| q_table := MenuItems; q_where := where_all conditions;
            q_order_desc := None; q_limit := limit; q_offset := offset |})
    internal_error.

Definition POST : Handler := fun env st req =>
  try_catch st
    (body <- request_json req ;;
     o <- destructure body ;;
     let name := JS.get o "name" in
     let category := JS.get o "category" in
     let price := JS.get o "price" in
     let availability := JS.get o "availability" in
     let description := JS.get o "description" in
     let imageUrl := JS.get o "imageUrl" in
     answer error_with_code "Name is required and must not be empty"
              "MISSING_NAME" 400
       when JS.falsy name || negb (JS.is_string name) || empty_text name ;;
     answer error_with_code "Category is required and must not be empty"
              "MISSING_CATEGORY" 400
       when JS.falsy category || negb (JS.is_string category)
            || empty_text category ;;
     answer error_with_code "Price is required" "MISSING_PRICE" 400
       when JS.is_nullish price ;;
     let parsedPrice := parsed_price price in
     answer error_with_code "Price must be a positive number"
              "INVALID_PRICE" 400
       when bad_price parsedPrice ;;
     d <- trimmed_or_null description ;;
     u <- trimmed_or_null imageUrl ;;
     let insertData : Obj :=
       [ ("name", trimmed name);
         ("category", trimmed category);
         ("price", parsedPrice);
         ("availability",
          if negb (JS.is_undefined availability)
          then JBool (JS.truthy availability) else JBool true);
         ("description", d);
         ("imageUrl", u);
         ("createdAt", JStr (now env)) ] in
     match Db.insert st MenuItems insertData with
     | inr (st', newMenuItem) => Next (st', json (first_row newMenuItem) 201)
     | inl e => Throw e
     end)
    internal_error.

Definition PUT : Handler := fun env st req =>
  try_catch st
    (let id := param req "id" in
     answer error_with_code "Valid ID is required" "INVALID_ID" 400
       when invalid_id id ;;
     let existingMenuItem := Db.select_by_id st MenuItems (id_of id) in
     answer error_with_code "Menu item not found" "NOT_FOUND" 404
       when is_nil existingMenuItem ;;
     body <- request_json req ;;
     o <- destructure body ;;
     let name := JS.get o "name" in
     let category := JS.get o "category" in
     let price := JS.get o "price" in
     let availability := JS.get o "availability" in
     let description := JS.get o "description" in
     let imageUrl := JS.get o "imageUrl" in
     let updateData : Obj := [] in
     updateData <-
       (if negb (JS.is_undefined name) then
          answer error_with_code "Name must not be empty" "INVALID_NAME" 400
            when negb (JS.is_string name) || empty_text name ;;
          Next (JS.set updateData "name" (trimmed name))
        else Next updateData) ;;
     updateData <-
       (if negb (JS.is_undefined category) then
          answer error_with_code "Category must not be empty"
                   "INVALID_CATEGORY" 400
            when negb (JS.is_string category) || empty_text category ;;
          Next (JS.set updateData "category" (trimmed category))
        else Next updateData) ;;
     updateData <-
       (if negb (JS.is_undefined price) then
          let parsedPrice := parsed_price price in
          answer error_with_code "Price must be a positive number"
                   "INVALID_PRICE" 400
            when bad_price parsedPrice ;;
          Next (JS.set updateData "price" parsedPrice)
        else Next updateData) ;;
     let updateData :=
       if negb (JS.is_undefined availability)
       then JS.set updateData "availability" (JBool (JS.truthy availability))
       else updateData in
     updateData <-
       (if negb (JS.is_undefined description) then
          d <- trimmed_or_null description ;;
          Next (JS.set updateData "description" d)
        else Next updateData) ;;
     updateData <-
       (if negb (JS.is_undefined imageUrl) then
          u <- trimmed_or_null imageUrl ;;
          Next (JS.set updateData "imageUrl" u)
        else Next updateData) ;;
     match Db.update st MenuItems updateData (id_of id) with
     | inr (st', updatedMenuItem) =>
         Next (st', json (first_row updatedMenuItem) 200)
     | inl e => Throw e
     end)
    internal_error.

Definition DELETE : Handler := fun env st req =>
  try_catch st
    (let id := param req "id" in
     answer error_with_code "Valid ID is required" "INVALID_ID" 400
       when invalid_id id ;;
     let existingMenuItem := Db.select_by_id st MenuItems (id_of id) in
     answer error_with_code "Menu item not found" "NOT_FOUND" 404
       when is_nil existingMenuItem ;;
     let (st', deletedMenuItem) := Db.delete st MenuItems (id_of id) in
     Next (st', json (JObj [ ("message", JStr "Menu item deleted successfully");
                            ("deletedMenuItem", first_row deletedMenuItem) ])
                  200))
    internal_error.

End MenuItemsRoute.

(** ** The order-items route ([src/app/api/order-items/route.ts]) *)

Module OrderItemsRoute.

(** [v !== undefined && v !== null && (!Number.isInteger(v) || v <= 0)] *)
Definition bad_reference (v : JSValue) : bool :=
  negb (JS.is_nullish v) && (negb (JS.isInteger v) || le_zero v).

Definition GET : Handler := fun env st req =>
  try_catch st
    (let id := param req "id" in
     if present id then
       answer error_with_code "Valid ID is required" "INVALID_ID" 400
         when invalid_id id ;;
       let orderItem := Db.select_by_id st OrderItems (id_of id) in
       answer error_with_code "Order item not found" "NOT_FOUND" 404
         when is_nil orderItem ;;
       Next (st, json (first_row orderItem) 200)
     else
       let limit := page_limit req in
       let offset := page_offset req in
       let conditions :=
         (push_if_numeric (param req "orderId") "orderId"
          ++ push_if_numeric (param req "menuItemId") "menuItemId")%list in
       list_reply env st
         {| q_table := OrderItems; q_where := where_all conditions;
            q_order_desc := None; q_limit := limit; q_offset := offset |})
    internal_error.

Definition POST : Handler := fun env st req =>
  try_catch st
    (body <- request_json req ;;
     o <- destructure body ;;
     let orderId := JS.get o "orderId" in
     let menuItemId := JS.get o "menuItemId" in
     let quantity := JS.get o "quantity" in
     let price := JS.get o "price" in
     answer error_with_code "Quantity is required" "MISSING_QUANTITY" 400
       when JS.is_nullish quantity ;;
     answer error_with_code "Price is required" "MISSING_PRICE" 400
       when JS.is_nullish price ;;
     answer error_with_code "Quantity must be a positive integer"
              "INVALID_QUANTITY" 400
       when negb (JS.isInteger quantity) || le_zero quantity ;;
     answer error_with_code "Price must be a positive number"
              "INVALID_PRICE" 400
       when negb (JS.is_number price) || le_zero price ;;
     answer error_with_code "Order ID must be a positive integer"
              "INVALID_ORDER_ID" 400
       when bad_reference orderId ;;
     answer error_with_code "Menu item ID must be a positive integer"
              "INVALID_MENU_ITEM_ID" 400
       when bad_reference menuItemId ;;
     let insertData : Obj :=
       [ ("quantity", quantity);
         ("price", price);
         ("createdAt", JStr (now env)) ] in
     let insertData :=
       if negb (JS.is_nullish orderId)
       then JS.set insertData "orderId" orderId else insertData in
     let insertData :=
       if negb (JS.is_nullish menuItemId)
       then JS.set insertData "menuItemId" menuItemId else insertData in
     match Db.insert st OrderItems insertData with
     | inr (st', newOrderItem) => Next (st', json (first_row newOrderItem) 201)
     | inl e => Throw e
     end)
    internal_error.

Definition PUT : Handler := fun env st req =>
  try_catch st
    (let id := param req "id" in
     answer error_with_code "Valid ID is required" "INVALID_ID" 400
       when invalid_id id ;;
     let existing := Db.select_by_id st OrderItems (id_of id) in
     answer error_with_code "Order item not found" "NOT_FOUND" 404
       when is_nil existing ;;
     body <- request_json req ;;
     o <- destructure body ;;
     let orderId := JS.get o "orderId" in
     let menuItemId := JS.get o "menuItemId" in
     let quantity := JS.get o "quantity" in
     let price := JS.get o "price" in
     answer error_with_code "Quantity must be a positive integer"
              "INVALID_QUANTITY" 400
       when negb (JS.is_nullish quantity)
            && (negb (JS.isInteger quantity) || le_zero quantity) ;;
     answer error_with_code "Price must be a positive number"
              "INVALID_PRICE" 400
       when negb (JS.is_nullish price)
            && (negb (JS.is_number price) || le_zero price) ;;
     answer error_with_code "Order ID must be a positive integer"
              "INVALID_ORDER_ID" 400
       when bad_reference orderId ;;
     answer error_with_code "Menu item ID must be a positive integer"
              "INVALID_MENU_ITEM_ID" 400
       when bad_reference menuItemId ;;
     let updateData : Obj := [] in
     let updateData :=
       if negb (JS.is_undefined orderId)
       then JS.set updateData "orderId" orderId else updateData in
     let updateData :=
       if negb (JS.is_undefined menuItemId)
       then JS.set updateData "menuItemId" menuItemId else updateData in
     let updateData :=
       if negb (JS.is_nullish quantity)
       then JS.set updateData "quantity" quantity else updateData in
     let updateData :=
       if negb (JS.is_nullish price)
       then JS.set updateData "price" price else updateData in
     match Db.update st OrderItems updateData (id_of id) with
     | inr (st', updated) => Next (st', json (first_row updated) 200)
     | inl e => Throw e
     end)
    internal_error.

Definition DELETE : Handler := fun env st req =>
  try_catch st
    (let id := param req "id" in
     answer error_with_code "Valid ID is required" "INVALID_ID" 400
       when invalid_id id ;;
     let existing := Db.select_by_id st OrderItems (id_of id) in
     answer error_with_code "Order item not found" "NOT_FOUND" 404
       when is_nil existing ;;
     let (st', deleted) := Db.delete st OrderItems (id_of id) in
     Next (st', json (JObj [ ("message", JStr "Order item deleted successfully");
                            ("orderItem", first_row deleted) ]) 200))
    internal_error.

End OrderItemsRoute.

(** ** The receipts route ([src/app/api/receipts/route.ts]) *)

Module ReceiptsRoute.

Definition GET : Handler := fun env st req =>
  try_catch st
    (let id := param req "id" in
     if present id then
       answer error_with_code "Valid ID is required" "INVALID_ID" 400
         when invalid_id id ;;
       let receipt := Db.select_by_id st Receipts (id_of id) in
       answer error_with_code "Receipt not found" "RECEIPT_NOT_FOUND" 404
         when is_nil receipt ;;
       Next (st, json (first_row receipt) 200)
     else
       let limit := page_limit req in
       let offset := page_offset req in
       list_reply env st
         {| q_table := Receipts;
            q_where := push_if_numeric (param req "orderId") "orderId";
            q_order_desc := None; q_limit := limit; q_offset := offset |})
    internal_error.

Definition POST : Handler := fun env st req =>
  try_catch st
    (body <- request_json req ;;
     o <- destructure body ;;
     let receiptData := JS.get o "receiptData" in
     let orderId := JS.get o "orderId" in
     answer error_with_code "Receipt data is required"
              "MISSING_RECEIPT_DATA" 400
       when JS.falsy receiptData ;;
     trimmedReceiptData <- trim_of receiptData ;;
     answer error_with_code "Receipt data must not be empty"
              "EMPTY_RECEIPT_DATA" 400
       when Str.is_empty trimmedReceiptData ;;
     let insertData : Obj :=
       [ ("receiptData", JStr trimmedReceiptData);
         ("createdAt", JStr (now env)) ] in
     let insertData :=
       if negb (JS.is_nullish orderId) then
         let orderIdInt := JS.parseInt orderId in
         if negb (Num.isNaN orderIdInt)
         then JS.set insertData "orderId" (JNum orderIdInt)
         else insertData
       else insertData in
     match Db.insert st Receipts insertData with
     | inr (st', newReceipt) => Next (st', json (first_row newReceipt) 201)
     | inl e => Throw e
     end)
    internal_error.

Definition PUT : Handler := fun env st req =>
  try_catch st
    (let id := param req "id" in
     answer error_with_code "Valid ID is required" "INVALID_ID" 400
       when invalid_id id ;;
     let receiptId := id_of id in
     let existingReceipt := Db.select_by_id st Receipts receiptId in
     answer error_with_code "Receipt not found" "RECEIPT_NOT_FOUND" 404
       when is_nil existingReceipt ;;
     body <- request_json req ;;
     o <- destructure body ;;
     let receiptData := JS.get o "receiptData" in
     let orderId := JS.get o "orderId" in
     let updateData : Obj := [] in
     updateData <-
       (if negb (JS.is_undefined receiptData) then
          trimmedReceiptData <- trim_of receiptData ;;
          answer error_with_code "Receipt data must not be empty"
                   "EMPTY_RECEIPT_DATA" 400
            when Str.is_empty trimmedReceiptData ;;
          Next (JS.set updateData "receiptData" (JStr trimmedReceiptData))
        else Next updateData) ;;
     let updateData :=
       if negb (JS.is_undefined orderId) then
         if JS.is_null orderId then JS.set updateData "orderId" JNull
         else
           let orderIdInt := JS.parseInt orderId in
           if negb (Num.isNaN orderIdInt)
           then JS.set updateData "orderId" (JNum orderIdInt)
           else updateData
       else updateData in
     match Db.update st Receipts updateData receiptId with
     | inr (st', updated) => Next (st', json (first_row updated) 200)
     | inl e => Throw e
     end)
    internal_error.

Definition DELETE : Handler := fun env st req =>
  try_catch st
    (let id := param req "id" in
     answer error_with_code "Valid ID is required" "INVALID_ID" 400
       when invalid_id id ;;
     let receiptId := id_of id in
     let existingReceipt := Db.select_by_id st Receipts receiptId in
     answer error_with_code "Receipt not found" "RECEIPT_NOT_FOUND" 404
       when is_nil existingReceipt ;;
     let (st', deleted) := Db.delete st Receipts receiptId in
     Next (st', json (JObj [ ("message", JStr "Receipt deleted successfully");
                            ("receipt", first_row deleted) ]) 200))
    internal_error.

End ReceiptsRoute.

(** ** The API as a whole *)

Inductive Method : Type := GET | POST | PUT | DELETE.

Definition api (t : TableId) (m : Method) : Handler :=
  match t, m with
  | Shops, GET => ShopsRoute.GET
  | Shops, POST => ShopsRoute.POST
  | Shops, PUT => ShopsRoute.PUT
  | Shops, DELETE => ShopsRoute.DELETE
  | Customers, GET => CustomersRoute.GET
  | Customers, POST => CustomersRoute.POST
  | Customers, PUT => CustomersRoute.PUT
  | Customers, DELETE => CustomersRoute.DELETE
  | MenuItems, GET => MenuItemsRoute.GET
  | MenuItems, POST => MenuItemsRoute.POST
  | MenuItems, PUT => MenuItemsRoute.PUT
  | MenuItems, DELETE => MenuItemsRoute.DELETE
  | Offers, GET => OffersRoute.GET
  | Offers, POST => OffersRoute.POST
  | Offers, PUT => OffersRoute.PUT
  | Offers, DELETE => OffersRoute.DELETE
  | Orders, GET => OrdersRoute.GET
  | Orders, POST => OrdersRoute.POST
  | Orders, PUT => OrdersRoute.PUT
  | Orders, DELETE => OrdersRoute.DELETE
  | OrderItems, GET => OrderItemsRoute.GET
  | OrderItems, POST => OrderItemsRoute.POST
  | OrderItems, PUT => OrderItemsRoute.PUT
  | OrderItems, DELETE => OrderItemsRoute.DELETE
  | Payments, GET => PaymentsRoute.GET
  | Payments, POST => PaymentsRoute.POST
  | Payments, PUT => PaymentsRoute.PUT
  | Payments, DELETE => PaymentsRoute.DELETE
  | Receipts, GET => ReceiptsRoute.GET
  | Receipts, POST => ReceiptsRoute.POST
  | Receipts, PUT => ReceiptsRoute.PUT
  | Receipts, DELETE => ReceiptsRoute.DELETE
  end.




(** ** The checkout page ([CheckoutPage], [src/app/dashboard/page.tsx],
       lines 170-565) *)

Module Checkout.

Record CartItem : Type := {
  item_id : Z;
  item_name : string;
  item_price : Q;
  item_quantity : Z
}.

(** The ["customer"] entry of local storage, as far as the page reads
    it; its [id] is whatever value the entry holds under that name. *)
Record Customer : Type := {
  customer_id : JSValue;
  customer_name : string;
  customer_email : string;
  customer_phone : string;
  customer_address : string
}.

(** The component state that [handleCheckout] reads. *)
Record Form : Type := {
  cart : list CartItem;
  customer : option Customer;
  deliveryMode : string;
  paymentMode : string;
  guestName : string;
  guestPhone : string
}.

Inductive Toast : Type :=
| ToastError (msg : string)
| ToastSuccess (msg : string).

(** What the page can change in the browser: the ["cart"] entry of local
    storage, the toasts shown, the events dispatched, the route pushed
    (the order-status page of an order id) and the processing flag. *)
Record Browser : Type := {
  stored_cart : option (list CartItem);
  toasts : list Toast;
  events : list string;
  pushed : option JSValue;
  isProcessing : bool
}.

(** One run's readings of the clock and of the random generator. *)
Record Readings : Type := {
  token_now : Z;      (* [Date.now()] in [generateTokenNumber] *)
  token_random : Z;   (* [Math.floor(Math.random() * 1000)] there *)
  txn_now : Z;        (* [Date.now()] for the transaction id *)
  txn_random : Z;     (* [Math.floor(Math.random() * 1000)] for it *)
  ready_time : string (* [new Date(Date.now() + 30 * 60 * 1000).toISOString()] *)
}.

(** [n.toString()] on a non-negative integer. *)
Definition decimal (n : Z) : string := NilZero.string_of_int (Z.to_int n).

(** [cart.reduce((sum, item) => sum + item.price * item.quantity, 0)],
    as the exact sum: the rounding of each step to binary64 is not
    modelled, so the value is the page's for prices and quantities whose
    products and sums are exact in binary64, as those of integers are. *)
Definition subtotal (c : list CartItem) : Q :=
  fold_left (fun sum item => sum + item_price item * inject_Z (item_quantity item))%Q
            c 0%Q.

Definition discount : Q := 0%Q.

Definition finalAmount (c : list CartItem) : Q := (subtotal c - discount)%Q.

Definition generateTokenNumber (r : Readings) : string :=
  let timestamp := Str.slice_last 6 (decimal (token_now r)) in
  let random := Str.padStart0 3 (decimal (token_random r)) in
  "TKN" ++ timestamp ++ random.

Definition transactionId (r : Readings) : string :=
  "TXN" ++ decimal (txn_now r) ++ decimal (txn_random r).

(** [JSON.stringify] leaves out the properties that are [undefined]. *)
Definition stringify (o : Obj) : Body :=
  Json (JObj (filter (fun kv => negb (JS.is_undefined (snd kv))) o)).

Definition post (body : Obj) : Request :=
  {| url_query := []; req_body := stringify body |}.

Definition number (q : Q) : JSValue := JNum (Fin q).

Definition order_body (f : Form) (r : Readings) : Obj :=
  [ ("customerId",
     match customer f with
     | Some c => customer_id c
     | None => JUndefined
     end);
    ("tokenNumber", JStr (generateTokenNumber r));
    ("subtotal", number (subtotal (cart f)));
    ("discount", number discount);
    ("finalAmount", number (finalAmount (cart f)));
    ("status", JStr "Order Received");
    ("deliveryMode", JStr (deliveryMode f));
    ("paymentStatus",
     JStr (if String.eqb (paymentMode f) "Cash" then "Pending" else "Paid"));
    ("estimatedReadyTime", JStr (ready_time r)) ].

(** [order.id], where [order] is the body of the response to the order
    request (an object whenever that response is [ok]). *)
Definition order_id (order : JSValue) : JSValue :=
  match order with
  | JObj o => JS.get o "id"
  | _ => JUndefined
  end.

Definition order_item_body (order : JSValue) (item : CartItem) : Obj :=
  [ ("orderId", order_id order);
    ("menuItemId", JS.num (item_id item));
    ("quantity", JS.num (item_quantity item));
    ("price", number (item_price item)) ].

Definition payment_body (f : Form) (r : Readings) (order : JSValue) : Obj :=
  [ ("orderId", order_id order);
    ("transactionId", JStr (transactionId r));
    ("paymentMode", JStr (paymentMode f));
    ("amountPaid", number (finalAmount (cart f)));
    ("paymentStatus",
     JStr (if String.eqb (paymentMode f) "Cash" then "Pending" else "Completed")) ].

(** The server takes order-item requests one after another; their
    responses are not looked at. *)
Definition serve_items (env : Env) (st : Store) (requests : list Request)
  : Store :=
  fold_left (fun s req => fst (OrderItemsRoute.POST env s req)) requests st.

(** The order-item requests of [Promise.all]: one for each line of the
    cart, sent together, and taken by the server in the order in which
    they arrive. *)
Definition create_items (env : Env) (st : Store) (order : JSValue)
  (c : list CartItem) : Store :=
  serve_items env st
    (arrival env _ (map (fun item => post (order_item_body order item)) c)).

Definition toast (t : Toast) (b : Browser) : Browser :=
  {| stored_cart := stored_cart b; toasts := toasts b ++ [t];
     events := events b; pushed := pushed b; isProcessing := isProcessing b |}.

Definition setIsProcessing (v : bool) (b : Browser) : Browser :=
  {| stored_cart := stored_cart b; toasts := toasts b;
     events := events b; pushed := pushed b; isProcessing := v |}.

(** [localStorage.removeItem("cart")] and the [cartUpdated] event. *)
Definition clear_cart (b : Browser) : Browser :=
  {| stored_cart := None; toasts := toasts b;
     events := events b ++ ["cartUpdated"]; pushed := pushed b;
     isProcessing := isProcessing b |}.

Definition push_order_status (id : JSValue) (b : Browser) : Browser :=
  {| stored_cart := stored_cart b; toasts := toasts b;
     events := events b; pushed := Some id; isProcessing := isProcessing b |}.

(** [fetch("/api/orders", { method: "POST", ... })] *)
Definition create_order (env : Env) (r : Readings) (f : Form) (st : Store)
  : Store * Response :=
  OrdersRoute.POST env st (post (order_body f r)).

(** [fetch("/api/payments", { method: "POST", ... })] *)
Definition create_payment (env : Env) (r : Readings) (f : Form) (st : Store)
  (order : JSValue) : Store * Response :=
  PaymentsRoute.POST env st (post (payment_body f r order)).

(** [handleCheckout]: the requests go to the handlers of the API, which
    always answer. *)
Definition handleCheckout (env : Env) (r : Readings) (f : Form)
  (st : Store) (b : Browser) : Store * Browser :=
  if is_nil (cart f) then (st, toast (ToastError "Your cart is empty") b)
  else if match customer f with Some _ => false | None => true end
          && (Str.is_empty (guestName f) || Str.is_empty (guestPhone f))
  then (st, toast (ToastError "Please enter your name and phone number") b)
  else
    let b := setIsProcessing true b in
    let tokenNumber := generateTokenNumber r in
    let (st1, orderResponse) := create_order env r f st in
    if negb (ok orderResponse) then
      (* throw new Error("Failed to create order"), caught below *)
      (st1, setIsProcessing false
              (toast (ToastError "Failed to place order. Please try again.") b))
    else
      let order := resp_body orderResponse in
      let st2 := create_items env st1 order (cart f) in
      let (st3, _) := create_payment env r f st2 order in
      let b := clear_cart b in
      let b := toast (ToastSuccess ("Order placed! Token: " ++ tokenNumber)) b in
      let b := push_order_status (order_id order) b in
      (st3, setIsProcessing false b).

End Checkout.

(** ** The cart of the checkout page ([CheckoutPage], [updateCart],
       [removeFromCart], [updateQuantity]; [src/app/dashboard/page.tsx],
       lines 227-246) *)

Module CheckoutCart.

(** [setCart(newCart)] *)
Definition setCart (newCart : list Checkout.CartItem) (f : Checkout.Form)
  : Checkout.Form :=
  {| Checkout.cart := newCart;
     Checkout.customer := Checkout.customer f;
     Checkout.deliveryMode := Checkout.deliveryMode f;
     Checkout.paymentMode := Checkout.paymentMode f;
     Checkout.guestName := Checkout.guestName f;
     Checkout.guestPhone := Checkout.guestPhone f |}.

(** [updateCart]: the state, the ["cart"] entry of local storage and the
    [cartUpdated] event. *)
Definition updateCart (newCart : list Checkout.CartItem)
  (p : Checkout.Form * Checkout.Browser) : Checkout.Form * Checkout.Browser :=
  let (f, b) := p in
  (setCart newCart f,
   {| Checkout.stored_cart := Some newCart;
      Checkout.toasts := Checkout.toasts b;
      Checkout.events := (Checkout.events b ++ ["cartUpdated"])%list;
      Checkout.pushed := Checkout.pushed b;
      Checkout.isProcessing := Checkout.isProcessing b |}).

Definition removeFromCart (itemId : Z)
  (p : Checkout.Form * Checkout.Browser) : Checkout.Form * Checkout.Browser :=
  let newCart :=
    filter (fun item => negb (Checkout.item_id item =? itemId))
           (Checkout.cart (fst p)) in
  let (f, b) := updateCart newCart p in
  (f, Checkout.toast (Checkout.ToastSuccess "Item removed from cart") b).

(** [{ ...item, quantity: q }] *)
Definition with_quantity (item : Checkout.CartItem) (q : Z)
  : Checkout.CartItem :=
  {| Checkout.item_id := Checkout.item_id item;
     Checkout.item_name := Checkout.item_name item;
     Checkout.item_price := Checkout.item_price item;
     Checkout.item_quantity := q |}.

Definition updateQuantity (itemId delta : Z)
  (p : Checkout.Form * Checkout.Browser) : Checkout.Form * Checkout.Browser :=
  let newCart :=
    map (fun item =>
           if Checkout.item_id item =? itemId
           then with_quantity item (Z.max 1 (Checkout.item_quantity item + delta))
           else item)
        (Checkout.cart (fst p)) in
  updateCart newCart p.

(** [setGuestName(e.target.value)] and [setGuestPhone(e.target.value)] *)
Definition setGuestName (v : string) (f : Checkout.Form) : Checkout.Form :=
  {| Checkout.cart := Checkout.cart f;
     Checkout.customer := Checkout.customer f;
     Checkout.deliveryMode := Checkout.deliveryMode f;
     Checkout.paymentMode := Checkout.paymentMode f;
     Checkout.guestName := v;
     Checkout.guestPhone := Checkout.guestPhone f |}.

Definition setGuestPhone (v : string) (f : Checkout.Form) : Checkout.Form :=
  {| Checkout.cart := Checkout.cart f;
     Checkout.customer := Checkout.customer f;
     Checkout.deliveryMode := Checkout.deliveryMode f;
     Checkout.paymentMode := Checkout.paymentMode f;
     Checkout.guestName := Checkout.guestName f;
     Checkout.guestPhone := v |}.

End CheckoutCart.

(** ** The menu page ([MenuPage], [src/unnamed/part_002]) *)

Module MenuPage.

Record MenuItem : Type := {
  mi_id : Z;
  mi_name : string;
  mi_category : string;
  mi_price : Q;
  mi_availability : bool;
  mi_description : option string;
  mi_imageUrl : option string;
  mi_createdAt : string
}.

(** [interface CartItem extends MenuItem { quantity: number }] *)
Record CartItem : Type := {
  ci_item : MenuItem;
  ci_quantity : Z
}.

(** The state the cart functions read and write: the component's cart,
    the ["cart"] entry of local storage, the events dispatched and the
    toasts shown. *)
Record Page : Type := {
  cart : list CartItem;
  stored_cart : option (list CartItem);
  events : list string;
  toasts : list Checkout.Toast
}.

Definition toast (t : Checkout.Toast) (p : Page) : Page :=
  {| cart := cart p; stored_cart := stored_cart p; events := events p;
     toasts := (toasts p ++ [t])%list |}.

Definition updateCart (newCart : list CartItem) (p : Page) : Page :=
  {| cart := newCart; stored_cart := Some newCart;
     events := (events p ++ ["cartUpdated"])%list; toasts := toasts p |}.

(** [cart.find((cartItem) => cartItem.id === itemId)] *)
Definition find_item (itemId : Z) (c : list CartItem) : option CartItem :=
  find (fun cartItem => mi_id (ci_item cartItem) =? itemId) c.

(** [{ ...cartItem, quantity: q }] *)
Definition with_quantity (cartItem : CartItem) (q : Z) : CartItem :=
  {| ci_item := ci_item cartItem; ci_quantity := q |}.

Definition addToCart (item : MenuItem) (p : Page) : Page :=
  match find_item (mi_id item) (cart p) with
  | Some _ =>
      let newCart :=
        map (fun cartItem =>
               if mi_id (ci_item cartItem) =? mi_id item
               then with_quantity cartItem (ci_quantity cartItem + 1)
               else cartItem)
            (cart p) in
      toast (Checkout.ToastSuccess
               ("Added another " ++ mi_name item ++ " to cart"))
            (updateCart newCart p)
  | None =>
      let newCart :=
        (cart p ++ [{| ci_item := item; ci_quantity := 1 |}])%list in
      toast (Checkout.ToastSuccess (mi_name item ++ " added to cart"))
            (updateCart newCart p)
  end.

Definition removeFromCart (itemId : Z) (p : Page) : Page :=
  let decrement :=
    match find_item itemId (cart p) with
    | Some existingItem => 1 <? ci_quantity existingItem
    | None => false
    end in
  if decrement then
    let newCart :=
      map (fun cartItem =>
             if mi_id (ci_item cartItem) =? itemId
             then with_quantity cartItem (ci_quantity cartItem - 1)
             else cartItem)
          (cart p) in
    updateCart newCart p
  else
    let newCart :=
      filter (fun cartItem => negb (mi_id (ci_item cartItem) =? itemId))
             (cart p) in
    toast (Checkout.ToastSuccess "Item removed from cart")
          (updateCart newCart p).

Definition getItemQuantity (itemId : Z) (p : Page) : Z :=
  match find_item itemId (cart p) with
  | Some item => ci_quantity item
  | None => 0
  end.

(** [new Set(values)], in insertion order: the first occurrence of each
    value. *)
Fixpoint set_of (seen : list string) (values : list string) : list string :=
  match values with
  | [] => []
  | v :: rest =>
      if existsb (String.eqb v) seen then set_of seen rest
      else v :: set_of (v :: seen) rest
  end.

(** [["All", ...new Set(menuItems.map((item) => item.category))]] *)
Definition categories (menuItems : list MenuItem) : list string :=
  "All" :: set_of [] (map mi_category menuItems).

Definition filteredItems (selectedCategory : string)
  (menuItems : list MenuItem) : list MenuItem :=
  if String.eqb selectedCategory "All" then menuItems
  else filter (fun item => String.eqb (mi_category item) selectedCategory)
              menuItems.

(** The two requests of [fetchData]. *)
Definition no_body : Body := Malformed "Unexpected end of JSON input".

Definition menu_request : Request :=
  {| url_query := [("limit", "100"); ("availability", "true")];
     req_body := no_body |}.

Definition offers_request : Request :=
  {| url_query := [("active", "true"); ("limit", "10")];
     req_body := no_body |}.

(** What [fetchData] leaves in the component. *)
Record Loaded : Type := {
  menuItems : JSValue;
  offers : JSValue;
  error : option string;
  load_toasts : list Checkout.Toast;
  isLoading : bool
}.

(** [fetchData], from the initial state ([menuItems] and [offers] empty):
    both requests are served by the handlers of the API. *)
Definition fetchData (env : Env) (st : Store) : Loaded :=
  let menuResponse := snd (MenuItemsRoute.GET env st menu_request) in
  let offersResponse := snd (OffersRoute.GET env st offers_request) in
  if negb (ok menuResponse) then
    {| menuItems := JArr []; offers := JArr [];
       error := Some "Failed to fetch menu items";
       load_toasts := [Checkout.ToastError "Failed to load menu data"];
       isLoading := false |}
  else if negb (ok offersResponse) then
    {| menuItems := JArr []; offers := JArr [];
       error := Some "Failed to fetch offers";
       load_toasts := [Checkout.ToastError "Failed to load menu data"];
       isLoading := false |}
  else
    {| menuItems := resp_body menuResponse;
       offers := resp_body offersResponse;
       error := None; load_toasts := []; isLoading := false |}.

(** The cart as the checkout page reads it from local storage: the
    properties its [CartItem] interface names. *)
Definition as_checkout_item (c : CartItem) : Checkout.CartItem :=
  {| Checkout.item_id := mi_id (ci_item c);
     Checkout.item_name := mi_name (ci_item c);
     Checkout.item_price := mi_price (ci_item c);
     Checkout.item_quantity := ci_quantity c |}.

End MenuPage.

(** ** The navigation bar ([Navbar], [src/components/navbar.tsx]) *)

Module Navbar.

(** [cartItems.reduce((sum, item) => sum + item.quantity, 0)] *)
Definition count (cartItems : list MenuPage.CartItem) : Z :=
  fold_left (fun sum item => sum + MenuPage.ci_quantity item) cartItems 0.

(** [handleStorageChange]: the new [cartCount]. *)
Definition handleStorageChange (stored : option (list MenuPage.CartItem)) : Z :=
  match stored with
  | Some cartItems => count cartItems
  | None => 0
  end.

End Navbar.


(** ** Values read back from local storage *)

(** [a === b] where [a] and [b] come from different [JSON.parse] calls or
    from a literal: two objects, or two arrays, are never the same
    object. *)
Definition strict_eq (a b : JSValue) : bool :=
  match a, b with
  | JUndefined, JUndefined => true
  | JNull, JNull => true
  | JBool x, JBool y => Bool.eqb x y
  | JNum x, JNum y => Num.eqb x y
  | JStr x, JStr y => String.eqb x y
  | _, _ => false
  end.

(** [JSON.parse(localStorage.getItem(key) || "[]")], the entry holding an
    array of objects when it is set. *)
Definition stored_list (entry : option (list Obj)) : list Obj :=
  match entry with
  | Some items => items
  | None => []
  end.

(** ** The kitchen display ([KitchenDashboard],
       [src/app/kitchen/page.tsx]) *)

Module Kitchen.

Record Page : Type := {
  stored_orders : option (list Obj);   (* the ["orders"] entry *)
  orders : list Obj;                   (* the component's [orders] *)
  toasts : list Checkout.Toast
}.

Definition has_status (s : string) (order : Obj) : bool :=
  strict_eq (JS.get order "status") (JStr s).

Definition loadOrders (p : Page) : Page :=
  let allOrders := stored_list (stored_orders p) in
  let activeOrders :=
    filter (fun order => has_status "Confirmed" order
                         || has_status "Preparing" order)
           allOrders in
  {| stored_orders := stored_orders p; orders := rev activeOrders;
     toasts := toasts p |}.

Definition updateOrderStatus (orderId : JSValue) (newStatus : string)
  (p : Page) : Page :=
  let allOrders := stored_list (stored_orders p) in
  let updatedOrders :=
    map (fun order =>
           if strict_eq (JS.get order "id") orderId
           then JS.set order "status" (JStr newStatus)
           else order)
        allOrders in
  let p :=
    loadOrders {| stored_orders := Some updatedOrders; orders := orders p;
                  toasts := toasts p |} in
  {| stored_orders := stored_orders p; orders := orders p;
     toasts := (toasts p
                ++ [Checkout.ToastSuccess ("Order updated to " ++ newStatus)])%list |}.

Definition confirmedOrders (p : Page) : list Obj :=
  filter (has_status "Confirmed") (orders p).

Definition preparingOrders (p : Page) : list Obj :=
  filter (has_status "Preparing") (orders p).

(** [getElapsedTime], on the millisecond readings of the two dates: the
    current time, and [new Date(createdAt).getTime()], which is NaN
    ([None]) for an invalid date.  [%] is the remainder of the truncated
    division. *)
Definition getElapsedTime (currentTime : Z) (createdAt : option Z) : string :=
  match createdAt with
  | None => "NaN:NaN"
  | Some created =>
      let diff := currentTime - created in
      let minutes := diff / 60000 in
      let seconds := Z.rem diff 60000 / 1000 in
      Checkout.decimal minutes ++ ":"
        ++ Str.padStart0 2 (Checkout.decimal seconds)
  end.

End Kitchen.

(** ** The customer dashboard ([CustomerDashboard],
       [src/app/dashboard/page.tsx], lines 1-169) *)

Module Dashboard.

(** The orders the effect leaves in the component for the customer read
    from the ["customer"] entry:
    [customerOrders.reverse().slice(0, 5)]. *)
Definition recentOrders (customer : Obj) (stored_orders : option (list Obj))
  : list Obj :=
  let allOrders := stored_list stored_orders in
  let customerOrders :=
    filter (fun order =>
              strict_eq (JS.get order "customerEmail") (JS.get customer "email"))
           allOrders in
  firstn 5 (rev customerOrders).

(** The values of the first two cards: ["Total Orders"] and
    ["Active Orders"]. *)
Definition totalOrders (orders : list Obj) : nat := List.length orders.

Definition activeOrders (orders : list Obj) : nat :=
  List.length
    (filter (fun o =>
               negb (strict_eq (JS.get o "status") (JStr "Completed"))
               && negb (strict_eq (JS.get o "status") (JStr "Cancelled")))
            orders).

End Dashboard.

(** ** Signing up and logging in ([SignUpPage] and [LoginPage],
       [src/app/signup/page.tsx] and [src/app/login/page.tsx]) *)

Module Auth.

Definition KITCHEN_PASSWORD : string := "kitchen123".
Definition ADMIN_PASSWORD : string := "admin123".

Inductive Role : Type := RoleCustomer | RoleKitchen | RoleAdmin.

(** What the two pages read and write: the ["customers"] and ["customer"]
    entries of local storage, the toasts, the route pushed and the
    [isLoading] flag. *)
Record Session : Type := {
  customers : option (list Obj);
  current : option Obj;
  toasts : list Checkout.Toast;
  route : option string;
  isLoading : bool
}.

Definition setIsLoading (v : bool) (s : Session) : Session :=
  {| customers := customers s; current := current s; toasts := toasts s;
     route := route s; isLoading := v |}.

Definition toast (t : Checkout.Toast) (s : Session) : Session :=
  {| customers := customers s; current := current s;
     toasts := (toasts s ++ [t])%list; route := route s;
     isLoading := isLoading s |}.

(** A refusal: the error toast, then [setIsLoading(false)]. *)
Definition refuse (msg : string) (s : Session) : Session :=
  setIsLoading false (toast (Checkout.ToastError msg) s).

(** An entry: the ["customer"] entry is written, the success toast is
    shown and the route is pushed. *)
Definition enter (user : Obj) (msg path : string) (s : Session) : Session :=
  let s := {| customers := customers s; current := Some user;
              toasts := toasts s; route := route s;
              isLoading := isLoading s |} in
  let s := toast (Checkout.ToastSuccess msg) s in
  {| customers := customers s; current := current s; toasts := toasts s;
     route := Some path; isLoading := isLoading s |}.

(** [existingCustomers.find((c) => c.email === email)] *)
Definition find_customer (email : string) (existingCustomers : list Obj)
  : option Obj :=
  find (fun c => strict_eq (JS.get c "email") (JStr email)) existingCustomers.

Definition staff_user (id name email role : string) : Obj :=
  [ ("id", JStr id); ("name", JStr name); ("email", JStr email);
    ("role", JStr role) ].

(** [handleSubmit] of the sign-up page; [clock_ms] and [clock_iso] are
    the readings [Date.now()] and [new Date().toISOString()]. *)
Definition signup (clock_ms : Z) (clock_iso : string) (role : Role)
  (name email password confirmPassword : string) (s : Session) : Session :=
  let s := setIsLoading true s in
  if negb (String.eqb password confirmPassword) then
    refuse "Passwords do not match" s
  else if Nat.ltb (Str.length password) 6 then
    refuse "Password must be at least 6 characters" s
  else
    match role with
    | RoleKitchen =>
        if String.eqb password KITCHEN_PASSWORD then
          enter (staff_user "kitchen" "Kitchen Staff"
                   "kitchen@madrascalcanteen.com" "kitchen")
                "Kitchen account verified!" "/kitchen" s
        else
          refuse "Invalid kitchen password. Contact admin for correct password." s
    | RoleAdmin =>
        if String.eqb password ADMIN_PASSWORD then
          enter (staff_user "admin" "Admin"
                   "admin@madrascalcanteen.com" "admin")
                "Admin account verified!" "/admin" s
        else
          refuse "Invalid admin password. Contact system administrator." s
    | RoleCustomer =>
        let existingCustomers := stored_list (customers s) in
        match find_customer email existingCustomers with
        | Some _ => refuse "Email already registered. Please login." s
        | None =>
            let newCustomer : Obj :=
              [ ("id", JStr (Checkout.decimal clock_ms));
                ("name", JStr name);
                ("email", JStr email);
                ("password", JStr password);
                ("role", JStr "customer");
                ("createdAt", JStr clock_iso) ] in
            let s :=
              {| customers := Some (existingCustomers ++ [newCustomer])%list;
                 current := current s; toasts := toasts s; route := route s;
                 isLoading := isLoading s |} in
            enter newCustomer "Account created successfully!" "/menu" s
        end
    end.

(** [handleSubmit] of the login page. *)
Definition login (role : Role) (email password : string) (s : Session)
  : Session :=
  let s := setIsLoading true s in
  match role with
  | RoleKitchen =>
      if String.eqb password KITCHEN_PASSWORD then
        enter (staff_user "kitchen" "Kitchen Staff"
                 "kitchen@quickbite.com" "kitchen")
              "Welcome to Kitchen Dashboard!" "/kitchen" s
      else refuse "Invalid kitchen password" s
  | RoleAdmin =>
      if String.eqb password ADMIN_PASSWORD then
        enter (staff_user "admin" "Admin" "admin@quickbite.com" "admin")
              "Welcome to Admin Dashboard!" "/admin" s
      else refuse "Invalid admin password" s
  | RoleCustomer =>
      let existingCustomers := stored_list (customers s) in
      match find_customer email existingCustomers with
      | None => refuse "Account not found. Please sign up first." s
      | Some customer =>
          if negb (strict_eq (JS.get customer "password") (JStr password))
          then refuse "Invalid email or password" s
          else enter (JS.set customer "role" (JStr "customer"))
                     "Welcome back!" "/menu" s
      end
  end.

End Auth.

(** * Properties *)

(** ** Vocabulary of the statements *)

(** A property of every way a handler body can end: [Q] where it runs to
    its last statement, [P] where it returns early; nothing is asked
    where it throws (the [catch] is looked at separately). *)
Definition flow_sat {A : Type} (P : Response -> Prop) (Q : A -> Prop)
  (m : Flow A) : Prop :=
  match m with
  | Next a => Q a
  | Reply r => P r
  | Throw _ => True
  end.

(** A property read of a response body. *)
Definition field (v : JSValue) (k : string) : JSValue :=
  match v with
  | JObj o => JS.get o k
  | _ => JUndefined
  end.

(** The body is exactly [{ error: msg, code: code }]. *)
Definition structured (r : Response) : Prop :=
  exists msg code,
    resp_body r = JObj [("error", JStr msg); ("code", JStr code)].


(** No two rows agree on column [c]. *)
Fixpoint distinct_on (c : Column) (rs : list Obj) : bool :=
  match rs with
  | [] => true
  | r :: rs' =>
      negb (Db.holds rs' c (JS.get r (col_name c))) && distinct_on c rs'
  end.

(** Every UNIQUE column of every table holds distinct values. *)
Definition unique_inv (st : Store) : Prop :=
  forall t c, In c (Db.unique_columns (schema t)) ->
    distinct_on c (rows (table st t)) = true.

(** The stores the API can produce from the empty database. *)
Inductive reachable : Store -> Prop :=
| reach_empty : reachable empty_store
| reach_step (st : Store) (t : TableId) (m : Method) (env : Env)
    (req : Request) :
    reachable st -> reachable (fst (api t m env st req)).

(** Stored customer emails are trimmed and in lower case. *)
Definition emails_normal (st : Store) : Prop :=
  forall r e, In r (rows (customers st)) -> JS.get r "email" = JStr e ->
    Str.toLowerCase e = e /\ Str.trim e = e.

(** The fields a request body supplies to [const { ... } = body]. *)
Definition body_fields (req : Request) : Obj :=
  match req_body req with
  | Json (JObj o) => o
  | _ => []
  end.

(** What an update of the order [id] may do to a row: nothing to a row
    with another id; in the order itself, [tokenNumber], [subtotal],
    [createdAt] and [id] stay, as does every field the body does not
    supply, except [updatedAt], which becomes the current time. *)
Definition order_row_frame (env : Env) (req : Request) (r r' : Obj) : Prop :=
  if Db.has_id (id_of (param req "id")) r then
    JS.get r' "tokenNumber" = JS.get r "tokenNumber"
    /\ JS.get r' "subtotal" = JS.get r "subtotal"
    /\ JS.get r' "createdAt" = JS.get r "createdAt"
    /\ JS.get r' "id" = JS.get r "id"
    /\ (forall k, k <> "updatedAt" -> JS.get (body_fields req) k = JUndefined ->
          JS.get r' k = JS.get r k)
    /\ JS.get r' "updatedAt" = JStr (now env)
  else r' = r.

(** A body that can only end by returning a response early. *)
Definition flow_rejects {A : Type} (P : Response -> Prop) (m : Flow A) : Prop :=
  match m with
  | Reply r => P r
  | _ => False
  end.

(** The handler answers 400 and writes nothing. *)
Definition rejected (h : Handler) (env : Env) (st : Store) (req : Request) : Prop :=
  fst (h env st req) = st /\ resp_status (snd (h env st req)) = 400.

(** The body's field [k] is a string or is not supplied. *)
Definition text_or_absent (req : Request) (k : string) : Prop :=
  JS.is_string (JS.get (body_fields req) k)
  || JS.is_undefined (JS.get (body_fields req) k) = true.

(** The request's [id] resolves to a record of table [t]. *)
Definition addressed (t : TableId) (st : Store) (req : Request) : Prop :=
  Db.select_by_id st t (id_of (param req "id")) <> [].

(** The body supplies [v] for the field [k]. *)
Definition supplies (req : Request) (k : string) (v : JSValue) : Prop :=
  JS.get (body_fields req) k = v.

(** A 404 with a symbolic code. *)
Definition not_found (r : Response) : Prop :=
  resp_status r = 404 /\ structured r.

(** What creating an order stores. *)
Definition order_created (st : Store) (req : Request) (out : Store * Response) : Prop :=
  exists row,
    snd out = json (JObj row) 201
    /\ rows (orders (fst out)) = (rows (orders st) ++ [row])%list
    /\ (forall t, t <> Orders -> table (fst out) t = table st t)
    /\ JS.get row "status"
       = or_else (defaulted (JS.get (body_fields req) "status") (JStr "Order Received"))
                 (JStr "Order Received")
    /\ JS.get row "paymentStatus"
       = or_else (defaulted (JS.get (body_fields req) "paymentStatus") (JStr "Pending"))
                 (JStr "Pending").

(** What creating a payment stores. *)
Definition payment_created (st : Store) (req : Request) (out : Store * Response) : Prop :=
  exists row status,
    snd out = json (JObj row) 201
    /\ rows (payments (fst out)) = (rows (payments st) ++ [row])%list
    /\ (forall t, t <> Payments -> table (fst out) t = table st t)
    /\ JS.get (body_fields req) "paymentStatus" = JStr status
    /\ JS.get row "paymentStatus" = JStr (Str.trim status)
    /\ JS.get row "amountPaid" = JS.get (body_fields req) "amountPaid".

(** A string that is empty or starts with a visible character. *)
Definition starts_visible (s : string) : bool :=
  match Str.ws_head s with
  | Some _ => false
  | None => true
  end.


(** ** Vocabulary of the further statements *)

(** The ids of a table: those of its rows are distinct positive integers
    below the next id to assign. *)
Definition keyed (tb : Table) : Prop :=
  0 < next_id tb
  /\ Forall (fun r => exists i, JS.get r "id" = JS.num i /\ 0 < i < next_id tb)
            (rows tb)
  /\ NoDup (map (fun r => JS.get r "id") (rows tb)).

Definition ids_fresh (st : Store) : Prop := forall t, keyed (table st t).

(** The object does not set [id]. *)
Definition no_id (u : Obj) : Prop := JS.has u "id" = false.

(** The property under which a DELETE answers with the record. *)
Definition record_key (t : TableId) : string :=
  match t with
  | Shops => "shop"
  | Customers => "customer"
  | MenuItems => "deletedMenuItem"
  | Offers => "offer"
  | Orders => "order"
  | OrderItems => "orderItem"
  | Payments => "payment"
  | Receipts => "receipt"
  end.

(** The menu item of a cart line. *)
Definition line_id (c : MenuPage.CartItem) : Z := MenuPage.mi_id (MenuPage.ci_item c).

(** A cart as the pages build it: one line per menu item, each with a
    quantity of at least one. *)
Definition cart_ok (c : list MenuPage.CartItem) : Prop :=
  NoDup (map line_id c) /\ Forall (fun l => 1 <= MenuPage.ci_quantity l) c.

(** A cart line whose order-item request the API accepts: a positive menu
    item id, a positive quantity and a positive price. *)
Definition line_ok (item : Checkout.CartItem) : bool :=
  (0 <? Checkout.item_id item) && (0 <? Checkout.item_quantity item)
  && negb (Qle_bool (Checkout.item_price item) 0).

(** The rows that the requests of a checkout refer to are stored: the
    customer, if there is one, and the menu item of every line of the
    cart.  The schema declares these references, and a database that
    enforces them refuses a request that refers to a missing row. *)
Definition references_stored (st : Store) (f : Checkout.Form) : Prop :=
  (forall c, Checkout.customer f = Some c ->
     exists row, In row (rows (customers st))
                 /\ JS.get row "id" = Checkout.customer_id c)
  /\ (forall item, In item (Checkout.cart f) ->
       exists row, In row (rows (menuItems st))
                   /\ JS.get row "id" = JS.num (Checkout.item_id item)).

(** What an order-item row says of its line. *)
Definition line_of_row (r : Obj) : JSValue * JSValue * JSValue * JSValue :=
  (JS.get r "orderId", JS.get r "menuItemId", JS.get r "quantity",
   JS.get r "price").

(** What a cart line asks to be stored for the order [n]. *)
Definition line_of_item (n : Z) (item : Checkout.CartItem)
  : JSValue * JSValue * JSValue * JSValue :=
  (JS.num n, JS.num (Checkout.item_id item),
   JS.num (Checkout.item_quantity item),
   Checkout.number (Checkout.item_price item)).

(** The emails of the registered accounts. *)
Definition registered_emails (s : Auth.Session) : list JSValue :=
  map (fun c => JS.get c "email") (stored_list (Auth.customers s)).

(** A rule on what a column of a table may hold. *)
Definition Rule : Type := TableId -> string -> JSValue -> bool.

(** Every stored row obeys the rule. *)
Definition rows_obey (ok : Rule) (st : Store) : Prop :=
  forall t r k, In r (rows (table st t)) -> ok t k (JS.get r k) = true.

(** An object of values or of changes obeys the rule in what it sets. *)
Definition sets_obey (ok : Rule) (t : TableId) (u : Obj) : Prop :=
  forall k, JS.has u k = true -> ok t k (JS.get u k) = true.

(** [typeof v === 'number' && v > 0] *)
Definition positive (v : JSValue) : bool := JS.is_number v && negb (le_zero v).

(** What the handlers let through for the numeric columns: an offer's
    [discountPercent] is a number from 0 to 100; an order's [subtotal] and
    [finalAmount] are positive numbers and its [discount] a number not
    below 0; a menu item's [price] converts to a positive number; an order
    item's [quantity] is a positive integer and its [price] a positive
    number; a payment's [amountPaid] is a positive number. *)
Definition amount_ok : Rule := fun t k v =>
  match t with
  | Offers =>
      if String.eqb k "discountPercent" then
        match v with
        | JNum d => negb (OffersRoute.bad_percent d)
        | _ => false
        end
      else true
  | Orders =>
      if String.eqb k "subtotal" then positive v
      else if String.eqb k "finalAmount" then positive v
      else if String.eqb k "discount" then JS.is_number v && negb (lt_zero v)
      else true
  | MenuItems =>
      if String.eqb k "price" then negb (MenuItemsRoute.bad_price v) else true
  | OrderItems =>
      if String.eqb k "quantity" then JS.isInteger v && negb (le_zero v)
      else if String.eqb k "price" then positive v
      else true
  | Payments => if String.eqb k "amountPaid" then positive v else true
  | Shops | Customers | Receipts => true
  end.

(** The text columns that every create requires and every update
    re-checks. *)
Definition required_text (t : TableId) : list string :=
  match t with
  | Shops => ["name"; "address"; "contact"; "email"]
  | Customers => ["name"; "email"; "phone"; "address"]
  | MenuItems => ["name"; "category"]
  | Offers => ["title"]
  | Orders => ["tokenNumber"; "deliveryMode"]
  | OrderItems => []
  | Payments => ["transactionId"; "paymentMode"; "paymentStatus"]
  | Receipts => ["receiptData"]
  end.

(** A string with no white space around it, and not empty. *)
Definition trimmed_text (v : JSValue) : bool :=
  match v with
  | JStr s => String.eqb (Str.trim s) s && negb (Str.is_empty s)
  | _ => false
  end.

Definition text_ok : Rule := fun t k v =>
  if existsb (String.eqb k) (required_text t) then trimmed_text v else true.

(** The changes of an update leave [id] and [createdAt] alone. *)
Definition keeps_identity (u : Obj) : Prop :=
  JS.has u "id" = false /\ JS.has u "createdAt" = false.

(** ** Sample inputs *)

Definition sample_env : Env :=
  {| now := "2024-05-01T12:00:00.000Z";
     parseDate := fun v =>
       match v with
       | JStr "2024-05-01" => Some "2024-05-01T00:00:00.000Z"
       | JStr "2024-06-01" => Some "2024-06-01T00:00:00.000Z"
       | _ => None
       end;
     irregular_window := fun _ _ _ => inl (DbError "datatype mismatch");
     arrival := fun _ requests => requests |}.

Definition request (query : list (string * string)) (body : Obj) : Request :=
  {| url_query := query; req_body := Json (JObj body) |}.

Definition alice : Request :=
  request [] [ ("name", JStr "Alice"); ("email", JStr "Alice@Example.com");
               ("phone", JStr "555-0100"); ("address", JStr "1 Main St") ].

Definition alice_again : Request :=
  request [] [ ("name", JStr "Alice B"); ("email", JStr "ALICE@example.COM");
               ("phone", JStr "555-0101"); ("address", JStr "2 Main St") ].

Definition one_customer : Store := fst (CustomersRoute.POST sample_env empty_store alice).

Import Checkout.

Definition sample_readings : Readings :=
  {| token_now := 1714564800123; token_random := 7;
     txn_now := 1714564800124; txn_random := 42;
     ready_time := "2024-05-01T12:30:00.000Z" |}.

Definition burger : CartItem :=
  {| item_id := 1; item_name := "Burger"; item_price := 100; item_quantity := 2 |}.

Definition sample_form : Form :=
  {| cart := [burger]; customer := None; deliveryMode := "Pickup";
     paymentMode := "Cash"; guestName := "Ann"; guestPhone := "555-0100" |}.

Definition sample_browser : Browser :=
  {| stored_cart := Some [burger]; toasts := []; events := [];
     pushed := None; isProcessing := false |}.

(** A store in which a payment already carries the transaction id that
    [sample_readings] generate. *)
Definition paid_before : Store :=
  fst (PaymentsRoute.POST sample_env empty_store
         (request [] [ ("transactionId", JStr (transactionId sample_readings));
                       ("paymentMode", JStr "Card");
                       ("amountPaid", JS.num 50);
                       ("paymentStatus", JStr "Completed") ])).

(** A store with one order, placed by [sample_form]. *)
Definition one_order : Store :=
  fst (create_order sample_env sample_readings sample_form empty_store).

Definition set_status (s : string) : Request :=
  request [("id", "1")] [("status", JStr s)].

Definition big_discount : Request :=
  request [] [ ("title", JStr "Sale"); ("discountPercent", JS.num 150);
               ("validFrom", JStr "2024-05-01");
               ("validUntil", JStr "2024-06-01") ].

(** Samples for the further statements: a second customer, a request
    by id, a menu item, a menu page holding it twice and a browser in
    which nobody has signed up. *)
Definition bob : Request :=
  request [] [ ("name", JStr "Bob"); ("email", JStr "bob@example.com");
               ("phone", JStr "555-0102"); ("address", JStr "3 Main St") ].

Definition two_customers : Store :=
  fst (CustomersRoute.POST sample_env one_customer bob).

Definition by_id (id : string) : Request := request [("id", id)] [].

Definition fries : MenuPage.MenuItem :=
  {| MenuPage.mi_id := 2; MenuPage.mi_name := "Fries";
     MenuPage.mi_category := "Sides"; MenuPage.mi_price := 40;
     MenuPage.mi_availability := true; MenuPage.mi_description := None;
     MenuPage.mi_imageUrl := None;
     MenuPage.mi_createdAt := "2024-05-01T12:00:00.000Z" |}.

Definition menu_page : MenuPage.Page :=
  {| MenuPage.cart := [ {| MenuPage.ci_item := fries; MenuPage.ci_quantity := 2 |} ];
     MenuPage.stored_cart := None; MenuPage.events := []; MenuPage.toasts := [] |}.

(** A menu of two items, a cart of three lines of which the second has
    no price, and a server that takes the latest of the requests sent
    together first. *)
Definition dish (name : string) (price : Z) : Request :=
  request [] [ ("name", JStr name); ("category", JStr "Mains");
               ("price", JS.num price) ].

Definition menu_of_one : Store :=
  fst (MenuItemsRoute.POST sample_env empty_store (dish "Burger" 100)).

Definition menu_of_two : Store :=
  fst (MenuItemsRoute.POST sample_env menu_of_one (dish "Fries" 40)).

Definition free_sample : CartItem :=
  {| item_id := 2; item_name := "Fries"; item_price := 0; item_quantity := 1 |}.

Definition fries_line : CartItem :=
  {| item_id := 2; item_name := "Fries"; item_price := 40; item_quantity := 1 |}.

Definition lunch_form : Form :=
  {| cart := [burger; free_sample; fries_line]; customer := None;
     deliveryMode := "Pickup"; paymentMode := "Cash"; guestName := "Ann";
     guestPhone := "555-0100" |}.

Definition rush_hour : Env :=
  {| now := now sample_env; parseDate := parseDate sample_env;
     irregular_window := irregular_window sample_env;
     arrival := fun _ requests => rev requests |}.

Definition nobody : Auth.Session :=
  {| Auth.customers := None; Auth.current := None; Auth.toasts := [];
     Auth.route := None; Auth.isLoading := false |}.

(** ** White space and length on sample inputs *)

(** U+00A0, the no-break space. *)
Definition nbsp : string :=
  String (ascii_of_nat 194) (String (ascii_of_nat 160) EmptyString).

Example trim_nbsp : Str.trim (nbsp ++ " ok" ++ nbsp ++ " ") = "ok".
Proof. reflexivity. Qed.

Example trim_only_nbsp : Str.trim nbsp = "".
Proof. reflexivity. Qed.

Example parseInt_nbsp : Parse.parseInt (nbsp ++ "12") = Num.of_Z 12.
Proof. reflexivity. Qed.

Example length_of_accents : Str.length "ééé" = 3%nat.
Proof. reflexivity. Qed.

(** ** The parsers on sample inputs *)

Example parseInt_7abc : Parse.parseInt "7abc" = Num.of_Z 7.
Proof. reflexivity. Qed.
Example parseInt_hex : Parse.parseInt " 0x1A" = Num.of_Z 26.
Proof. reflexivity. Qed.
Example parseInt_abc : Parse.parseInt "abc" = NaN.
Proof. reflexivity. Qed.
Example parseInt_neg : Parse.parseInt "-12.9" = Num.of_Z (-12).
Proof. reflexivity. Qed.
Example parseFloat_150 : Parse.parseFloat "150" = Fin (150 # 1).
Proof. reflexivity. Qed.
Example parseFloat_frac : Parse.parseFloat " 12.5e1xyz" = Fin (125 # 1).
Proof. reflexivity. Qed.
Example parseFloat_dot5 : Parse.parseFloat "-.5" = Fin (-1 # 2).
Proof. reflexivity. Qed.
Example parseFloat_1e : Parse.parseFloat "1e" = Fin (1 # 1).
Proof. reflexivity. Qed.
Example parseFloat_dot : Parse.parseFloat "." = NaN.
Proof. reflexivity. Qed.
Example toNumber_1e : Parse.toNumber "1e" = NaN.
Proof. reflexivity. Qed.
Example toNumber_empty : Parse.toNumber "  " = Num.zero.
Proof. reflexivity. Qed.
Example toNumber_hex : Parse.toNumber "0x10" = Num.of_Z 16.
Proof. reflexivity. Qed.


(** ** Objects and rows *)

Lemma TableId_eq_dec (a b : TableId) : {a = b} + {a <> b}.
Proof. decide equality. Defined.

Lemma get_set o k v k' :
  JS.get (JS.set o k v) k' = if String.eqb k' k then v else JS.get o k'.
Proof.
  induction o as [|[k0 v0] o IH]; simpl.
  - destruct (String.eqb_spec k' k); reflexivity.
  - destruct (String.eqb_spec k k0) as [->|Hk]; simpl.
    + destruct (String.eqb_spec k' k0); reflexivity.
    + rewrite IH. destruct (String.eqb_spec k' k0) as [->|]; [|reflexivity].
      destruct (String.eqb_spec k0 k); congruence.
Qed.

Lemma get_assign cs r c :
  JS.get (Db.assign cs r) c = if JS.has cs c then JS.get cs c else JS.get r c.
Proof.
  induction cs as [|[k v] cs IH]; simpl; [reflexivity|].
  rewrite get_set, IH. destruct (String.eqb c k); reflexivity.
Qed.

Lemma table_with_same st t tb : table (with_table st t tb) t = tb.
Proof. destruct t; reflexivity. Qed.

Lemma table_with_other st t tb t' :
  t' <> t -> table (with_table st t tb) t' = table st t'.
Proof. destruct t, t'; try reflexivity; congruence. Qed.

(** ** The store keeps its UNIQUE columns distinct *)

Lemma sql_eqb_sym a b : Db.sql_eqb a b = Db.sql_eqb b a.
Proof.
  destruct a as [| |x|x|x|x|x], b as [| |y|y|y|y|y]; simpl; try reflexivity.
  - destruct x, y; reflexivity.
  - destruct x, y; simpl; try reflexivity.
    unfold Qeq_bool. rewrite Z.eqb_sym. reflexivity.
  - apply String.eqb_sym.
Qed.

Lemma sql_eqb_refl_l a b : Db.sql_eqb a b = true -> Db.sql_eqb b b = true.
Proof.
  destruct a as [| |x|x|x|x|x], b as [| |y|y|y|y|y]; simpl; try discriminate.
  - intros _. destruct y; reflexivity.
  - destruct x, y; simpl; try discriminate; auto.
    intros _. apply Qeq_bool_iff. reflexivity.
  - intros _. apply String.eqb_refl.
Qed.

Lemma holds_app rs1 rs2 c v :
  Db.holds (rs1 ++ rs2) c v = Db.holds rs1 c v || Db.holds rs2 c v.
Proof. unfold Db.holds. apply existsb_app. Qed.

Lemma distinct_on_snoc c rs r :
  distinct_on c rs = true ->
  Db.holds rs c (JS.get r (col_name c)) = false ->
  distinct_on c (rs ++ [r]) = true.
Proof.
  induction rs as [|x rs IH]; simpl; intros Hd Hh; [reflexivity|].
  apply andb_true_iff in Hd as [Hx Hd]. apply orb_false_iff in Hh as [Hxr Hh].
  rewrite holds_app, (IH Hd Hh). simpl.
  rewrite (sql_eqb_sym (JS.get r _)), Hxr.
  apply negb_true_iff in Hx. rewrite Hx. reflexivity.
Qed.

Lemma distinct_on_filter c f rs :
  distinct_on c rs = true -> distinct_on c (filter f rs) = true.
Proof.
  induction rs as [|x rs IH]; simpl; intros Hd; [reflexivity|].
  apply andb_true_iff in Hd as [Hx Hd].
  destruct (f x); simpl; [|auto]. rewrite (IH Hd), andb_true_r.
  apply negb_true_iff in Hx. apply negb_true_iff.
  unfold Db.holds in *.
  destruct (existsb _ (filter f rs)) eqn:E; [|reflexivity].
  apply existsb_exists in E as [y [Hy Hy']]. apply filter_In in Hy as [Hy _].
  rewrite <- Hx. symmetry. apply existsb_exists. eauto.
Qed.

Lemma count_holding_cons rs c v r :
  Db.count_holding (r :: rs) c v =
  ((if Db.sql_eqb (JS.get r (col_name c)) v then 1 else 0)
   + Db.count_holding rs c v)%nat.
Proof.
  unfold Db.count_holding. simpl. destruct (Db.sql_eqb _ _); reflexivity.
Qed.

Lemma holds_count rs c v :
  Db.holds rs c v = true -> (1 <= Db.count_holding rs c v)%nat.
Proof.
  induction rs as [|x rs IH]; simpl; [discriminate|].
  rewrite count_holding_cons. destruct (Db.sql_eqb _ _); simpl; [lia|auto].
Qed.

Lemma count_holding_in rs c v r :
  In r rs -> Db.sql_eqb (JS.get r (col_name c)) v = true ->
  (1 <= Db.count_holding rs c v)%nat.
Proof.
  intros Hin He. apply holds_count. apply existsb_exists. eauto.
Qed.

Lemma distinct_on_update c (f : Obj -> Obj) v rs :
  distinct_on c rs = true ->
  (forall r, f r = r \/ JS.get (f r) (col_name c) = v) ->
  (Db.count_holding (map f rs) c v <= 1)%nat ->
  distinct_on c (map f rs) = true.
Proof.
  intros Hd Hf. induction rs as [|x rs IH]; simpl; intros Hc; [reflexivity|].
  simpl in Hd. apply andb_true_iff in Hd as [Hx Hd].
  rewrite count_holding_cons in Hc.
  rewrite IH by (auto; lia). rewrite andb_true_r.
  apply negb_true_iff.
  destruct (Db.holds (map f rs) c _) eqn:Hh; [exfalso|reflexivity].
  apply negb_true_iff in Hx.
  unfold Db.holds in Hh. apply existsb_exists in Hh as [y' [Hy' He]].
  pose proof Hy' as Hin'.
  apply in_map_iff in Hy' as [y [<- Hy]].
  destruct (Hf x) as [Ex|Ex].
  - destruct (Hf y) as [Ey|Ey].
    + rewrite Ex, Ey in He.
      assert (Db.holds rs c (JS.get x (col_name c)) = true)
        by (apply existsb_exists; eauto).
      congruence.
    + rewrite Ey in He. rewrite sql_eqb_sym in He.
      pose proof (sql_eqb_refl_l _ _ He) as Hv. rewrite He in Hc.
      assert (1 <= Db.count_holding (map f rs) c v)%nat
        by (apply (count_holding_in _ _ _ (f y)); [auto | rewrite Ey; auto]).
      lia.
  - rewrite Ex in He. pose proof (sql_eqb_refl_l _ _ He) as Hv.
    rewrite Ex, Hv in Hc.
    assert (1 <= Db.count_holding (map f rs) c v)%nat
      by (apply (count_holding_in _ _ _ (f y)); auto).
    lia.
Qed.

Lemma holds_map c (f : Obj -> Obj) rs v :
  (forall r, JS.get (f r) (col_name c) = JS.get r (col_name c)) ->
  Db.holds (map f rs) c v = Db.holds rs c v.
Proof.
  intros Hf. induction rs as [|x rs IH]; simpl; [reflexivity|].
  now rewrite Hf, IH.
Qed.

Lemma distinct_on_same_column c (f : Obj -> Obj) rs :
  distinct_on c rs = true ->
  (forall r, JS.get (f r) (col_name c) = JS.get r (col_name c)) ->
  distinct_on c (map f rs) = true.
Proof.
  intros Hd Hf. induction rs as [|x rs IH]; simpl; [reflexivity|].
  simpl in Hd. apply andb_true_iff in Hd as [Hx Hd].
  rewrite IH by auto. rewrite andb_true_r, Hf, holds_map by auto. exact Hx.
Qed.

Lemma insert_unique st t values st' rs :
  unique_inv st -> Db.insert st t values = inr (st', rs) -> unique_inv st'.
Proof.
  unfold Db.insert. intros Hinv H.
  destruct (Db.null_violation _ _); [discriminate|].
  destruct (Db.unique_violation _ _ _) eqn:Hu; [discriminate|].
  injection H as <- <-. intros t' c Hc.
  destruct (TableId_eq_dec t' t) as [->|Hne].
  - rewrite table_with_same. simpl. apply distinct_on_snoc; [auto|].
    exact (find_none _ _ Hu c Hc).
  - rewrite table_with_other by assumption. auto.
Qed.

Lemma delete_unique st t id st' rs :
  unique_inv st -> Db.delete st t id = (st', rs) -> unique_inv st'.
Proof.
  unfold Db.delete. intros Hinv H. injection H as <- <-. intros t' c Hc.
  destruct (TableId_eq_dec t' t) as [->|Hne].
  - rewrite table_with_same. simpl. apply distinct_on_filter; auto.
  - rewrite table_with_other by assumption. auto.
Qed.

Lemma update_unique st t changes id st' rs :
  unique_inv st -> Db.update st t changes id = inr (st', rs) -> unique_inv st'.
Proof.
  unfold Db.update. intros Hinv H.
  destruct (JS.no_keys changes); [discriminate|].
  destruct (filter _ _) eqn:Hf; [injection H as <- <-; auto|].
  destruct (Db.nulled_column _ _); [discriminate|].
  destruct (Db.collided_column _ _ _) eqn:Hu; [discriminate|].
  injection H as <- <-. intros t' c Hc.
  destruct (TableId_eq_dec t' t) as [->|Hne].
  - rewrite table_with_same. simpl.
    pose proof (find_none _ _ Hu c Hc) as Hcol. simpl in Hcol.
    destruct (JS.has changes (col_name c)) eqn:Hhas.
    + apply (distinct_on_update c _ (JS.get changes (col_name c))); [auto| |].
      * intros r. destruct (Db.has_id id r); [right|left; reflexivity].
        rewrite get_assign, Hhas. reflexivity.
      * simpl in Hcol. apply Nat.ltb_ge in Hcol. exact Hcol.
    + apply distinct_on_same_column; [auto|].
      intros r. destruct (Db.has_id id r); [|reflexivity].
      rewrite get_assign, Hhas. reflexivity.
  - rewrite table_with_other by assumption. auto.
Qed.

(** ** Reasoning along handler bodies *)

Lemma sat_bind {A B : Type} (P : Response -> Prop) (Q : B -> Prop)
  (m : Flow A) (k : A -> Flow B) :
  flow_sat P (fun _ => True) m -> (forall a, flow_sat P Q (k a)) ->
  flow_sat P Q (bind m k).
Proof. destruct m; simpl; auto. Qed.

Lemma sat_try_catch (R : Store * Response -> Prop) st body h :
  flow_sat (fun r => R (st, r)) R body -> (forall e, R (st, h e)) ->
  R (try_catch st body h).
Proof. destruct body; simpl; auto. Qed.

Lemma sat_request_json P req :
  flow_sat P (fun _ : JSValue => True) (request_json req).
Proof. unfold request_json; destruct (req_body req); exact I. Qed.

Lemma sat_destructure P v : flow_sat P (fun _ : Obj => True) (destructure v).
Proof. destruct v; exact I. Qed.

Lemma sat_trim_of P v : flow_sat P (fun _ : string => True) (trim_of v).
Proof. destruct v; exact I. Qed.

Lemma sat_trims_to_empty P v :
  flow_sat P (fun _ : bool => True) (trims_to_empty v).
Proof. destruct v; exact I. Qed.

Lemma sat_blank P v : flow_sat P (fun _ : bool => True) (blank v).
Proof.
  unfold blank. destruct (JS.falsy v); [exact I | apply sat_trims_to_empty].
Qed.

Lemma sat_trimmed_or_null P v :
  flow_sat P (fun _ : JSValue => True) (trimmed_or_null v).
Proof.
  unfold trimmed_or_null. destruct (JS.truthy v); [destruct v|]; exact I.
Qed.

(** One step along a body whose outcomes must satisfy a property that
    does not depend on the values bound on the way; [leaf] closes the
    goals at the returns. *)
Ltac sat_step leaf :=
  lazymatch goal with
  | |- flow_sat _ _ (bind (request_json _) _) =>
      apply sat_bind; [apply sat_request_json | intros ?]
  | |- flow_sat _ _ (bind (destructure _) _) =>
      apply sat_bind; [apply sat_destructure | intros ?]
  | |- flow_sat _ _ (bind (trim_of _) _) =>
      apply sat_bind; [apply sat_trim_of | intros ?]
  | |- flow_sat _ _ (bind (trims_to_empty _) _) =>
      apply sat_bind; [apply sat_trims_to_empty | intros ?]
  | |- flow_sat _ _ (bind (blank _) _) =>
      apply sat_bind; [apply sat_blank | intros ?]
  | |- flow_sat _ _ (bind (trimmed_or_null _) _) =>
      apply sat_bind; [apply sat_trimmed_or_null | intros ?]
  | |- flow_sat _ _ (bind _ _) => apply sat_bind; [ | intros ?]
  | |- flow_sat _ _ (if ?c then _ else _) => destruct c
  | |- flow_sat _ _ (match ?x with _ => _ end) => destruct x eqn:?
  | |- flow_sat _ _ (list_reply _ _ _) => unfold list_reply
  | |- flow_sat _ _ (Throw _) => exact I
  | |- flow_sat _ _ (Reply _) => simpl; leaf
  | |- flow_sat _ _ (Next _) => simpl; leaf
  end.

Ltac sat leaf := cbv zeta; repeat (sat_step leaf; cbv zeta).

(** ** Error responses (C4) *)












Ltac unique_leaf :=
  try assumption;
  eauto using insert_unique, update_unique, delete_unique.

(** ** Invariants of the store under the API *)

Lemma uniqueness_preserved t m env st req :
  unique_inv st -> unique_inv (fst (api t m env st req)).
Proof.
  intros Hinv.
  destruct t, m; cbv [api];
  match goal with |- unique_inv (fst (?h _ _ _)) => unfold h end.
  all: apply (sat_try_catch (fun out => unique_inv (fst out))); [ sat unique_leaf | intros; exact Hinv ].
Qed.

Lemma frame_insert st t values st' rs t' :
  Db.insert st t values = inr (st', rs) -> t' <> t -> table st' t' = table st t'.
Proof.
  unfold Db.insert. destruct (Db.null_violation _ _); [discriminate|].
  destruct (Db.unique_violation _ _ _); [discriminate|].
  intros H Hne. injection H as <- <-. now apply table_with_other.
Qed.
Lemma frame_update st t ch id st' rs t' :
  Db.update st t ch id = inr (st', rs) -> t' <> t -> table st' t' = table st t'.
Proof.
  unfold Db.update. destruct (JS.no_keys _); [discriminate|].
  destruct (filter _ _); [intros H; injection H as <- <-; reflexivity|].
  destruct (Db.nulled_column _ _); [discriminate|].
  destruct (Db.collided_column _ _ _); [discriminate|].
  intros H Hne. injection H as <- <-. now apply table_with_other.
Qed.
Lemma frame_delete st t id st' rs t' :
  Db.delete st t id = (st', rs) -> t' <> t -> table st' t' = table st t'.
Proof.
  unfold Db.delete. intros H Hne. injection H as <- <-. now apply table_with_other.
Qed.

Ltac frame_leaf :=
  try reflexivity;
  try solve [ eapply frame_insert; eassumption
            | eapply frame_update; eassumption
            | eapply frame_delete; eassumption ].

Lemma other_tables_untouched t m env st req t' :
  t' <> t -> table (fst (api t m env st req)) t' = table st t'.
Proof.
  intros Hne.
  destruct t, m; cbv [api];
  match goal with |- table (fst (?h _ _ _)) _ = _ => unfold h end.
  all: apply (sat_try_catch (fun out => table (fst out) t' = table st t')); [ sat frame_leaf | intros; reflexivity ].
Qed.

(** ** Trimming and lower-casing *)

Lemma trimStart_step s :
  Str.trimStart s
  = match Str.ws_head s with
    | Some rest => Str.trimStart rest
    | None => s
    end.
Proof.
  destruct s as [|c1 [|c2 [|c3 s3]]]; simpl; try reflexivity.
  - destruct (Str.is_ws c1); reflexivity.
  - destruct (Str.is_ws c1); [reflexivity|].
    destruct (Str.is_ws2 c1 c2); reflexivity.
  - destruct (Str.is_ws c1); [reflexivity|].
    destruct (Str.is_ws2 c1 c2); [reflexivity|].
    destruct (Str.is_ws3 c1 c2 c3); reflexivity.
Qed.

Lemma ws_head_shorter s rest :
  Str.ws_head s = Some rest -> (String.length rest < String.length s)%nat.
Proof.
  destruct s as [|c1 [|c2 [|c3 s3]]]; simpl; try discriminate.
  - destruct (Str.is_ws c1); [|discriminate]. intros [= <-]. simpl. lia.
  - destruct (Str.is_ws c1); [intros [= <-]; simpl; lia|].
    destruct (Str.is_ws2 c1 c2); [|discriminate]. intros [= <-]. simpl. lia.
  - destruct (Str.is_ws c1); [intros [= <-]; simpl; lia|].
    destruct (Str.is_ws2 c1 c2); [intros [= <-]; simpl; lia|].
    destruct (Str.is_ws3 c1 c2 c3); [|discriminate]. intros [= <-]. simpl. lia.
Qed.

(** Induction along the white space at the head of a string. *)
Lemma ws_head_ind (P : string -> Prop) :
  (forall s, (forall rest, Str.ws_head s = Some rest -> P rest) -> P s) ->
  forall s, P s.
Proof.
  intros step s.
  remember (String.length s) as n eqn:Hn.
  revert s Hn. induction n as [n IH] using lt_wf_ind. intros s ->.
  apply step. intros rest Hrest.
  apply (IH (String.length rest)); [now apply ws_head_shorter | reflexivity].
Qed.

Lemma lower_ascii_spec c :
  Str.lower_ascii c = c
  \/ (nat_of_ascii c <= 90 /\ nat_of_ascii (Str.lower_ascii c) <= 122)%nat.
Proof.
  destruct c as [[] [] [] [] [] [] [] []]; vm_compute;
    first [left; reflexivity | right; split; lia].
Qed.

Lemma lower_ascii_idem c : Str.lower_ascii (Str.lower_ascii c) = Str.lower_ascii c.
Proof. destruct c as [[] [] [] [] [] [] [] []]; reflexivity. Qed.

Lemma is_ws_lower c : Str.is_ws (Str.lower_ascii c) = Str.is_ws c.
Proof. destruct c as [[] [] [] [] [] [] [] []]; reflexivity. Qed.

(** Lower-casing leaves the bytes above the letters, and makes none. *)
Lemma code_lower c k :
  (123 <= k)%nat ->
  Nat.eqb (nat_of_ascii (Str.lower_ascii c)) k = Nat.eqb (nat_of_ascii c) k.
Proof.
  intros Hk. destruct (lower_ascii_spec c) as [->|[H1 H2]]; [reflexivity|].
  rewrite (proj2 (Nat.eqb_neq _ _)) by lia.
  rewrite (proj2 (Nat.eqb_neq _ _)) by lia. reflexivity.
Qed.

Lemma is_ws2_lower c1 c2 :
  Str.is_ws2 (Str.lower_ascii c1) (Str.lower_ascii c2) = Str.is_ws2 c1 c2.
Proof. unfold Str.is_ws2. now rewrite !code_lower by lia. Qed.

Lemma is_ws3_lower c1 c2 c3 :
  Str.is_ws3 (Str.lower_ascii c1) (Str.lower_ascii c2) (Str.lower_ascii c3)
  = Str.is_ws3 c1 c2 c3.
Proof.
  unfold Str.is_ws3. cbv zeta. rewrite !code_lower by lia.
  destruct (lower_ascii_spec c3) as [->|[H1 H2]]; [reflexivity|].
  rewrite (proj2 (Nat.leb_gt 128 (nat_of_ascii c3))) by lia.
  rewrite (proj2 (Nat.leb_gt 128 (nat_of_ascii (Str.lower_ascii c3)))) by lia.
  reflexivity.
Qed.

Lemma toLowerCase_idem s : Str.toLowerCase (Str.toLowerCase s) = Str.toLowerCase s.
Proof. induction s; simpl; [reflexivity|]. now rewrite lower_ascii_idem, IHs. Qed.

Lemma ws_head_lower s :
  Str.ws_head (Str.toLowerCase s) = option_map Str.toLowerCase (Str.ws_head s).
Proof.
  destruct s as [|c1 [|c2 [|c3 s3]]]; simpl; try reflexivity;
    rewrite ?is_ws_lower, ?is_ws2_lower, ?is_ws3_lower.
  - destruct (Str.is_ws c1); reflexivity.
  - destruct (Str.is_ws c1); [reflexivity|]. destruct (Str.is_ws2 c1 c2); reflexivity.
  - destruct (Str.is_ws c1); [reflexivity|]. destruct (Str.is_ws2 c1 c2); [reflexivity|].
    destruct (Str.is_ws3 c1 c2 c3); reflexivity.
Qed.

Lemma trimStart_lower s : Str.trimStart (Str.toLowerCase s) = Str.toLowerCase (Str.trimStart s).
Proof.
  induction s as [s IH] using ws_head_ind.
  rewrite (trimStart_step s), (trimStart_step (Str.toLowerCase s)), ws_head_lower.
  destruct (Str.ws_head s) as [rest|]; simpl; [now apply IH | reflexivity].
Qed.

Lemma is_empty_lower s : Str.is_empty (Str.toLowerCase s) = Str.is_empty s.
Proof. destruct s; reflexivity. Qed.

Lemma all_ws_lower s : Str.all_ws (Str.toLowerCase s) = Str.all_ws s.
Proof. unfold Str.all_ws. now rewrite trimStart_lower, is_empty_lower. Qed.

Lemma trimEnd_step c s :
  Str.trimEnd (String c s)
  = if Str.all_ws (String c s) then EmptyString else String c (Str.trimEnd s).
Proof. reflexivity. Qed.

Lemma trimEnd_lower s : Str.trimEnd (Str.toLowerCase s) = Str.toLowerCase (Str.trimEnd s).
Proof.
  induction s as [|c s IH]; [reflexivity|].
  change (Str.toLowerCase (String c s))
    with (String (Str.lower_ascii c) (Str.toLowerCase s)).
  rewrite !trimEnd_step.
  change (String (Str.lower_ascii c) (Str.toLowerCase s))
    with (Str.toLowerCase (String c s)).
  rewrite all_ws_lower. destruct (Str.all_ws (String c s)); [reflexivity|].
  simpl. now rewrite IH.
Qed.

Lemma trim_lower s : Str.trim (Str.toLowerCase s) = Str.toLowerCase (Str.trim s).
Proof. unfold Str.trim. now rewrite trimStart_lower, trimEnd_lower. Qed.

Lemma trimStart_visible s : starts_visible (Str.trimStart s) = true.
Proof.
  induction s as [s IH] using ws_head_ind.
  rewrite trimStart_step. destruct (Str.ws_head s) as [rest|] eqn:E.
  - now apply IH.
  - unfold starts_visible. now rewrite E.
Qed.

Lemma trimStart_fixed s : starts_visible s = true -> Str.trimStart s = s.
Proof.
  unfold starts_visible. intros H. rewrite trimStart_step.
  destruct (Str.ws_head s); [discriminate | reflexivity].
Qed.

(** White space at the head of a string is at the head of every string
    that goes on from it. *)
Lemma ws_head_app s rest u :
  Str.ws_head s = Some rest -> Str.ws_head (s ++ u) = Some (rest ++ u).
Proof.
  destruct s as [|c1 [|c2 [|c3 s3]]]; simpl; try discriminate.
  - destruct (Str.is_ws c1); [|discriminate]. intros [= <-].
    destruct u; reflexivity.
  - destruct (Str.is_ws c1); [intros [= <-]; reflexivity|].
    destruct (Str.is_ws2 c1 c2); [|discriminate]. intros [= <-]. reflexivity.
  - destruct (Str.is_ws c1); [intros [= <-]; reflexivity|].
    destruct (Str.is_ws2 c1 c2); [intros [= <-]; reflexivity|].
    destruct (Str.is_ws3 c1 c2 c3); [|discriminate]. intros [= <-]. reflexivity.
Qed.

Lemma all_ws_app s u : Str.all_ws s = true -> Str.trimStart (s ++ u) = Str.trimStart u.
Proof.
  unfold Str.all_ws. induction s as [s IH] using ws_head_ind. intros H.
  rewrite trimStart_step in H.
  destruct (Str.ws_head s) as [rest|] eqn:E.
  - rewrite (trimStart_step (s ++ u)), (ws_head_app _ _ u E).
    now apply IH.
  - destruct s; [reflexivity | discriminate].
Qed.

(** What [trimEnd] takes off is white space throughout. *)
Lemma trimEnd_split s :
  exists u, s = Str.trimEnd s ++ u /\ Str.all_ws u = true.
Proof.
  induction s as [|c s [u [Hs Hu]]].
  - exists "". split; reflexivity.
  - rewrite trimEnd_step. destruct (Str.all_ws (String c s)) eqn:E.
    + exists (String c s). split; [reflexivity | exact E].
    + exists u. split; [simpl; now rewrite <- Hs | exact Hu].
Qed.

Lemma trimEnd_visible s : starts_visible s = true -> starts_visible (Str.trimEnd s) = true.
Proof.
  unfold starts_visible. intros H.
  destruct (Str.ws_head (Str.trimEnd s)) as [rest|] eqn:E; [|reflexivity].
  destruct (trimEnd_split s) as [u [Hs _]].
  rewrite Hs, (ws_head_app _ _ u E) in H. discriminate.
Qed.

Lemma trimEnd_idem s : Str.trimEnd (Str.trimEnd s) = Str.trimEnd s.
Proof.
  induction s as [|c s IH]; [reflexivity|].
  rewrite trimEnd_step. destruct (Str.all_ws (String c s)) eqn:E; [reflexivity|].
  rewrite trimEnd_step, IH.
  destruct (Str.all_ws (String c (Str.trimEnd s))) eqn:E'; [|reflexivity].
  exfalso. destruct (trimEnd_split s) as [u [Hs Hu]].
  assert (H : Str.all_ws (String c s) = true).
  { unfold Str.all_ws. rewrite Hs.
    change (String c (Str.trimEnd s ++ u)) with (String c (Str.trimEnd s) ++ u).
    rewrite (all_ws_app _ u E'). exact Hu. }
  congruence.
Qed.

Lemma trim_idem s : Str.trim (Str.trim s) = Str.trim s.
Proof.
  unfold Str.trim.
  rewrite (trimStart_fixed (Str.trimEnd _)).
  - apply trimEnd_idem.
  - apply trimEnd_visible, trimStart_visible.
Qed.

Lemma normalized_is_normal s :
  let e := Str.toLowerCase (Str.trim s) in
  Str.toLowerCase e = e /\ Str.trim e = e.
Proof.
  simpl. split; [apply toLowerCase_idem|].
  now rewrite trim_lower, trim_idem.
Qed.

(** ** Reasoning along the paths of a handler body *)
Lemma bind_assoc {A B C} (m : Flow A) (k1 : A -> Flow B) (k2 : B -> Flow C) :
  bind (bind m k1) k2 = bind m (fun a => bind (k1 a) k2).
Proof. destruct m; reflexivity. Qed.

Lemma request_json_no_reply req r : request_json req <> Reply r.
Proof. unfold request_json; destruct (req_body req); discriminate. Qed.
Lemma destructure_no_reply v r : destructure v <> Reply r.
Proof. destruct v; discriminate. Qed.
Lemma trim_of_no_reply v r : trim_of v <> Reply r.
Proof. destruct v; discriminate. Qed.
Lemma trims_to_empty_no_reply v r : trims_to_empty v <> Reply r.
Proof. destruct v; discriminate. Qed.
Lemma blank_no_reply v r : blank v <> Reply r.
Proof. unfold blank. destruct (JS.falsy v); [discriminate|apply trims_to_empty_no_reply]. Qed.
Lemma trimmed_or_null_no_reply v r : trimmed_or_null v <> Reply r.
Proof. unfold trimmed_or_null. destruct (JS.truthy v); [destruct v|]; discriminate. Qed.

Ltac no_reply :=
  exfalso;
  match goal with
  | H : request_json _ = Reply _ |- _ => exact (request_json_no_reply _ _ H)
  | H : destructure _ = Reply _ |- _ => exact (destructure_no_reply _ _ H)
  | H : trim_of _ = Reply _ |- _ => exact (trim_of_no_reply _ _ H)
  | H : trims_to_empty _ = Reply _ |- _ => exact (trims_to_empty_no_reply _ _ H)
  | H : blank _ = Reply _ |- _ => exact (blank_no_reply _ _ H)
  | H : trimmed_or_null _ = Reply _ |- _ => exact (trimmed_or_null_no_reply _ _ H)
  end.

Ltac path_step leaf :=
  lazymatch goal with
  | |- flow_sat _ _ (bind (Next _) _) => cbn [bind]
  | |- flow_sat _ _ (bind (Reply _) _) => cbn [bind]
  | |- flow_sat _ _ (bind (Throw _) _) => exact I
  | |- flow_sat _ _ (bind (bind _ _) _) => rewrite bind_assoc
  | |- flow_sat _ _ (bind (if ?c then _ else _) _) => destruct c eqn:?
  | |- flow_sat _ _ (bind (match ?x with _ => _ end) _) => destruct x eqn:?
  | |- flow_sat _ _ (bind ?m _) =>
      let E := fresh "E" in
      destruct m eqn:E; [ | no_reply | ]
  | |- flow_sat _ _ (if ?c then _ else _) => destruct c eqn:?
  | |- flow_sat _ _ (match ?x with _ => _ end) => destruct x eqn:?
  | |- flow_sat _ _ (list_reply _ _ _) => unfold list_reply
  | |- flow_sat _ _ (Throw _) => exact I
  | |- flow_sat _ _ (Reply _) => simpl; leaf
  | |- flow_sat _ _ (Next _) => simpl; leaf
  end.

Ltac paths leaf := cbv zeta; repeat (path_step leaf; cbv zeta).

Lemma insert_rows st t values st' rs :
  Db.insert st t values = inr (st', rs) ->
  rows (table st' t)
  = (rows (table st t)
     ++ [Db.new_row (schema t) (next_id (table st t)) values])%list
  /\ rs = [Db.new_row (schema t) (next_id (table st t)) values].
Proof.
  unfold Db.insert. destruct (Db.null_violation _ _); [discriminate|].
  destruct (Db.unique_violation _ _ _); [discriminate|].
  intros H. injection H as <- <-. rewrite table_with_same. auto.
Qed.

Lemma map_unmatched (f : Obj -> Obj) p rs :
  filter p rs = [] -> map (fun r => if p r then f r else r) rs = rs.
Proof.
  induction rs as [|x rs IH]; simpl; [reflexivity|].
  destruct (p x); [discriminate|]. intros H. now rewrite IH.
Qed.

Lemma update_rows st t changes id st' rs :
  Db.update st t changes id = inr (st', rs) ->
  rows (table st' t)
  = map (fun r => if Db.has_id id r then Db.assign changes r else r)
        (rows (table st t))
  /\ rs = map (Db.assign changes) (filter (Db.has_id id) (rows (table st t))).
Proof.
  unfold Db.update. destruct (JS.no_keys _); [discriminate|].
  destruct (filter _ _) eqn:Hf.
  - intros H. injection H as <- <-. now rewrite map_unmatched.
  - destruct (Db.nulled_column _ _); [discriminate|].
    destruct (Db.collided_column _ _ _); [discriminate|].
    intros H. injection H as <- <-. rewrite table_with_same. auto.
Qed.

Lemma delete_rows st t id st' rs :
  Db.delete st t id = (st', rs) ->
  rows (table st' t) = filter (fun r => negb (Db.has_id id r)) (rows (table st t))
  /\ rs = filter (Db.has_id id) (rows (table st t)).
Proof.
  unfold Db.delete. intros H. injection H as <- <-. rewrite table_with_same. auto.
Qed.


Lemma insert_emails st values st' rs :
  emails_normal st -> Db.insert st Customers values = inr (st', rs) ->
  (forall e, JS.get values "email" = JStr e -> (Str.toLowerCase e = e /\ Str.trim e = e)) ->
  emails_normal st'.
Proof.
  intros Hinv H Hv. apply insert_rows in H as [H _]. simpl in H.
  intros r e Hin He. unfold table in H. rewrite H in Hin. apply in_app_iff in Hin as [Hin|[<-|[]]].
  - eauto.
  - apply Hv. cbn in He. unfold Db.bound_value in He. simpl in He.
    destruct (JS.get values "email"); congruence.
Qed.

Lemma update_emails st changes id st' rs :
  emails_normal st -> Db.update st Customers changes id = inr (st', rs) ->
  (JS.has changes "email" = true -> forall e, JS.get changes "email" = JStr e -> (Str.toLowerCase e = e /\ Str.trim e = e)) ->
  emails_normal st'.
Proof.
  intros Hinv H Hv. apply update_rows in H as [H _]. simpl in H.
  intros r e Hin He. rewrite H in Hin. apply in_map_iff in Hin as [r0 [<- Hin]].
  destruct (Db.has_id id r0); [|eauto].
  rewrite get_assign in He.
  destruct (JS.has changes "email"); [exact (Hv eq_refl e He) | eauto].
Qed.

Lemma delete_emails st id st' rs :
  emails_normal st -> Db.delete st Customers id = (st', rs) -> emails_normal st'.
Proof.
  intros Hinv H. apply delete_rows in H as [H _]. simpl in H.
  intros r e Hin He. rewrite H in Hin. apply filter_In in Hin as [Hin _]. eauto.
Qed.

Ltac emails_leaf :=
  try assumption;
  try solve [ eapply delete_emails; eassumption ];
  try solve [ eapply insert_emails; [eassumption | eassumption | ];
              intros e; repeat (rewrite ?get_set; simpl);
              repeat match goal with |- context [if ?c then _ else _] => destruct c; simpl end;
              repeat (rewrite ?get_set; simpl);
              unfold CustomersRoute.normalized_email; intros [= <-]; apply normalized_is_normal ];
  try solve [ eapply update_emails; [eassumption | eassumption | ];
              repeat (rewrite ?get_set; simpl);
              repeat match goal with |- context [if ?c then _ else _] => destruct c; simpl end;
              repeat (rewrite ?get_set; simpl);
              try discriminate;
              unfold CustomersRoute.normalized_email; intros _ e [= <-]; apply normalized_is_normal ].

Lemma emails_stay_normal t m env st req :
  emails_normal st -> emails_normal (fst (api t m env st req)).
Proof.
  intros Hinv.
  destruct (TableId_eq_dec t Customers) as [->|Hne].
  - destruct m; cbv [api];
    match goal with |- emails_normal (fst (?h _ _ _)) => unfold h end.
    all: apply (sat_try_catch (fun out => emails_normal (fst out))); [ paths emails_leaf | intros; exact Hinv ].
  - unfold emails_normal.
    change (customers (fst (api t m env st req))) with (table (fst (api t m env st req)) Customers).
    rewrite other_tables_untouched by congruence. exact Hinv.
Qed.

Lemma null_violation_any_id t i j values :
  Db.null_violation (schema t) (Db.new_row (schema t) i values)
  = Db.null_violation (schema t) (Db.new_row (schema t) j values).
Proof. destruct t; reflexivity. Qed.

Lemma find_holds_nil (cs : list Column) (r : Obj) :
  find (fun c => Db.holds [] c (JS.get r (col_name c))) cs = None.
Proof. induction cs; simpl; auto. Qed.

Lemma insert_empty_accepted t values out :
  Db.insert empty_store t values = inr out ->
  Db.null_violation (schema t) (Db.new_row (schema t) 1 values) = None.
Proof.
  unfold Db.insert. replace (next_id (table empty_store t)) with 1 by (destruct t; reflexivity).
  destruct (Db.null_violation _ _); [discriminate | reflexivity].
Qed.

Lemma insert_collision st t values row c :
  Db.null_violation (schema t) (Db.new_row (schema t) 1 values) = None ->
  In c (Db.unique_columns (schema t)) ->
  In row (rows (table st t)) ->
  Db.sql_eqb (JS.get row (col_name c))
             (JS.get (Db.new_row (schema t) (next_id (table st t)) values) (col_name c)) = true ->
  exists c', In c' (Db.unique_columns (schema t))
    /\ Db.insert st t values
       = inl (DbError (Db.constraint_message "UNIQUE" (schema t) c')).
Proof.
  intros Hn Hc Hin He. unfold Db.insert.
  rewrite (null_violation_any_id t _ 1), Hn.
  destruct (Db.unique_violation _ _ _) as [c'|] eqn:Hu.
  - exists c'. split; [|reflexivity]. apply find_some in Hu. tauto.
  - exfalso. pose proof (find_none _ _ Hu c Hc) as Hf. cbv beta in Hf.
    assert (Db.holds (rows (table st t)) c
              (JS.get (Db.new_row (schema t) (next_id (table st t)) values)
                      (col_name c)) = true) as Hh
      by (apply existsb_exists; eauto).
    rewrite Hh in Hf. discriminate Hf.
Qed.

Ltac lockstep H :=
  cbv zeta in H |- *;
  repeat (
    lazymatch goal with
    | |- try_catch _ (bind (Next _) _) _ = _ => idtac
    | |- try_catch _ (bind (bind _ _) _) _ = _ => rewrite !bind_assoc in H |- *
    | |- try_catch _ (bind (if ?c then _ else _) _) _ = _ => destruct c eqn:?
    | |- try_catch _ (bind ?m _) _ = _ => destruct m eqn:?
    | |- try_catch _ (if ?c then _ else _) _ = _ => destruct c eqn:?
    end;
    cbn [bind] in H |- *; cbv zeta in H |- *;
    try (exfalso; cbn in H; discriminate H); try no_reply).


Lemma accepted_on_empty t values h (k : Exn -> Flow (Store * Response)) (status : Z) body :
  resp_status (snd (try_catch empty_store
     match Db.insert empty_store t values with
     | inl e => k e
     | inr (st', rs) => Next (st', json (body rs) status)
     end h)) = status ->
  (forall e, resp_status (snd (try_catch empty_store (k e) h)) <> status) ->
  Db.null_violation (schema t) (Db.new_row (schema t) 1 values) = None.
Proof.
  intros H Hk. destruct (Db.insert empty_store t values) as [e|out] eqn:E.
  - now apply Hk in H.
  - eapply insert_empty_accepted; eauto.
Qed.

Ltac split_ifs :=
  repeat match goal with
         | |- context [if ?c then _ else _] => destruct c eqn:?
         end.

Lemma order_duplicate env st req o row token :
  req_body req = Json (JObj o) ->
  In row (rows (orders st)) ->
  JS.get o "tokenNumber" = JStr token ->
  JS.get row "tokenNumber" = JStr (Str.trim token) ->
  resp_status (snd (OrdersRoute.POST env empty_store req)) = 201 ->
  OrdersRoute.POST env st req
  = (st, error_with_code "Token number already exists" "DUPLICATE_TOKEN_NUMBER" 400).
Proof.
  intros Hb Hin Ht Hrow H. unfold OrdersRoute.POST in *.
  unfold request_json in *. rewrite Hb in *. cbn [bind destructure] in H |- *.
  rewrite Ht in *.
  lockstep H.
  all: repeat match goal with E : trim_of (JStr _) = Next _ |- _ => injection E as <- end.
  all: apply accepted_on_empty in H;
    [ | intros e; destruct (_ && _); cbn; discriminate ].
  all: repeat match goal with
       | |- context [Db.insert _ _ (if ?c then _ else _)] => destruct c eqn:?
       end.
  all: match goal with
       | Hn : Db.null_violation _ _ = None, Hi : In ?r _, Hr : JS.get ?r _ = _
         |- context [Db.insert ?s Orders ?v] =>
           let Hc' := fresh "Hc" in
           destruct (insert_collision s Orders v r
                       (column "tokenNumber" "token_number" true true None) Hn)
             as [c' [Hc' ->]];
           [ simpl; auto | exact Hi
           | cbn; rewrite ?get_set; cbn; rewrite Hr; apply String.eqb_refl
           | destruct Hc' as [<-|[]]; reflexivity ]
       end.
Qed.

Ltac collide col :=
  split_ifs;
  match goal with
  | Hn : Db.null_violation _ _ = None, Hi : In ?r _, Hr : JS.get ?r _ = _
    |- context [Db.insert ?s ?t ?v] =>
      let Hc' := fresh "Hc" in
      destruct (insert_collision s t v r col Hn) as [c' [Hc' ->]];
      [ simpl; auto | exact Hi
      | cbn; rewrite ?get_set; cbn; rewrite Hr; apply String.eqb_refl
      | destruct Hc' as [<-|[]]; reflexivity ]
  end.

Lemma payment_duplicate env st req o row txn :
  req_body req = Json (JObj o) ->
  In row (rows (payments st)) ->
  JS.get o "transactionId" = JStr txn ->
  JS.get row "transactionId" = JStr (Str.trim txn) ->
  resp_status (snd (PaymentsRoute.POST env empty_store req)) = 201 ->
  PaymentsRoute.POST env st req
  = (st, error_with_code "Transaction ID already exists"
           "DUPLICATE_TRANSACTION_ID" 400).
Proof.
  intros Hb Hin Ht Hrow H. unfold PaymentsRoute.POST in *.
  unfold request_json in *. rewrite Hb in *. cbn [bind destructure] in H |- *.
  rewrite Ht in *.
  lockstep H.
  all: repeat match goal with E : trim_of (JStr _) = Next _ |- _ => injection E as <- end.
  all: apply accepted_on_empty in H;
    [ | intros e; destruct (_ && _); cbn; discriminate ].
  all: collide (column "transactionId" "transaction_id" true true None).
Qed.

Lemma reachable_emails_normal st : reachable st -> emails_normal st.
Proof.
  induction 1 as [|st t m env req _ IH].
  - intros r e [].
  - now apply emails_stay_normal.
Qed.

Lemma duplicate_email_not_created e :
  resp_status (CustomersRoute.duplicate_email_or_internal e) <> 201.
Proof.
  unfold CustomersRoute.duplicate_email_or_internal.
  destruct (Str.includes (message e) "UNIQUE" || Str.includes (message e) "unique");
    cbn; discriminate.
Qed.

Lemma customer_duplicate env st req o row e0 e :
  reachable st ->
  req_body req = Json (JObj o) ->
  In row (rows (customers st)) ->
  JS.get row "email" = JStr e0 ->
  JS.get o "email" = JStr e ->
  Str.toLowerCase e0 = Str.toLowerCase e ->
  resp_status (snd (CustomersRoute.POST env empty_store req)) = 201 ->
  CustomersRoute.POST env st req
  = (st, error_with_code "Email already exists" "DUPLICATE_EMAIL" 400).
Proof.
  intros Hr Hb Hin Hrow He Hci H.
  destruct (reachable_emails_normal st Hr row e0 Hin Hrow) as [Hlow Htrim].
  assert (Hn : JS.get row "email" = JStr (Str.toLowerCase (Str.trim e))).
  { rewrite Hrow. f_equal. now rewrite <- trim_lower, <- Hci, Hlow, Htrim. }
  clear Hrow. unfold CustomersRoute.POST in *.
  unfold request_json in *. rewrite Hb in *. cbn [bind destructure] in H |- *.
  rewrite He in *.
  lockstep H.
  all: apply accepted_on_empty in H;
    [ | intros x; apply duplicate_email_not_created ].
  all: collide (column "email" "email" true true None).
Qed.

(** ** Uniqueness of email, token number and transaction id (C2) *)

(** C2.  In every store the API can reach, a customer create request
    whose email equals, up to letter case, the email of a stored customer
    is answered 400 DUPLICATE_EMAIL and the store is unchanged; an order
    create request whose token number is that of a stored order is
    answered 400 DUPLICATE_TOKEN_NUMBER, and a payment create request whose
    transaction id is that of a stored payment 400
    DUPLICATE_TRANSACTION_ID, the store unchanged in both.  The request is
    one the endpoint accepts (201) on an empty database.  Every operation
    of every endpoint keeps the UNIQUE columns distinct. *)
Theorem uniqueness_is_enforced :
  (forall env st req o row e0 e,
      reachable st ->
      req_body req = Json (JObj o) ->
      In row (rows (customers st)) ->
      JS.get row "email" = JStr e0 ->
      JS.get o "email" = JStr e ->
      Str.toLowerCase e0 = Str.toLowerCase e ->
      resp_status (snd (CustomersRoute.POST env empty_store req)) = 201 ->
      CustomersRoute.POST env st req
      = (st, error_with_code "Email already exists" "DUPLICATE_EMAIL" 400))
  /\ (forall env st req o row token,
      req_body req = Json (JObj o) ->
      In row (rows (orders st)) ->
      JS.get o "tokenNumber" = JStr token ->
      JS.get row "tokenNumber" = JStr (Str.trim token) ->
      resp_status (snd (OrdersRoute.POST env empty_store req)) = 201 ->
      OrdersRoute.POST env st req
      = (st, error_with_code "Token number already exists"
               "DUPLICATE_TOKEN_NUMBER" 400))
  /\ (forall env st req o row txn,
      req_body req = Json (JObj o) ->
      In row (rows (payments st)) ->
      JS.get o "transactionId" = JStr txn ->
      JS.get row "transactionId" = JStr (Str.trim txn) ->
      resp_status (snd (PaymentsRoute.POST env empty_store req)) = 201 ->
      PaymentsRoute.POST env st req
      = (st, error_with_code "Transaction ID already exists"
               "DUPLICATE_TRANSACTION_ID" 400))
  /\ (forall t m env st req,
      unique_inv st -> unique_inv (fst (api t m env st req))).
Proof.
  split; [|split; [|split]].
  - intros. eapply customer_duplicate; eauto.
  - intros. eapply order_duplicate; eauto.
  - intros. eapply payment_duplicate; eauto.
  - intros. now apply uniqueness_preserved.
Qed.

Lemma uniqueness_is_enforced_witness :
  CustomersRoute.POST sample_env one_customer alice_again
  = (one_customer, error_with_code "Email already exists" "DUPLICATE_EMAIL" 400).
Proof.
  eapply (proj1 uniqueness_is_enforced).
  - exact (reach_step empty_store Customers POST sample_env alice reach_empty).
  - reflexivity.
  - left. reflexivity.
  - reflexivity.
  - reflexivity.
  - reflexivity.
  - reflexivity.
Defined.

(** ** Pagination (C6) *)

(** C6.  A list request (no [id] parameter) on any entity endpoint runs a
    query whose LIMIT is 100 when the supplied [limit] parses to a number
    greater than 100, and 10 when [limit] is omitted, and whose OFFSET is 0
    when [offset] is omitted. *)
Theorem list_pagination (t : TableId) (env : Env) (st : Store) (req : Request) :
  present (param req "id") = false ->
  exists q,
    api t GET env st req = try_catch st (list_reply env st q) internal_error
    /\ q_table q = t
    /\ (forall s n, param req "limit" = Some s -> Parse.parseInt s = Fin n ->
          (100 < n)%Q -> q_limit q = Num.of_Z 100)
    /\ (param req "limit" = None -> q_limit q = Num.of_Z 10)
    /\ (param req "offset" = None -> q_offset q = Num.of_Z 0).
Proof.
  intros Hid.
  assert (Hl : forall s n, param req "limit" = Some s -> Parse.parseInt s = Fin n ->
          (100 < n)%Q -> page_limit req = Num.of_Z 100).
  { intros s n Hs Hp Hn. unfold page_limit. rewrite Hs. simpl. rewrite Hp.
    unfold Num.min, Num.hundred, Num.of_Z, Num.leb.
    destruct (Qle_bool n (inject_Z 100)) eqn:E; [|reflexivity].
    apply Qle_bool_iff in E. exfalso. apply (Qlt_not_le _ _ Hn E). }
  assert (Hd : param req "limit" = None -> page_limit req = Num.of_Z 10).
  { intros Hs. unfold page_limit. rewrite Hs. reflexivity. }
  assert (Ho : param req "offset" = None -> page_offset req = Num.of_Z 0).
  { intros Hs. unfold page_offset. rewrite Hs. reflexivity. }
  destruct t; cbv [api];
  match goal with |- context [?h env st req] => unfold h end;
  rewrite Hid; eexists; (split; [reflexivity|]); simpl; auto.
Qed.

Lemma list_pagination_witness :
  exists q,
    api Orders GET sample_env empty_store (request [("limit", "500")] [])
    = try_catch empty_store (list_reply sample_env empty_store q) internal_error
    /\ q_table q = Orders
    /\ (forall s n, Some "500" = Some s -> Parse.parseInt s = Fin n ->
          (100 < n)%Q -> q_limit q = Num.of_Z 100)
    /\ (Some "500" = None -> q_limit q = Num.of_Z 10)
    /\ (None = None :> option string -> q_offset q = Num.of_Z 0).
Proof.
  apply (list_pagination Orders sample_env empty_store
           (request [("limit", "500")] [])).
  reflexivity.
Defined.

(** ** Updates of orders (C8, C9) *)

Lemma has_id_assign changes id r :
  JS.has changes "id" = false -> Db.has_id id (Db.assign changes r) = Db.has_id id r.
Proof. intros H. unfold Db.has_id. now rewrite get_assign, H. Qed.

Lemma filter_updated changes id rs :
  JS.has changes "id" = false ->
  filter (Db.has_id id)
    (map (fun r => if Db.has_id id r then Db.assign changes r else r) rs)
  = map (Db.assign changes) (filter (Db.has_id id) rs).
Proof.
  intros H. induction rs as [|x rs IH]; simpl; [reflexivity|].
  destruct (Db.has_id id x) eqn:E; simpl.
  - rewrite has_id_assign, E, IH by assumption. reflexivity.
  - now rewrite E.
Qed.

Lemma select_nonempty st t id :
  Db.select_by_id st t id <> [] ->
  exists r rest, filter (Db.has_id id) (rows (table st t)) = r :: rest
                 /\ Db.select_by_id st t id = [r].
Proof.
  unfold Db.select_by_id. destruct (filter _ _) as [|r rest]; simpl; [congruence|].
  intros _. exists r, rest. auto.
Qed.

(** An update that violates no constraint, on a row that exists. *)
Lemma update_applies st t changes id r rest :
  JS.no_keys changes = false ->
  filter (Db.has_id id) (rows (table st t)) = r :: rest ->
  Db.nulled_column (schema t) changes = None ->
  (forall rs, Db.collided_column (schema t) changes rs = None) ->
  Db.update st t changes id
  = inr (with_table st t
           {| rows := map (fun x => if Db.has_id id x then Db.assign changes x else x)
                          (rows (table st t));
              next_id := next_id (table st t) |},
         Db.assign changes r :: map (Db.assign changes) rest).
Proof.
  intros Hk Hf Hn Hc. unfold Db.update. rewrite Hk, Hf, Hn, Hc. reflexivity.
Qed.

Lemma blank_text s : Str.trim s <> "" -> blank (JStr s) = Next false.
Proof.
  intros H. unfold blank. destruct s as [|c s]; [now elim H|].
  cbn [JS.falsy JS.truthy Str.is_empty negb].
  unfold trims_to_empty. cbn [trim_of bind].
  destruct (Str.trim (String c s)); [now elim H | reflexivity].
Qed.

Lemma blank_spaces s : Str.trim s = "" -> blank (JStr s) = Next true.
Proof.
  intros H. unfold blank. destruct s as [|c s]; [reflexivity|].
  cbn [JS.falsy JS.truthy Str.is_empty negb].
  unfold trims_to_empty. cbn [trim_of bind]. now rewrite H.
Qed.

(** C8.  For every existing order and every string [s] that is not empty
    after trimming, an update request that sets [status] to [s] (and
    supplies no other field) is answered 200 with the updated order, whose
    stored status is the trimmed [s], whatever the status was before; a
    status that is empty or only white space is answered 400 and nothing
    is written. *)
Theorem order_status_is_free_text (env : Env) (st : Store) (req : Request)
  (o : Obj) (s : string) :
  invalid_id (param req "id") = false ->
  Db.select_by_id st Orders (id_of (param req "id")) <> [] ->
  req_body req = Json (JObj o) ->
  JS.get o "status" = JStr s ->
  (Str.trim s <> "" ->
   (forall k, In k ["customerId"; "deliveryMode"; "paymentStatus";
                    "estimatedReadyTime"; "discount"; "finalAmount"] ->
              JS.get o k = JUndefined) ->
   exists st' row,
     OrdersRoute.PUT env st req = (st', json (JObj row) 200)
     /\ JS.get row "status" = JStr (Str.trim s)
     /\ Db.select_by_id st' Orders (id_of (param req "id")) = [row])
  /\ (Str.trim s = "" ->
      fst (OrdersRoute.PUT env st req) = st
      /\ resp_status (snd (OrdersRoute.PUT env st req)) = 400).
Proof.
  intros Hid Hex Hb Hs. split.
  - intros Ht Hk.
    destruct (select_nonempty _ _ _ Hex) as [r [rest [Hf Hsel]]].
    unfold OrdersRoute.PUT, request_json. rewrite Hid, Hb, Hsel. cbn [bind destructure is_nil].
    rewrite Hs.
    rewrite !Hk by (simpl; tauto). cbn [JS.is_undefined negb bind].
    rewrite (blank_text s Ht). cbn [bind trim_of].
    erewrite update_applies; [ | reflexivity | exact Hf | reflexivity | reflexivity ].
    cbn [try_catch first_row].
    eexists _, _. split; [reflexivity|]. split.
    + rewrite get_assign. reflexivity.
    + unfold Db.select_by_id. rewrite table_with_same. cbn [rows].
      rewrite filter_updated by reflexivity. rewrite Hf. reflexivity.
  - intros Ht.
    destruct (select_nonempty _ _ _ Hex) as [r [rest [Hf Hsel]]].
    unfold OrdersRoute.PUT, request_json. rewrite Hid, Hb, Hsel. cbn [bind destructure is_nil].
    rewrite Hs. cbn [JS.is_undefined negb].
    rewrite (blank_spaces s Ht). cbn [bind].
    destruct (negb (JS.is_undefined (JS.get o "customerId"))); [|split; reflexivity].
    destruct (_ && _); split; reflexivity.
Qed.

Lemma order_status_is_free_text_witness :
  (exists st' row,
     OrdersRoute.PUT sample_env one_order (set_status "  Banana ")
     = (st', json (JObj row) 200)
     /\ JS.get row "status" = JStr "Banana"
     /\ Db.select_by_id st' Orders (Num.of_Z 1) = [row])
  /\ fst (OrdersRoute.PUT sample_env one_order (set_status nbsp)) = one_order
  /\ resp_status (snd (OrdersRoute.PUT sample_env one_order (set_status nbsp)))
     = 400.
Proof.
  split.
  - apply (proj1 (order_status_is_free_text sample_env one_order
                    (set_status "  Banana ") [("status", JStr "  Banana ")]
                    "  Banana " eq_refl ltac:(discriminate) eq_refl eq_refl)).
    + discriminate.
    + intros k Hk. simpl in Hk.
      repeat (destruct Hk as [<-|Hk]; [reflexivity|]). destruct Hk.
  - apply (proj2 (order_status_is_free_text sample_env one_order
                    (set_status nbsp) [("status", JStr nbsp)]
                    nbsp eq_refl ltac:(discriminate) eq_refl eq_refl)).
    reflexivity.
Defined.


Lemma body_fields_destructured req v o :
  request_json req = Next v -> destructure v = Next o -> body_fields req = o.
Proof.
  unfold request_json, body_fields. destruct (req_body req); [|discriminate].
  intros [= ->]. destruct v; simpl; congruence.
Qed.

Lemma Forall2_map_r {A B} (P : A -> B -> Prop) (f : A -> B) l :
  (forall x, P x (f x)) -> Forall2 P l (map f l).
Proof. intros H. induction l; simpl; constructor; auto. Qed.

Ltac absent_key k :=
  repeat match goal with
         | |- context [String.eqb k ?x] =>
             destruct (String.eqb_spec k x) as [->|?]
         end;
  cbn [orb];
  try reflexivity; try congruence;
  try match goal with
      | H : JS.get ?o ?x = JUndefined, E : negb (JS.is_undefined (JS.get ?o ?x)) = true |- _ =>
          rewrite H in E; discriminate E
      end.

Ltac order_frame_leaf st :=
  let Hstatus := fresh "Hstatus" in
  intros Hstatus;
  first
    [ discriminate Hstatus
    | repeat match goal with
             | E : context [if ?c then _ else _] |- _ => destruct c eqn:?
             end;
      match goal with
      | E : Db.update st Orders _ _ = inr (?s, _),
        Ej : request_json _ = Next _, Ed : destructure _ = Next _ |- _ =>
          simpl JS.set in E;
          pose proof (body_fields_destructured _ _ _ Ej Ed) as Hbody;
          pose proof (update_rows _ _ _ _ _ _ E) as [Hrows _];
          split; [ intros t Ht; exact (frame_update _ _ _ _ _ _ t E Ht) | ];
          split;
          [ unfold Db.update in E;
            destruct (JS.no_keys _); [discriminate E|];
            destruct (filter _ _); [injection E as <- <-; reflexivity|];
            destruct (Db.nulled_column _ _); [discriminate E|];
            destruct (Db.collided_column _ _ _); [discriminate E|];
            injection E as <- <-; reflexivity
          | change (rows (orders s)) with (rows (table s Orders));
            rewrite Hrows; apply Forall2_map_r; intros r;
            unfold order_row_frame; cbv beta;
            destruct (Db.has_id _ r); [|reflexivity];
            rewrite !get_assign; rewrite Hbody;
            repeat split; try reflexivity;
            intros k Hk Habs; rewrite get_assign; cbn [JS.has existsb fst];
            absent_key k ]
      end ].

(** C9.  After every order update answered 200, the other tables and the
    id counter are as before, the orders with another id are as before,
    and in the updated order [tokenNumber], [subtotal], [createdAt] and
    [id] are unchanged, every field that the body does not supply is
    unchanged except [updatedAt], and [updatedAt] is the current time. *)
Theorem order_update_frame (env : Env) (st : Store) (req : Request)
  (st' : Store) (resp : Response) :
  OrdersRoute.PUT env st req = (st', resp) ->
  resp_status resp = 200 ->
  (forall t, t <> Orders -> table st' t = table st t)
  /\ next_id (orders st') = next_id (orders st)
  /\ Forall2 (order_row_frame env req) (rows (orders st)) (rows (orders st')).
Proof.
  intros H Hok.
  pose (R := fun out : Store * Response =>
    resp_status (snd out) = 200 ->
    (forall t, t <> Orders -> table (fst out) t = table st t)
    /\ next_id (orders (fst out)) = next_id (orders st)
    /\ Forall2 (order_row_frame env req) (rows (orders st))
                (rows (orders (fst out)))).
  assert (G : R (OrdersRoute.PUT env st req)).
  { unfold OrdersRoute.PUT. apply (sat_try_catch R); subst R; cbv beta.
    - paths ltac:(order_frame_leaf st).
    - intros e. cbn. discriminate. }
  rewrite H in G. exact (G Hok).
Qed.

Lemma order_update_frame_witness :
  let req := set_status "Ready" in
  let out := OrdersRoute.PUT sample_env one_order req in
  (forall t, t <> Orders -> table (fst out) t = table one_order t)
  /\ next_id (orders (fst out)) = next_id (orders one_order)
  /\ Forall2 (order_row_frame sample_env req) (rows (orders one_order))
             (rows (orders (fst out))).
Proof.
  intros req out.
  apply (order_update_frame sample_env one_order req (fst out) (snd out)).
  - apply surjective_pairing.
  - reflexivity.
Defined.


(** ** Updates that supply no field (C10) *)

(** C10.  For an existing payment, an update whose body supplies no
    [orderId] and whose [paymentMode] and [paymentStatus] are absent or
    null is answered 400 NO_UPDATE_FIELDS and the store is unchanged; for
    an existing customer, an update whose body supplies none of the six
    customer fields is answered 200 with the stored record, the store
    unchanged. *)
Theorem update_without_fields :
  (forall env st req o,
      invalid_id (param req "id") = false ->
      Db.select_by_id st Payments (id_of (param req "id")) <> [] ->
      req_body req = Json (JObj o) ->
      JS.get o "orderId" = JUndefined ->
      JS.is_nullish (JS.get o "paymentMode") = true ->
      JS.is_nullish (JS.get o "paymentStatus") = true ->
      PaymentsRoute.PUT env st req
      = (st, error_with_code "No valid fields to update" "NO_UPDATE_FIELDS" 400))
  /\ (forall env st req o existing rest,
      invalid_id (param req "id") = false ->
      Db.select_by_id st Customers (id_of (param req "id")) = existing :: rest ->
      req_body req = Json (JObj o) ->
      (forall k, In k ["name"; "email"; "phone"; "address"; "latitude";
                       "longitude"] -> JS.get o k = JUndefined) ->
      CustomersRoute.PUT env st req = (st, json (JObj existing) 200)).
Proof.
  split.
  - intros env st req o Hid Hex Hb Ho Hm Hs.
    unfold PaymentsRoute.PUT, request_json. rewrite Hid, Hb.
    cbn [bind destructure]. rewrite Ho.
    destruct (Db.select_by_id st Payments _); [congruence|].
    cbn [is_nil JS.is_undefined negb bind].
    unfold JS.is_nullish in Hm, Hs.
    destruct (JS.is_undefined (JS.get o "paymentMode")) eqn:E1;
      destruct (JS.is_null (JS.get o "paymentMode")) eqn:E2; try discriminate;
      destruct (JS.is_undefined (JS.get o "paymentStatus")) eqn:E3;
      destruct (JS.is_null (JS.get o "paymentStatus")) eqn:E4; try discriminate;
      reflexivity.
  - intros env st req o existing rest Hid Hex Hb Hk.
    unfold CustomersRoute.PUT, request_json. rewrite Hid, Hex, Hb.
    cbn [bind destructure is_nil].
    rewrite !Hk by (simpl; tauto). reflexivity.
Qed.

Lemma update_without_fields_witness :
  PaymentsRoute.PUT sample_env paid_before (request [("id", "1")] [])
  = (paid_before,
     error_with_code "No valid fields to update" "NO_UPDATE_FIELDS" 400).
Proof.
  apply (proj1 update_without_fields sample_env paid_before
           (request [("id", "1")] []) []);
    solve [reflexivity | discriminate].
Defined.


(** ** Range checks on numbers (C5) *)

Lemma rejects_try_catch st body h :
  flow_rejects (fun r => resp_status r = 400) body ->
  fst (try_catch st body h) = st /\ resp_status (snd (try_catch st body h)) = 400.
Proof. destruct body; simpl; intuition. Qed.

Lemma supplies_object req k v :
  supplies req k v -> v <> JUndefined ->
  exists o, req_body req = Json (JObj o) /\ body_fields req = o.
Proof.
  unfold supplies, body_fields. destruct (req_body req) as [[]|]; simpl; try congruence.
  eauto.
Qed.

Lemma le_zero_number q : (q <= 0)%Q -> le_zero (JNum (Fin q)) = true.
Proof. intros H. unfold le_zero. simpl. now apply Qle_bool_iff. Qed.

Lemma bad_percent_number q :
  (q < 0 \/ 100 < q)%Q -> OffersRoute.bad_percent (Fin q) = true.
Proof.
  intros [H|H]; unfold OffersRoute.bad_percent; simpl.
  - destruct (Qle_bool (inject_Z 0) q) eqn:E; [|reflexivity].
    apply Qle_bool_iff in E. exfalso. exact (Qlt_not_le _ _ H E).
  - destruct (Qle_bool q (inject_Z 100)) eqn:E; [|apply orb_true_r].
    apply Qle_bool_iff in E. exfalso. exact (Qlt_not_le _ _ H E).
Qed.

Ltac use_fields :=
  repeat match goal with
         | E : JS.get ?o ?k = _ |- context [JS.get ?o ?k] => rewrite E
         end.

Ltac reject_step :=
  lazymatch goal with
  | |- flow_rejects _ (bind (Next _) _) => cbn [bind]
  | |- flow_rejects _ (bind (Reply _) _) => cbn [bind]
  | |- flow_rejects _ (bind (bind _ _) _) => rewrite bind_assoc
  | |- flow_rejects _ (bind (blank _) _) => unfold blank at 1
  | |- flow_rejects _ (bind (trims_to_empty _) _) => unfold trims_to_empty at 1
  | |- flow_rejects _ (bind (trimmed_or_null _) _) =>
      unfold trimmed_or_null at 1
  | |- flow_rejects _ (bind (if ?c then _ else _) _) => destruct c eqn:?
  | |- flow_rejects _ (if ?c then _ else _) => destruct c eqn:?
  | |- flow_rejects _ (Reply _) => reflexivity
  end.

Ltac reduce_flow :=
  cbv zeta;
  cbn [bind blank trims_to_empty trim_of trimmed_or_null destructure
       JS.falsy JS.truthy JS.is_string JS.is_undefined JS.is_null JS.is_nullish
       JS.is_number JS.parseFloat negb orb andb Str.is_empty is_nil].

Ltac simplify_flow facts := reduce_flow; use_fields; reduce_flow; facts; reduce_flow.

Ltac rejects facts := simplify_flow facts; repeat (reject_step; simplify_flow facts).

(** Open the request: the body is an object and the named text fields
    are strings or absent. *)
Ltac open_body Hsup :=
  let o := fresh "o" in let Hb := fresh "Hb" in let Ho := fresh "Ho" in
  destruct (supplies_object _ _ _ Hsup ltac:(discriminate)) as [o [Hb Ho]];
  unfold supplies, text_or_absent in *; rewrite Ho in *.

Ltac text_cases :=
  repeat match goal with
         | H : JS.is_string (JS.get ?o ?k) || JS.is_undefined (JS.get ?o ?k) = true |- _ =>
             let E := fresh "E" in
             destruct (JS.get o k) eqn:E; try discriminate H; clear H
         end.

Ltac reject_with facts :=
  unfold rejected; 
  lazymatch goal with |- fst (?h _ _ _) = _ /\ _ => unfold h end;
  apply rejects_try_catch;
  unfold request_json;
  repeat match goal with Hb : req_body _ = _ |- _ => rewrite Hb; clear Hb end;
  rejects facts.

Lemma offers_POST_rejects env st req q :
  supplies req "discountPercent" (JNum (Fin q)) -> (q < 0 \/ 100 < q)%Q ->
  text_or_absent req "title" ->
  rejected OffersRoute.POST env st req.
Proof.
  intros Hsup Hq Ht. open_body Hsup. text_cases.
  all: reject_with ltac:(rewrite ?(bad_percent_number q Hq)).
Qed.

Lemma addressed_rows t st req :
  addressed t st req -> is_nil (Db.select_by_id st t (id_of (param req "id"))) = false.
Proof. unfold addressed. destruct (Db.select_by_id _ _ _); [congruence|reflexivity]. Qed.

Lemma offers_PUT_rejects env st req q :
  supplies req "discountPercent" (JNum (Fin q)) -> (q < 0 \/ 100 < q)%Q ->
  text_or_absent req "title" -> text_or_absent req "description" ->
  addressed Offers st req ->
  rejected OffersRoute.PUT env st req.
Proof.
  intros Hsup Hq Ht Hd Ha. apply addressed_rows in Ha. open_body Hsup. text_cases.
  all: reject_with ltac:(rewrite ?Ha, ?(bad_percent_number q Hq)).
Qed.

Lemma orders_POST_rejects env st req q :
  supplies req "finalAmount" (JNum (Fin q)) -> (q <= 0)%Q ->
  text_or_absent req "tokenNumber" ->
  rejected OrdersRoute.POST env st req.
Proof.
  intros Hsup Hq Ht. open_body Hsup. text_cases.
  all: reject_with ltac:(rewrite ?(le_zero_number q Hq), ?orb_true_r).
Qed.

Lemma orders_PUT_rejects env st req q :
  supplies req "finalAmount" (JNum (Fin q)) -> (q <= 0)%Q ->
  text_or_absent req "status" -> text_or_absent req "deliveryMode" ->
  text_or_absent req "paymentStatus" ->
  addressed Orders st req ->
  rejected OrdersRoute.PUT env st req.
Proof.
  intros Hsup Hq Ht Hd Hp Ha. apply addressed_rows in Ha. open_body Hsup. text_cases.
  all: reject_with ltac:(rewrite ?Ha, ?(le_zero_number q Hq), ?orb_true_r).
Qed.

Lemma menu_items_POST_rejects env st req q :
  supplies req "price" (JNum (Fin q)) -> (q <= 0)%Q ->
  rejected MenuItemsRoute.POST env st req.
Proof.
  intros Hsup Hq. open_body Hsup.
  reject_with ltac:(unfold MenuItemsRoute.bad_price, MenuItemsRoute.parsed_price;
                    cbn [JS.is_string];
                    rewrite ?(le_zero_number q Hq), ?orb_true_r).
Qed.

Lemma menu_items_PUT_rejects env st req q :
  supplies req "price" (JNum (Fin q)) -> (q <= 0)%Q ->
  addressed MenuItems st req ->
  rejected MenuItemsRoute.PUT env st req.
Proof.
  intros Hsup Hq Ha. apply addressed_rows in Ha. open_body Hsup.
  reject_with ltac:(unfold MenuItemsRoute.bad_price, MenuItemsRoute.parsed_price;
                    cbn [JS.is_string];
                    rewrite ?Ha, ?(le_zero_number q Hq), ?orb_true_r).
Qed.

Lemma order_items_POST_rejects env st req q :
  supplies req "price" (JNum (Fin q)) -> (q <= 0)%Q ->
  rejected OrderItemsRoute.POST env st req.
Proof.
  intros Hsup Hq. open_body Hsup.
  reject_with ltac:(rewrite ?(le_zero_number q Hq), ?orb_true_r).
Qed.

Lemma order_items_PUT_rejects env st req q :
  supplies req "price" (JNum (Fin q)) -> (q <= 0)%Q ->
  addressed OrderItems st req ->
  rejected OrderItemsRoute.PUT env st req.
Proof.
  intros Hsup Hq Ha. apply addressed_rows in Ha. open_body Hsup.
  reject_with ltac:(rewrite ?Ha, ?(le_zero_number q Hq), ?orb_true_r).
Qed.

Lemma payments_POST_rejects env st req q :
  supplies req "amountPaid" (JNum (Fin q)) -> (q <= 0)%Q ->
  text_or_absent req "transactionId" -> text_or_absent req "paymentMode" ->
  rejected PaymentsRoute.POST env st req.
Proof.
  intros Hsup Hq Ht Hm. open_body Hsup. text_cases.
  all: reject_with ltac:(rewrite ?(le_zero_number q Hq), ?orb_true_r).
Qed.

(** C5 (amended).  A request is answered 400 and writes nothing when it
    carries: a [discountPercent] below 0 or above 100, on offer create and
    on update of an existing offer; a [finalAmount] at most 0, on order
    create and on update of an existing order; a [price] at most 0, on
    menu-item and order-item create and on update of an existing one; an
    [amountPaid] at most 0, on payment create.  The text fields that the
    handler reads before the number ([title], [description];
    [tokenNumber]; [status], [deliveryMode], [paymentStatus];
    [transactionId], [paymentMode]) are strings or absent. *)
Theorem out_of_range_numbers_are_rejected (env : Env) (st : Store)
  (req : Request) (q : Q) :
  (supplies req "discountPercent" (JNum (Fin q)) -> (q < 0 \/ 100 < q)%Q ->
   (text_or_absent req "title" -> rejected OffersRoute.POST env st req)
   /\ (text_or_absent req "title" -> text_or_absent req "description" ->
       addressed Offers st req -> rejected OffersRoute.PUT env st req))
  /\ (supplies req "finalAmount" (JNum (Fin q)) -> (q <= 0)%Q ->
      (text_or_absent req "tokenNumber" ->
       rejected OrdersRoute.POST env st req)
      /\ (text_or_absent req "status" -> text_or_absent req "deliveryMode" ->
          text_or_absent req "paymentStatus" -> addressed Orders st req ->
          rejected OrdersRoute.PUT env st req))
  /\ (supplies req "price" (JNum (Fin q)) -> (q <= 0)%Q ->
      rejected MenuItemsRoute.POST env st req
      /\ (addressed MenuItems st req -> rejected MenuItemsRoute.PUT env st req)
      /\ rejected OrderItemsRoute.POST env st req
      /\ (addressed OrderItems st req ->
          rejected OrderItemsRoute.PUT env st req))
  /\ (supplies req "amountPaid" (JNum (Fin q)) -> (q <= 0)%Q ->
      text_or_absent req "transactionId" -> text_or_absent req "paymentMode" ->
      rejected PaymentsRoute.POST env st req).
Proof.
  split; [|split; [|split]].
  - intros Hs Hq. split; intros.
    + now apply (offers_POST_rejects env st req q).
    + now apply (offers_PUT_rejects env st req q).
  - intros Hs Hq. split; intros.
    + now apply (orders_POST_rejects env st req q).
    + now apply (orders_PUT_rejects env st req q).
  - intros Hs Hq. split; [|split; [|split]]; intros.
    + now apply (menu_items_POST_rejects env st req q).
    + now apply (menu_items_PUT_rejects env st req q).
    + now apply (order_items_POST_rejects env st req q).
    + now apply (order_items_PUT_rejects env st req q).
  - intros. now apply (payments_POST_rejects env st req q).
Qed.

Lemma out_of_range_numbers_are_rejected_witness :
  rejected OffersRoute.POST sample_env empty_store big_discount.
Proof.
  apply (proj1 (proj1 (out_of_range_numbers_are_rejected sample_env
                         empty_store big_discount (inject_Z 150))
                  eq_refl (or_intror eq_refl))).
  reflexivity.
Defined.


(** C5 as stated fails: an update that carries [discountPercent] 150 for an
    id that resolves to no offer is answered 404, not 400. *)
Lemma offer_update_of_missing_offer :
  ~ (forall env st req q,
       supplies req "discountPercent" (JNum (Fin q)) ->
       (q < 0 \/ 100 < q)%Q ->
       resp_status (snd (OffersRoute.PUT env st req)) = 400).
Proof.
  intros H.
  specialize (H sample_env empty_store
                (request [("id", "7")] [("discountPercent", JS.num 150)])
                (inject_Z 150) eq_refl (or_intror eq_refl)).
  discriminate H.
Qed.

(** ** Records that do not exist (C7) *)

Lemma answers_try_catch (P : Response -> Prop) st body h :
  flow_rejects P body ->
  fst (try_catch st body h) = st /\ P (snd (try_catch st body h)).
Proof. destruct body; simpl; intuition. Qed.

Ltac answer_step leaf :=
  lazymatch goal with
  | |- flow_rejects _ (Reply _) => leaf
  | _ => reject_step
  end.

Ltac answers leaf :=
  simplify_flow idtac; repeat (answer_step leaf; simplify_flow idtac).

Ltac not_found_leaf :=
  cbn; unfold not_found, structured; cbn; split; [reflexivity | eauto].

Lemma invalid_present p : invalid_id p = false -> present p = true.
Proof.
  destruct p as [s|]; simpl; [|discriminate].
  destruct (Str.is_empty s); [discriminate | reflexivity].
Qed.

Lemma missing_record_is_404 t m env st req o :
  t <> Offers -> m <> POST ->
  invalid_id (param req "id") = false ->
  Db.select_by_id st t (id_of (param req "id")) = [] ->
  req_body req = Json (JObj o) ->
  fst (api t m env st req) = st /\ not_found (snd (api t m env st req)).
Proof.
  intros Ht Hm Hid Hsel Hb. pose proof (invalid_present _ Hid) as Hp.
  destruct t; try congruence; destruct m; try congruence; cbv [api];
  match goal with |- fst (?h _ _ _) = _ /\ _ => unfold h end;
  apply answers_try_catch; unfold request_json;
  rewrite ?Hb, ?Hid, ?Hp, ?Hsel;
  answers not_found_leaf.
Qed.

(** C7, at the input where the code departs from it: a get-by-id of an
    offer that does not exist is answered 404 with [{error}] alone, no
    not-found code, while the seven other endpoints attach one
    ([missing_record_is_404]). *)
Lemma offer_not_found_has_no_code :
  let out := OffersRoute.GET sample_env empty_store (request [("id", "1")] []) in
  resp_status (snd out) = 404
  /\ resp_body (snd out) = JObj [("error", JStr "Offer not found")]
  /\ field (resp_body (snd out)) "code" = JUndefined
  /\ ~ structured (snd out).
Proof.
  cbn. repeat split. intros [msg [code H]]. discriminate H.
Qed.

(** ** The checkout flow (C1, C3) *)


(** C1, at the input where the code departs from it: the payment request
    of a checkout is answered 400 DUPLICATE_TRANSACTION_ID, no payment is
    stored, and the flow still clears the stored cart and reports
    success; the response of the payment request is never looked at. *)
Lemma payment_failure_clears_cart :
  let f := sample_form in
  let r := sample_readings in
  let created := create_order sample_env r f paid_before in
  let order := resp_body (snd created) in
  let st2 := create_items sample_env (fst created) order (cart f) in
  let payment := create_payment sample_env r f st2 order in
  let out := handleCheckout sample_env r f paid_before sample_browser in
  snd payment = error_with_code "Transaction ID already exists"
                  "DUPLICATE_TRANSACTION_ID" 400
  /\ rows (payments (fst out)) = rows (payments paid_before)
  /\ stored_cart (snd out) = None
  /\ toasts (snd out) = [ToastSuccess "Order placed! Token: TKN800123007"].
Proof. vm_compute. repeat split. Qed.

Lemma guards_pass f :
  cart f <> [] ->
  (customer f <> None \/ (guestName f <> "" /\ guestPhone f <> "")) ->
  is_nil (cart f) = false
  /\ (match customer f with Some _ => false | None => true end
      && (Str.is_empty (guestName f) || Str.is_empty (guestPhone f))) = false.
Proof.
  intros Hc Hi. split.
  - destruct (cart f); [congruence | reflexivity].
  - destruct (customer f); [reflexivity|]. simpl.
    destruct Hi as [Hi|[Hn Hp]]; [congruence|].
    destruct (guestName f); [congruence|]. destruct (guestPhone f); [congruence|].
    reflexivity.
Qed.

Lemma order_failure_keeps_cart env r f st b :
  cart f <> [] ->
  (customer f <> None \/ (guestName f <> "" /\ guestPhone f <> "")) ->
  ok (snd (create_order env r f st)) = false ->
  let out := handleCheckout env r f st b in
  stored_cart (snd out) = stored_cart b
  /\ toasts (snd out)
     = (toasts b ++ [ToastError "Failed to place order. Please try again."])%list.
Proof.
  intros Hc Hi Hok. destruct (guards_pass f Hc Hi) as [G1 G2].
  unfold handleCheckout. rewrite G1, G2.
  destruct (create_order env r f st) as [st1 resp].
  simpl in Hok. rewrite Hok. simpl. auto.
Qed.

Lemma cart_cleared_once_order_created env r f st b :
  cart f <> [] ->
  (customer f <> None \/ (guestName f <> "" /\ guestPhone f <> "")) ->
  ok (snd (create_order env r f st)) = true ->
  let out := handleCheckout env r f st b in
  stored_cart (snd out) = None
  /\ toasts (snd out)
     = (toasts b ++ [ToastSuccess ("Order placed! Token: " ++ generateTokenNumber r)])%list.
Proof.
  intros Hc Hi Hok. destruct (guards_pass f Hc Hi) as [G1 G2].
  unfold handleCheckout. rewrite G1, G2.
  destruct (create_order env r f st) as [st1 resp].
  simpl in Hok. rewrite Hok. simpl.
  destruct (create_payment _ _ _ _ _). simpl. auto.
Qed.

Lemma bound_or_else v d x :
  match or_else v (JStr d) with
  | JUndefined => x
  | w => w
  end = or_else v (JStr d).
Proof. unfold or_else. destruct v as [| |[]|[| |q|]|s| |]; simpl; try reflexivity.
  - destruct (Qeq_bool q 0); reflexivity.
  - destruct (Str.is_empty s); reflexivity.
Qed.

Lemma trim_of_Next v t : trim_of v = Next t -> exists s, v = JStr s /\ t = Str.trim s.
Proof. destruct v; simpl; try discriminate. intros [= <-]. eauto. Qed.

Ltac created_leaf st :=
  let Hstatus := fresh "Hstatus" in
  intros Hstatus;
  first
    [ discriminate Hstatus
    | repeat match goal with
             | E : context [if ?c then _ else _] |- _ => destruct c eqn:?
             end;
      match goal with
      | E : Db.insert st ?t _ = inr (?s, _),
        Ej : request_json _ = Next _, Ed : destructure _ = Next _ |- _ =>
          pose proof (body_fields_destructured _ _ _ Ej Ed) as Hbody;
          pose proof (insert_rows _ _ _ _ _ E) as [Hrows ->];
          eexists; split; [reflexivity|];
          split; [exact Hrows|];
          split; [intros t' Ht'; exact (frame_insert _ _ _ _ _ t' E Ht')|]
      end ].

Lemma orders_POST_created env st req :
  ok (snd (OrdersRoute.POST env st req)) = true ->
  order_created st req (OrdersRoute.POST env st req).
Proof.
  unfold OrdersRoute.POST.
  apply (sat_try_catch (fun out => ok (snd out) = true -> order_created st req out)).
  - paths ltac:(created_leaf st).
    all: rewrite Hbody; cbn; rewrite ?get_set; cbn;
      unfold Db.bound_value; cbn; rewrite !bound_or_else; auto.
  - intros e. cbn. discriminate.
Qed.

Ltac payment_leaf st :=
  let Hstatus := fresh "Hstatus" in
  intros Hstatus;
  first
    [ discriminate Hstatus
    | repeat match goal with
             | E : context [if ?c then _ else _] |- _ => destruct c eqn:?
             end;
      match goal with
      | E : Db.insert st ?t _ = inr (?s, _),
        Ej : request_json _ = Next _, Ed : destructure _ = Next _,
        Et : trim_of (JS.get _ "paymentStatus") = Next _ |- _ =>
          pose proof (body_fields_destructured _ _ _ Ej Ed) as Hbody;
          pose proof (insert_rows _ _ _ _ _ E) as [Hrows ->];
          destruct (trim_of_Next _ _ Et) as [status [Hfield ->]];
          eexists; exists status; split; [reflexivity|];
          split; [exact Hrows|];
          split; [intros t' Ht'; exact (frame_insert _ _ _ _ _ t' E Ht')|]
      end ].

Lemma payments_POST_created env st req :
  ok (snd (PaymentsRoute.POST env st req)) = true ->
  payment_created st req (PaymentsRoute.POST env st req).
Proof.
  unfold PaymentsRoute.POST.
  apply (sat_try_catch (fun out => ok (snd out) = true -> payment_created st req out)).
  - paths ltac:(payment_leaf st).
    all: rewrite Hbody; split; [exact Hfield|].
    all: cbn; rewrite ?get_set; cbn; unfold Db.bound_value; cbn.
    all: split; [reflexivity|].
    all: match goal with
         | H : JS.is_nullish ?v = false |- context [match ?v with _ => _ end] =>
             destruct v; try discriminate H; reflexivity
         end.
  - intros e. cbn. discriminate.
Qed.

Lemma serve_items_frame env requests st t :
  t <> OrderItems -> table (serve_items env st requests) t = table st t.
Proof.
  intros Ht. unfold serve_items. revert st.
  induction requests as [|req requests IH]; intros st; simpl; [reflexivity|].
  rewrite IH. exact (other_tables_untouched OrderItems POST env st _ t Ht).
Qed.

Lemma create_items_frame env order c st t :
  t <> OrderItems -> table (create_items env st order c) t = table st t.
Proof. intros Ht. unfold create_items. now apply serve_items_frame. Qed.

Lemma order_body_fields f r :
  JS.get (body_fields (post (order_body f r))) "status" = JStr "Order Received"
  /\ JS.get (body_fields (post (order_body f r))) "paymentStatus"
     = JStr (if String.eqb (paymentMode f) "Cash" then "Pending" else "Paid").
Proof.
  unfold post, body_fields, order_body, stringify. simpl req_body.
  destruct (customer f) as [[[] ? ? ? ?]|]; cbn; auto.
Qed.

Lemma payment_body_fields f r order :
  JS.get (body_fields (post (payment_body f r order))) "paymentStatus"
  = JStr (if String.eqb (paymentMode f) "Cash" then "Pending" else "Completed")
  /\ JS.get (body_fields (post (payment_body f r order))) "amountPaid"
     = JNum (Fin (finalAmount (cart f))).
Proof.
  unfold post, body_fields, payment_body, stringify. simpl req_body.
  cbn [filter snd].
  destruct (negb (JS.is_undefined (order_id order))); cbn; auto.
Qed.

(** C3.  In every checkout with a non-empty cart and the customer's
    details present, when the order request is accepted the order row it
    creates has status "Order Received" and paymentStatus "Pending" for
    payment mode "Cash" and "Paid" otherwise; when the payment request is
    accepted the payment row it creates has paymentStatus "Pending" for
    "Cash" and "Completed" otherwise, and amountPaid equal to the final
    amount computed from the cart. *)
Theorem checkout_seeds_order_and_payment (env : Env) (r : Readings)
  (f : Form) (st : Store) (b : Browser) :
  cart f <> [] ->
  (customer f <> None \/ (guestName f <> "" /\ guestPhone f <> "")) ->
  let cash := String.eqb (paymentMode f) "Cash" in
  let created := create_order env r f st in
  let order := resp_body (snd created) in
  let paid :=
    create_payment env r f
      (create_items env (fst created) order (cart f)) order in
  ok (snd created) = true ->
  fst (handleCheckout env r f st b) = fst paid
  /\ (exists orow,
        order = JObj orow
        /\ rows (orders (fst paid)) = (rows (orders st) ++ [orow])%list
        /\ JS.get orow "status" = JStr "Order Received"
        /\ JS.get orow "paymentStatus"
           = JStr (if cash then "Pending" else "Paid"))
  /\ (ok (snd paid) = true ->
      exists prow,
        rows (payments (fst paid)) = (rows (payments st) ++ [prow])%list
        /\ JS.get prow "paymentStatus"
           = JStr (if cash then "Pending" else "Completed")
        /\ JS.get prow "amountPaid" = JNum (Fin (finalAmount (cart f)))).
Proof.
  intros Hc Hi cash created order paid Hok.
  destruct (guards_pass f Hc Hi) as [G1 G2].
  pose proof (orders_POST_created env st (post (order_body f r)) Hok)
    as [orow [Hresp [Hrows [Hframe [Hst Hps]]]]].
  fold (create_order env r f st) in Hresp, Hrows, Hframe. fold created in Hresp, Hrows, Hframe.
  destruct (order_body_fields f r) as [Fs Fp]. rewrite Fs in Hst. rewrite Fp in Hps.
  assert (Horder : order = JObj orow) by (unfold order; now rewrite Hresp).
  split; [|split].
  - unfold handleCheckout. rewrite G1, G2. fold created.
    destruct created as [st1 resp] eqn:Ec. simpl in Hok. rewrite Hok. simpl.
    subst paid order. simpl.
    destruct (create_payment env r f _ _). reflexivity.
  - exists orow. split; [exact Horder|]. split; [|split].
    + subst paid. unfold create_payment.
      change (orders ?s) with (table s Orders).
      rewrite (other_tables_untouched Payments POST) by discriminate.
      rewrite create_items_frame by discriminate. exact Hrows.
    + rewrite Hst. reflexivity.
    + rewrite Hps. fold cash. destruct cash; reflexivity.
  - intros Hpaid.
    pose proof (payments_POST_created env _ _ Hpaid)
      as [prow [status [_ [Prows [_ [Pfield [Pst Pam]]]]]]].
    destruct (payment_body_fields f r order) as [Bs Ba].
    exists prow. split; [|split].
    + subst paid. unfold create_payment. rewrite Prows.
      change (payments ?s) with (table s Payments).
      rewrite create_items_frame by discriminate.
      rewrite Hframe by discriminate. reflexivity.
    + rewrite Pst. rewrite Bs in Pfield. injection Pfield as <-.
      fold cash. destruct cash; reflexivity.
    + rewrite Pam. exact Ba.
Qed.

Lemma checkout_seeds_order_and_payment_witness :
  let out := handleCheckout sample_env sample_readings sample_form empty_store sample_browser in
  exists orow prow,
    rows (orders (fst out)) = [orow] /\ rows (payments (fst out)) = [prow]
    /\ JS.get orow "status" = JStr "Order Received"
    /\ JS.get orow "paymentStatus" = JStr "Pending"
    /\ JS.get prow "paymentStatus" = JStr "Pending"
    /\ JS.get prow "amountPaid" = JNum (Fin (finalAmount [burger])).
Proof.
  destruct (checkout_seeds_order_and_payment sample_env sample_readings
              sample_form empty_store sample_browser)
    as [Hst [[orow [Ho [Hrows [Hs Hp]]]] Hpay]].
  - discriminate.
  - right. split; discriminate.
  - reflexivity.
  - destruct Hpay as [prow [Prows [Ps Pa]]]; [reflexivity|].
    exists orow, prow. cbv zeta. rewrite Hst.
    repeat split; assumption.
Defined.

(** * Further properties of the handlers and of the pages *)

(** ** The sample stores are stores of the API *)

Lemma reachable_one_customer : reachable one_customer.
Proof. exact (reach_step empty_store Customers POST sample_env alice reach_empty). Qed.

Lemma reachable_menu_of_two : reachable menu_of_two.
Proof.
  exact (reach_step menu_of_one MenuItems POST sample_env (dish "Fries" 40)
           (reach_step empty_store MenuItems POST sample_env (dish "Burger" 100)
              reach_empty)).
Qed.

Lemma reachable_two_customers : reachable two_customers.
Proof.
  exact (reach_step one_customer Customers POST sample_env bob reachable_one_customer).
Qed.

(** ** What a request may write *)

Ltac unchanged_leaf :=
  intros; first [ reflexivity | discriminate | tauto | (intuition (try discriminate; try congruence)) ].

(** X1.  A request that is not answered with a success status (200 to 299)
    writes nothing, and neither does any GET: the store after it is the
    store before it. *)
Theorem failed_requests_write_nothing (t : TableId) (m : Method) (env : Env)
  (st : Store) (req : Request) :
  m = GET \/ ok (snd (api t m env st req)) = false ->
  fst (api t m env st req) = st.
Proof.
  destruct t, m; cbv [api];
  match goal with |- _ -> fst (?h _ _ _) = _ => unfold h end.
  all: apply (sat_try_catch
                (fun out => _ = GET \/ ok (snd out) = false -> fst out = st));
    [ sat unchanged_leaf | intros; reflexivity ].
Qed.

Lemma failed_requests_write_nothing_witness :
  fst (api Offers POST sample_env empty_store big_discount) = empty_store.
Proof.
  apply (failed_requests_write_nothing Offers POST sample_env empty_store big_discount).
  right. reflexivity.
Defined.

(** X2.  A request to the endpoint of one table leaves every other table as
    it was, rows and id counter: nothing cascades, so deleting an order
    keeps its order items, its payment and its receipt. *)
Theorem requests_touch_one_table (t t' : TableId) (m : Method) (env : Env)
  (st : Store) (req : Request) :
  t' <> t -> table (fst (api t m env st req)) t' = table st t'.
Proof. intros Hne. now apply other_tables_untouched. Qed.

Lemma requests_touch_one_table_witness :
  table (fst (api Orders DELETE sample_env one_order (by_id "1"))) OrderItems
  = table one_order OrderItems.
Proof.
  apply (requests_touch_one_table Orders OrderItems DELETE sample_env one_order
           (by_id "1")).
  discriminate.
Defined.

(** ** Ids *)

Lemma has_set o k v k' :
  JS.has (JS.set o k v) k' = String.eqb k' k || JS.has o k'.
Proof.
  unfold JS.has. induction o as [|[k0 v0] o IH]; simpl.
  - reflexivity.
  - destruct (String.eqb_spec k k0) as [->|Hk]; simpl.
    + destruct (String.eqb k' k0); reflexivity.
    + rewrite IH. destruct (String.eqb k' k0), (String.eqb k' k); reflexivity.
Qed.

Lemma NoDup_map_filter {A B} (f : A -> B) p (l : list A) :
  NoDup (map f l) -> NoDup (map f (filter p l)).
Proof.
  induction l as [|x l IH]; simpl; intros H; [constructor|].
  inversion H as [|? ? Hx Hl]; subst.
  destruct (p x); simpl; [|auto].
  constructor; [|auto]. intros Hin. apply Hx.
  apply in_map_iff in Hin as [y [Hy Hin]]. apply filter_In in Hin as [Hin _].
  rewrite <- Hy. now apply in_map.
Qed.

Lemma keyed_empty : ids_fresh empty_store.
Proof. intros []; repeat split; try constructor. Qed.

Lemma insert_keyed st t values st' rs :
  ids_fresh st -> Db.insert st t values = inr (st', rs) ->
  ids_fresh st' /\ forall t', next_id (table st t') <= next_id (table st' t').
Proof.
  intros Hinv H. pose proof (fun t' => frame_insert _ _ _ _ _ t' H) as Hframe.
  pose proof (insert_rows _ _ _ _ _ H) as [Hrows _].
  assert (Hnext : next_id (table st' t) = next_id (table st t) + 1).
  { unfold Db.insert in H. destruct (Db.null_violation _ _); [discriminate|].
    destruct (Db.unique_violation _ _ _); [discriminate|].
    injection H as <- _. now rewrite table_with_same. }
  split.
  - intros t'. destruct (TableId_eq_dec t' t) as [->|Hne].
    + destruct (Hinv t) as [Hpos [Hall Hnd]].
      unfold keyed. rewrite Hnext, Hrows. split; [lia|]. split.
      * apply Forall_app. split.
        -- eapply Forall_impl; [|exact Hall]. intros r [i [Hi Hb]].
           exists i. split; [exact Hi | lia].
        -- constructor; [|constructor]. exists (next_id (table st t)).
           split; [reflexivity | lia].
      * rewrite map_app. simpl.
        apply NoDup_app; [exact Hnd | repeat constructor; intros [] | ].
        intros x Hx [<-|[]]. apply in_map_iff in Hx as [r [Hr Hin]].
        rewrite Forall_forall in Hall. destruct (Hall r Hin) as [i [Hi Hb]].
        rewrite Hi in Hr. unfold JS.num, Num.of_Z, inject_Z in Hr.
        injection Hr as Hr. lia.
    + rewrite (Hframe t' Hne). apply Hinv.
  - intros t'. destruct (TableId_eq_dec t' t) as [->|Hne].
    + lia.
    + rewrite (Hframe t' Hne). lia.
Qed.

Lemma delete_keyed st t id st' rs :
  ids_fresh st -> Db.delete st t id = (st', rs) ->
  ids_fresh st' /\ forall t', next_id (table st t') <= next_id (table st' t').
Proof.
  intros Hinv H. unfold Db.delete in H. injection H as <- <-. split.
  - intros t'. destruct (TableId_eq_dec t' t) as [->|Hne].
    + rewrite table_with_same. destruct (Hinv t) as [Hpos [Hall Hnd]].
      repeat split; simpl; [exact Hpos | | now apply NoDup_map_filter].
      apply Forall_forall. intros r Hr. apply filter_In in Hr as [Hr _].
      rewrite Forall_forall in Hall. auto.
    + rewrite table_with_other by assumption. apply Hinv.
  - intros t'. destruct (TableId_eq_dec t' t) as [->|Hne].
    + rewrite table_with_same. simpl. lia.
    + rewrite table_with_other by assumption. lia.
Qed.

Lemma map_id_updated (f : Obj -> Obj) p rs :
  (forall r, JS.get (f r) "id" = JS.get r "id") ->
  map (fun r => JS.get r "id") (map (fun r => if p r : bool then f r else r) rs)
  = map (fun r => JS.get r "id") rs.
Proof.
  intros Hf. rewrite map_map. apply map_ext. intros r.
  destruct (p r); [apply Hf | reflexivity].
Qed.

Lemma update_keyed st t changes id st' rs :
  ids_fresh st -> no_id changes -> Db.update st t changes id = inr (st', rs) ->
  ids_fresh st' /\ forall t', next_id (table st t') <= next_id (table st' t').
Proof.
  intros Hinv Hno H.
  pose proof (fun t' => frame_update _ _ _ _ _ _ t' H) as Hframe.
  pose proof (update_rows _ _ _ _ _ _ H) as [Hrows _].
  assert (Hnext : next_id (table st' t) = next_id (table st t)).
  { unfold Db.update in H. destruct (JS.no_keys _); [discriminate|].
    destruct (filter _ _); [injection H as <- _; reflexivity|].
    destruct (Db.nulled_column _ _); [discriminate|].
    destruct (Db.collided_column _ _ _); [discriminate|].
    injection H as <- _. now rewrite table_with_same. }
  assert (Hid : forall r, JS.get (Db.assign changes r) "id" = JS.get r "id").
  { intros r. rewrite get_assign. unfold no_id in Hno. now rewrite Hno. }
  split.
  - intros t'. destruct (TableId_eq_dec t' t) as [->|Hne].
    + destruct (Hinv t) as [Hpos [Hall Hnd]].
      unfold keyed. rewrite Hnext, Hrows. split; [exact Hpos|]. split.
      * apply Forall_forall. intros r' Hr'. apply in_map_iff in Hr' as [r [<- Hr]].
        rewrite Forall_forall in Hall.
        destruct (Db.has_id id r); [rewrite Hid|]; auto.
      * rewrite map_id_updated by exact Hid. exact Hnd.
    + rewrite (Hframe t' Hne). apply Hinv.
  - intros t'. destruct (TableId_eq_dec t' t) as [->|Hne].
    + lia.
    + rewrite (Hframe t' Hne). lia.
Qed.

Lemma sat_bind_with {A B : Type} (I : A -> Prop) (P : Response -> Prop)
  (Q : B -> Prop) (m : Flow A) (k : A -> Flow B) :
  flow_sat P I m -> (forall a, I a -> flow_sat P Q (k a)) ->
  flow_sat P Q (bind m k).
Proof. destruct m; simpl; auto. Qed.

(** One step along a body that builds the object it writes: the steps
    that extend the object keep [no_id]. *)
Ltac built_step leaf :=
  lazymatch goal with
  | |- flow_sat _ _ (bind (request_json _) _) =>
      apply sat_bind; [apply sat_request_json | intros ?]
  | |- flow_sat _ _ (bind (destructure _) _) =>
      apply sat_bind; [apply sat_destructure | intros ?]
  | |- flow_sat _ _ (bind (trim_of _) _) =>
      apply sat_bind; [apply sat_trim_of | intros ?]
  | |- flow_sat _ _ (bind (trims_to_empty _) _) =>
      apply sat_bind; [apply sat_trims_to_empty | intros ?]
  | |- flow_sat _ _ (bind (blank _) _) =>
      apply sat_bind; [apply sat_blank | intros ?]
  | |- flow_sat _ _ (bind (trimmed_or_null _) _) =>
      apply sat_bind; [apply sat_trimmed_or_null | intros ?]
  | |- flow_sat _ _ (bind _ _) =>
      apply (sat_bind_with no_id); [ | intros ? ?]
  | |- flow_sat _ _ (if ?c then _ else _) => destruct c eqn:?
  | |- flow_sat _ _ (match ?x with _ => _ end) => destruct x eqn:?
  | |- flow_sat _ _ (list_reply _ _ _) => unfold list_reply
  | |- flow_sat _ _ (Throw _) => exact I
  | |- flow_sat _ _ (Reply _) => simpl; leaf
  | |- flow_sat _ _ (Next _) => simpl; leaf
  end.

Ltac built leaf := cbv zeta; repeat (built_step leaf; cbv zeta).

Ltac no_id_goal :=
  unfold no_id in *;
  repeat match goal with
         | |- context [if ?c then _ else _] => destruct c
         end;
  rewrite ?has_set; simpl; first [assumption | reflexivity].

Ltac keyed_leaf Hinv :=
  first
    [ no_id_goal
    | split; [exact Hinv | intros; lia]
    | eapply insert_keyed; [exact Hinv | eassumption]
    | eapply delete_keyed; [exact Hinv | eassumption]
    | eapply update_keyed; [exact Hinv | | eassumption]; no_id_goal ].

Lemma ids_kept t m env st req :
  ids_fresh st ->
  ids_fresh (fst (api t m env st req))
  /\ forall t', next_id (table st t') <= next_id (table (fst (api t m env st req)) t').
Proof.
  intros Hinv.
  destruct t, m; cbv [api];
  match goal with |- ids_fresh (fst (?h _ _ _)) /\ _ => unfold h end.
  all: apply (sat_try_catch
                (fun out => ids_fresh (fst out)
                            /\ forall t', next_id (table st t') <= next_id (table (fst out) t')));
    [ built ltac:(keyed_leaf Hinv) | intros; split; [exact Hinv | intros; simpl; lia] ].
Qed.

Lemma reachable_ids_fresh st : reachable st -> ids_fresh st.
Proof.
  induction 1 as [|st t m env req _ IH]; [exact keyed_empty|].
  now apply ids_kept.
Qed.

(** X3.  In every store the API can produce from the empty database, the
    ids of a table's rows are distinct positive integers below the table's
    next id, and no request lowers a table's next id: the id of a deleted
    record is never given to another. *)
Theorem ids_are_never_reused (st : Store) :
  reachable st ->
  ids_fresh st
  /\ forall t m env req t',
       next_id (table st t') <= next_id (table (fst (api t m env st req)) t').
Proof.
  intros Hr. pose proof (reachable_ids_fresh st Hr) as Hf. split; [exact Hf|].
  intros t m env req t'. now apply (ids_kept t m env st req Hf).
Qed.

Lemma ids_are_never_reused_witness :
  NoDup (map (fun r => JS.get r "id") (rows (table two_customers Customers)))
  /\ next_id (table two_customers Customers)
     <= next_id (table (fst (api Customers DELETE sample_env two_customers
                               (by_id "2"))) Customers).
Proof.
  destruct (ids_are_never_reused two_customers reachable_two_customers) as [Hf Hn].
  split.
  - exact (proj2 (proj2 (Hf Customers))).
  - exact (Hn Customers DELETE sample_env (by_id "2") Customers).
Defined.

(** ** Reading back what was written *)

Ltac inserted_leaf :=
  let Hs := fresh "Hs" in
  try exact I;
  intros Hs;
  first
    [ discriminate Hs
    | subst;
      match goal with
      | E : Db.insert _ _ ?v = inr (_, _) |- _ =>
          destruct (insert_rows _ _ _ _ _ E) as [_ ->];
          exists v; eexists; split; [exact E | reflexivity]
      end ].

Lemma POST_inserts t env st req :
  resp_status (snd (api t POST env st req)) = 201 ->
  exists values row,
    Db.insert st t values = inr (fst (api t POST env st req), [row])
    /\ snd (api t POST env st req) = json (JObj row) 201.
Proof.
  destruct t; cbv [api];
  match goal with |- resp_status (snd (?h _ _ _)) = _ -> _ => unfold h end.
  all: apply (sat_try_catch
                (fun out => resp_status (snd out) = 201 ->
                   exists values row,
                     Db.insert st _ values = inr (fst out, [row])
                     /\ snd out = json (JObj row) 201));
    [ sat inserted_leaf
    | intros e; simpl; unfold CustomersRoute.duplicate_email_or_internal;
      try destruct (_ || _); simpl; discriminate ].
Qed.

Lemma GET_by_id t env st req s r :
  param req "id" = Some s -> s <> "" ->
  Num.isNaN (Parse.parseInt s) = false ->
  Db.select_by_id st t (Parse.parseInt s) = [r] ->
  api t GET env st req = (st, json (JObj r) 200).
Proof.
  intros Hp Hs Hn Hsel.
  assert (Hpres : present (Some s) = true) by (destruct s; [congruence | reflexivity]).
  assert (Hinv : invalid_id (Some s) = false).
  { simpl. rewrite Hn. destruct s; [congruence | reflexivity]. }
  destruct t; cbv [api];
  match goal with |- ?h _ _ _ = _ => unfold h end;
  rewrite Hp, Hpres, Hinv; unfold id_of, or_default; rewrite Hsel; reflexivity.
Qed.

Lemma has_id_of_Z n r i :
  JS.get r "id" = JS.num i -> Db.has_id (Num.of_Z n) r = (i =? n).
Proof.
  intros H. unfold Db.has_id. rewrite H. simpl. unfold Qeq_bool. simpl.
  rewrite !Z.mul_1_r. reflexivity.
Qed.

Lemma no_row_has_next_id rs n :
  Forall (fun r => exists i, JS.get r "id" = JS.num i /\ 0 < i < n) rs ->
  filter (Db.has_id (Num.of_Z n)) rs = [].
Proof.
  induction 1 as [|r rs [i [Hi Hb]] _ IH]; simpl; [reflexivity|].
  rewrite (has_id_of_Z _ _ _ Hi), IH.
  destruct (Z.eqb_spec i n); [lia | reflexivity].
Qed.

Lemma select_inserted st t values st' row :
  ids_fresh st -> Db.insert st t values = inr (st', [row]) ->
  JS.get row "id" = JS.num (next_id (table st t))
  /\ Db.select_by_id st' t (Num.of_Z (next_id (table st t))) = [row].
Proof.
  intros Hinv H. destruct (insert_rows _ _ _ _ _ H) as [Hrows Hrow].
  injection Hrow as ->. split; [reflexivity|].
  unfold Db.select_by_id. rewrite Hrows, filter_app.
  destruct (Hinv t) as [_ [Hall _]].
  rewrite (no_row_has_next_id _ _ Hall). simpl.
  rewrite (has_id_of_Z _ _ (next_id (table st t))) by reflexivity.
  rewrite Z.eqb_refl. reflexivity.
Qed.

(** X4.  On a store the API can produce, a record created with 201 can be
    read back: a GET whose [id] parses to the id in the create's response
    is answered 200 with the body that the create answered, and writes
    nothing. *)
Theorem created_record_can_be_read (t : TableId) (env env' : Env) (st : Store)
  (req req' : Request) (s : string) :
  reachable st ->
  resp_status (snd (api t POST env st req)) = 201 ->
  param req' "id" = Some s ->
  JNum (Parse.parseInt s) = field (resp_body (snd (api t POST env st req))) "id" ->
  api t GET env' (fst (api t POST env st req)) req'
  = (fst (api t POST env st req),
     json (resp_body (snd (api t POST env st req))) 200).
Proof.
  intros Hr Hs Hp Hid.
  destruct (POST_inserts t env st req Hs) as [values [row [Hins Hresp]]].
  destruct (select_inserted _ _ _ _ _ (reachable_ids_fresh _ Hr) Hins) as [Hrow Hsel].
  rewrite Hresp in Hid |- *. simpl in Hid. rewrite Hrow in Hid.
  injection Hid as Hid. simpl.
  apply (GET_by_id t env' _ req' s row Hp).
  - intros ->. discriminate Hid.
  - rewrite Hid. reflexivity.
  - rewrite Hid. exact Hsel.
Qed.

Lemma created_record_can_be_read_witness :
  api Customers GET sample_env two_customers (by_id "2")
  = (two_customers,
     json (resp_body (snd (api Customers POST sample_env one_customer bob))) 200).
Proof.
  apply (created_record_can_be_read Customers sample_env sample_env one_customer
           bob (by_id "2") "2").
  - exact reachable_one_customer.
  - reflexivity.
  - reflexivity.
  - reflexivity.
Defined.

Lemma DELETE_deletes t env st req :
  resp_status (snd (api t DELETE env st req)) = 200 ->
  invalid_id (param req "id") = false
  /\ exists r rest,
       filter (Db.has_id (id_of (param req "id"))) (rows (table st t)) = r :: rest
       /\ fst (api t DELETE env st req)
          = fst (Db.delete st t (id_of (param req "id")))
       /\ field (resp_body (snd (api t DELETE env st req))) (record_key t) = JObj r.
Proof.
  destruct t; cbv [api];
  match goal with |- resp_status (snd (?h _ _ _)) = _ -> _ => unfold h end;
  cbv zeta;
  (destruct (invalid_id _); [intros H; discriminate H|]);
  unfold Db.select_by_id, Db.delete;
  (destruct (filter _ _) as [|r rest]; [intros H; discriminate H|]);
  intros _; (split; [reflexivity|]); exists r, rest; auto.
Qed.

Lemma missing_record_status t m env st req o :
  m <> POST -> invalid_id (param req "id") = false ->
  Db.select_by_id st t (id_of (param req "id")) = [] ->
  req_body req = Json (JObj o) ->
  fst (api t m env st req) = st /\ resp_status (snd (api t m env st req)) = 404.
Proof.
  intros Hm Hid Hsel Hb. pose proof (invalid_present _ Hid) as Hp.
  destruct t; destruct m; try congruence; cbv [api];
  match goal with |- fst (?h _ _ _) = _ /\ _ => unfold h end;
  apply (answers_try_catch (fun r => resp_status r = 404)); unfold request_json;
  rewrite ?Hb, ?Hid, ?Hp, ?Hsel;
  answers ltac:(reflexivity).
Qed.

Lemma filter_filter_negb {A} (p : A -> bool) l :
  filter p (filter (fun x => negb (p x)) l) = [].
Proof.
  induction l as [|x l IH]; simpl; [reflexivity|].
  destruct (p x) eqn:E; simpl; [exact IH | now rewrite E].
Qed.

(** X5.  After a DELETE answered 200 the table holds the rows it held but
    those with the id addressed, and every later GET, PUT or DELETE with
    that id and a JSON object as body is answered 404 and writes nothing.
    *)
Theorem deleted_record_is_gone (t : TableId) (env : Env) (st : Store)
  (req : Request) :
  resp_status (snd (api t DELETE env st req)) = 200 ->
  let st' := fst (api t DELETE env st req) in
  rows (table st' t)
  = filter (fun r => negb (Db.has_id (id_of (param req "id")) r))
           (rows (table st t))
  /\ forall m env' req' o,
       m <> POST ->
       invalid_id (param req' "id") = false ->
       id_of (param req' "id") = id_of (param req "id") ->
       req_body req' = Json (JObj o) ->
       fst (api t m env' st' req') = st'
       /\ resp_status (snd (api t m env' st' req')) = 404.
Proof.
  intros Hs st'. destruct (DELETE_deletes t env st req Hs) as [_ [r [rest [_ [Hst _]]]]].
  assert (Hrows : rows (table st' t)
                  = filter (fun r => negb (Db.has_id (id_of (param req "id")) r))
                           (rows (table st t))).
  { subst st'. rewrite Hst. unfold Db.delete. simpl. now rewrite table_with_same. }
  split; [exact Hrows|].
  intros m env' req' o Hm Hid Hsame Hb.
  apply (missing_record_status t m env' st' req' o Hm Hid); [|exact Hb].
  unfold Db.select_by_id. rewrite Hsame, Hrows, filter_filter_negb. reflexivity.
Qed.

Lemma deleted_record_is_gone_witness :
  rows (table (fst (api Customers DELETE sample_env two_customers (by_id "2")))
              Customers)
  = rows (table one_customer Customers)
  /\ resp_status
       (snd (api Customers GET sample_env
               (fst (api Customers DELETE sample_env two_customers (by_id "2")))
               (by_id "2"))) = 404.
Proof.
  destruct (deleted_record_is_gone Customers sample_env two_customers (by_id "2"))
    as [Hrows Hgone].
  - reflexivity.
  - split.
    + rewrite Hrows. reflexivity.
    + apply (Hgone GET sample_env (by_id "2") []); solve [reflexivity | discriminate].
Defined.

(** X6.  A DELETE answered 200 carries the deleted record under the key of
    its table ([shop], [customer], [deletedMenuItem], [offer], [order],
    [orderItem], [payment], [receipt]): it is the body that a GET with the
    same request is answered before the delete. *)
Theorem delete_answers_with_the_record (t : TableId) (env env' : Env)
  (st : Store) (req : Request) :
  resp_status (snd (api t DELETE env st req)) = 200 ->
  snd (api t GET env' st req)
  = json (field (resp_body (snd (api t DELETE env st req))) (record_key t)) 200.
Proof.
  intros Hs. destruct (DELETE_deletes t env st req Hs) as [Hid [r [rest [Hf [_ Hbody]]]]].
  rewrite Hbody.
  destruct (param req "id") as [s|] eqn:Hp; [|discriminate Hid].
  simpl in Hid. apply orb_false_iff in Hid as [Hs' Hn].
  rewrite (GET_by_id t env' st req s r Hp); [reflexivity | | exact Hn | ].
  - intros ->. discriminate Hs'.
  - unfold Db.select_by_id. unfold id_of, or_default in Hf. now rewrite Hf.
Qed.

Lemma delete_answers_with_the_record_witness :
  snd (api Customers GET sample_env two_customers (by_id "2"))
  = json (field (resp_body (snd (api Customers DELETE sample_env two_customers
                                   (by_id "2")))) "customer") 200.
Proof.
  apply (delete_answers_with_the_record Customers sample_env sample_env
           two_customers (by_id "2")).
  reflexivity.
Defined.

Lemma select_existing st t id :
  is_nil (Db.select_by_id st t id) = false ->
  exists r rest, filter (Db.has_id id) (rows (table st t)) = r :: rest.
Proof.
  unfold Db.select_by_id. destruct (filter _ _) as [|r rest]; simpl; [discriminate|].
  eauto.
Qed.

Lemma update_then_select st t changes id st' rs :
  no_id changes -> is_nil (Db.select_by_id st t id) = false ->
  Db.update st t changes id = inr (st', rs) ->
  exists r, first_row rs = JObj r /\ Db.select_by_id st' t id = [r].
Proof.
  intros Hno Hex H. destruct (select_existing _ _ _ Hex) as [r [rest Hf]].
  destruct (update_rows _ _ _ _ _ _ H) as [Hrows ->].
  unfold Db.select_by_id. rewrite Hrows, filter_updated by exact Hno.
  rewrite Hf. simpl. eauto.
Qed.

Lemma select_first st t id :
  is_nil (Db.select_by_id st t id) = false ->
  exists r, first_row (Db.select_by_id st t id) = JObj r
            /\ Db.select_by_id st t id = [r].
Proof.
  unfold Db.select_by_id. destruct (filter _ _) as [|r rest]; simpl; [discriminate|].
  eauto.
Qed.

Ltac updated_leaf :=
  idtac;
  lazymatch goal with
  | |- _ -> _ =>
    let Hs := fresh "Hs" in
    intros Hs;
    first
      [ discriminate Hs
      | subst; split; [first [reflexivity | assumption]|];
        lazymatch goal with
        | E : Db.update _ _ ?ch _ = inr (_, _),
          Hex : is_nil (Db.select_by_id _ _ _) = false |- _ =>
            let r := fresh "r" in
            let Hr := fresh "Hr" in
            let Hsel := fresh "Hsel" in
            let Hno := fresh "Hno" in
            assert (Hno : no_id ch) by no_id_goal;
            destruct (update_then_select _ _ _ _ _ _ Hno Hex E)
              as [r [Hr Hsel]];
            exists r; rewrite Hr; split; [reflexivity | exact Hsel]
        | Hex : is_nil (Db.select_by_id _ _ _) = false |- _ =>
            let r := fresh "r" in
            let Hr := fresh "Hr" in
            let Hsel := fresh "Hsel" in
            destruct (select_first _ _ _ Hex) as [r [Hr Hsel]];
            exists r; rewrite Hr; split; [reflexivity | exact Hsel]
        end ]
  | |- _ => no_id_goal
  end.

Lemma PUT_updates t env st req :
  resp_status (snd (api t PUT env st req)) = 200 ->
  invalid_id (param req "id") = false
  /\ exists r,
       snd (api t PUT env st req) = json (JObj r) 200
       /\ Db.select_by_id (fst (api t PUT env st req)) t (id_of (param req "id"))
          = [r].
Proof.
  destruct t; cbv [api];
  match goal with |- resp_status (snd (?h _ _ _)) = _ -> _ => unfold h end.
  all: apply (sat_try_catch
                (fun out => resp_status (snd out) = 200 ->
                   invalid_id (param req "id") = false
                   /\ exists r,
                        snd out = json (JObj r) 200
                        /\ Db.select_by_id (fst out) _ (id_of (param req "id")) = [r]));
    [ built updated_leaf
    | intros e; simpl; unfold CustomersRoute.duplicate_email_or_internal;
      try destruct (_ || _); simpl; discriminate ].
Qed.

(** X7.  A record updated with 200 can be read back: on the store after the
    update, a GET with the same [id] is answered 200 with the body that the
    update answered, and writes nothing. *)
Theorem updated_record_can_be_read (t : TableId) (env env' : Env) (st : Store)
  (req : Request) :
  resp_status (snd (api t PUT env st req)) = 200 ->
  api t GET env' (fst (api t PUT env st req)) req
  = (fst (api t PUT env st req),
     json (resp_body (snd (api t PUT env st req))) 200).
Proof.
  intros Hs. destruct (PUT_updates t env st req Hs) as [Hid [r [Hresp Hsel]]].
  rewrite Hresp. simpl.
  destruct (param req "id") as [s|] eqn:Hp; [|discriminate Hid].
  simpl in Hid. apply orb_false_iff in Hid as [Hs' Hn].
  apply (GET_by_id t env' _ req s r Hp); [ | exact Hn | exact Hsel ].
  intros ->. discriminate Hs'.
Qed.

Lemma updated_record_can_be_read_witness :
  api Orders GET sample_env
      (fst (api Orders PUT sample_env one_order (set_status "Ready")))
      (set_status "Ready")
  = (fst (api Orders PUT sample_env one_order (set_status "Ready")),
     json (resp_body (snd (api Orders PUT sample_env one_order (set_status "Ready"))))
          200).
Proof.
  apply (updated_record_can_be_read Orders sample_env sample_env one_order
           (set_status "Ready")).
  reflexivity.
Defined.

(** X8.  The [id] of a request is read with [parseInt]: two non-empty id
    strings that [parseInt] reads as the same number address the same
    record, so that with the same body every handler answers both alike and
    writes the same. *)
Theorem ids_are_read_leniently (t : TableId) (m : Method) (env : Env)
  (st : Store) (req req' : Request) (s s' : string) :
  param req "id" = Some s -> param req' "id" = Some s' ->
  s <> "" -> s' <> "" ->
  Parse.parseInt s = Parse.parseInt s' ->
  req_body req' = req_body req ->
  api t m env st req' = api t m env st req.
Proof.
  intros Hp Hp' Hs Hs' Hn Hb.
  assert (Hpres : present (Some s) = true) by (destruct s; [congruence | reflexivity]).
  assert (Hpres' : present (Some s') = true) by (destruct s'; [congruence | reflexivity]).
  assert (Hinv : invalid_id (Some s') = invalid_id (Some s)).
  { simpl. rewrite Hn. destruct s, s'; congruence || reflexivity. }
  assert (Hid : id_of (Some s') = id_of (Some s)) by (unfold id_of; simpl; congruence).
  destruct t, m; cbv [api];
  match goal with |- ?h _ _ _ = _ => unfold h end;
  unfold request_json;
  rewrite ?Hp, ?Hp', ?Hpres, ?Hpres', ?Hinv, ?Hid, ?Hb; reflexivity.
Qed.

Lemma ids_are_read_leniently_witness :
  api Orders GET sample_env one_order (request [("id", "1abc")] [])
  = api Orders GET sample_env one_order (request [("id", nbsp ++ " 0x1")] []).
Proof.
  apply (ids_are_read_leniently Orders GET sample_env one_order
           (request [("id", nbsp ++ " 0x1")] []) (request [("id", "1abc")] [])
           (nbsp ++ " 0x1") "1abc");
    solve [ reflexivity | discriminate ].
Defined.

Lemma insert_desc_In col r x sorted :
  In x (Query.insert_desc col r sorted) -> x = r \/ In x sorted.
Proof.
  induction sorted as [|y sorted IH]; simpl.
  - intros [<-|[]]. now left.
  - destruct (Str.leb _ _); simpl.
    + intros [<-|H]; [right; now left|]. destruct (IH H); auto.
    + intros [<-|[<-|H]]; auto.
Qed.

Lemma order_desc_In col rs x : In x (Query.order_desc col rs) -> In x rs.
Proof.
  unfold Query.order_desc.
  assert (G : forall acc, In x (fold_left (fun acc r => Query.insert_desc col r acc) rs acc)
                          -> In x acc \/ In x rs).
  { induction rs as [|r rs IH]; simpl; intros acc H; [now left|].
    destruct (IH _ H) as [H'|H']; [|now right; right].
    destruct (insert_desc_In _ _ _ _ H') as [->|H'']; [right; now left | now left]. }
  intros H. destruct (G [] H) as [[]|H']. exact H'.
Qed.


Lemma in_firstn {A} n (l : list A) x : In x (firstn n l) -> In x l.
Proof. intros H. rewrite <- (firstn_skipn n l). apply in_or_app. now left. Qed.

Lemma in_skipn {A} n (l : list A) x : In x (skipn n l) -> In x l.
Proof. intros H. rewrite <- (firstn_skipn n l). apply in_or_app. now right. Qed.

Lemma window_regular env limit offset rs l o :
  Query.as_count limit = Some l -> Query.as_count offset = Some o ->
  Query.window env limit offset rs = inr (firstn l (skipn o rs)).
Proof. unfold Query.window. now intros -> ->. Qed.

Lemma run_regular env st q l o :
  Query.as_count (q_limit q) = Some l -> Query.as_count (q_offset q) = Some o ->
  exists rs, Query.run env st q = inr rs
    /\ (length rs <= l)%nat
    /\ forall r, In r rs ->
         In r (rows (table st (q_table q)))
         /\ forallb (fun c => Query.holds c r) (q_where q) = true.
Proof.
  intros Hl Ho. unfold Query.run. rewrite (window_regular _ _ _ _ _ _ Hl Ho).
  eexists. split; [reflexivity|]. split.
  - rewrite length_firstn. lia.
  - intros r Hr. apply in_firstn, in_skipn in Hr.
    assert (Hin : In r (filter (fun r => forallb (fun c => Query.holds c r) (q_where q))
                               (rows (table st (q_table q))))).
    { destruct (q_order_desc q); [now apply order_desc_In in Hr | exact Hr]. }
    now apply filter_In in Hin.
Qed.



(** ** The cart of the menu page *)

Lemma find_item_map (f : MenuPage.CartItem -> MenuPage.CartItem) j c :
  (forall l, line_id (f l) = line_id l) ->
  MenuPage.find_item j (map f c) = option_map f (MenuPage.find_item j c).
Proof.
  intros Hf. unfold MenuPage.find_item.
  induction c as [|l c IH]; simpl; [reflexivity|].
  fold (line_id (f l)) (line_id l). rewrite Hf.
  destruct (line_id l =? j); [reflexivity | exact IH].
Qed.

Lemma find_item_app j c1 c2 :
  MenuPage.find_item j (c1 ++ c2)
  = match MenuPage.find_item j c1 with
    | Some l => Some l
    | None => MenuPage.find_item j c2
    end.
Proof.
  unfold MenuPage.find_item. induction c1 as [|l c1 IH]; simpl; [reflexivity|].
  destruct (_ =? j); [reflexivity | exact IH].
Qed.

Lemma find_item_some j c l :
  MenuPage.find_item j c = Some l -> line_id l = j /\ In l c.
Proof.
  unfold MenuPage.find_item. intros H. apply find_some in H as [Hin H].
  split; [now apply Z.eqb_eq | exact Hin].
Qed.

Lemma find_item_filter_other j i c :
  j <> i ->
  MenuPage.find_item j (filter (fun l => negb (line_id l =? i)) c)
  = MenuPage.find_item j c.
Proof.
  intros Hne. unfold MenuPage.find_item.
  induction c as [|l c IH]; simpl; [reflexivity|].
  fold (line_id l).
  destruct (Z.eqb_spec (line_id l) i) as [Hi|Hi]; simpl.
  - destruct (Z.eqb_spec (line_id l) j); [congruence | exact IH].
  - fold (line_id l). destruct (line_id l =? j); [reflexivity | exact IH].
Qed.

Lemma find_item_filter_same i c :
  MenuPage.find_item i (filter (fun l => negb (line_id l =? i)) c) = None.
Proof.
  unfold MenuPage.find_item. induction c as [|l c IH]; simpl; [reflexivity|].
  fold (line_id l).
  destruct (Z.eqb_spec (line_id l) i) as [Hi|Hi]; simpl; [exact IH|].
  fold (line_id l). destruct (Z.eqb_spec (line_id l) i); [congruence | exact IH].
Qed.

(** X10.  Adding a menu item raises its quantity in the cart by one, from
    zero when it was not there, and leaves every other quantity as it was.
    *)
Theorem add_to_cart_counts_one_more (item : MenuPage.MenuItem)
  (p : MenuPage.Page) (j : Z) :
  MenuPage.getItemQuantity j (MenuPage.addToCart item p)
  = MenuPage.getItemQuantity j p
    + (if j =? MenuPage.mi_id item then 1 else 0).
Proof.
  unfold MenuPage.getItemQuantity, MenuPage.addToCart.
  destruct (MenuPage.find_item (MenuPage.mi_id item) (MenuPage.cart p)) as [l0|] eqn:E0;
    simpl.
  - rewrite find_item_map by (intros l; unfold line_id; simpl;
                              destruct (_ =? _); reflexivity).
    destruct (MenuPage.find_item j (MenuPage.cart p)) as [l|] eqn:E; simpl.
    + destruct (find_item_some _ _ _ E) as [Hl _]. unfold line_id in Hl. rewrite Hl.
      destruct (j =? MenuPage.mi_id item); simpl; lia.
    + destruct (Z.eqb_spec j (MenuPage.mi_id item)) as [->|]; [congruence | lia].
  - rewrite find_item_app.
    destruct (MenuPage.find_item j (MenuPage.cart p)) as [l|] eqn:E; simpl.
    + destruct (Z.eqb_spec j (MenuPage.mi_id item)) as [->|]; [congruence | lia].
    + unfold MenuPage.find_item. simpl.
      rewrite (Z.eqb_sym (MenuPage.mi_id item) j).
      destruct (j =? MenuPage.mi_id item); reflexivity.
Qed.

(** X11.  Removing a menu item lowers its quantity by one, not below zero,
    and leaves every other quantity as it was. *)
Theorem remove_from_cart_counts_one_less (i : Z) (p : MenuPage.Page) (j : Z) :
  MenuPage.getItemQuantity j (MenuPage.removeFromCart i p)
  = if j =? i then Z.max 0 (MenuPage.getItemQuantity i p - 1)
    else MenuPage.getItemQuantity j p.
Proof.
  unfold MenuPage.getItemQuantity, MenuPage.removeFromCart.
  destruct (MenuPage.find_item i (MenuPage.cart p)) as [l0|] eqn:E0.
  - destruct (Z.ltb_spec 1 (MenuPage.ci_quantity l0)) as [Hq|Hq]; simpl.
    + rewrite find_item_map by (intros l; unfold line_id; simpl;
                                destruct (_ =? _); reflexivity).
      destruct (Z.eqb_spec j i) as [->|Hne].
      * rewrite E0. simpl. destruct (find_item_some _ _ _ E0) as [Hl _].
        unfold line_id in Hl. rewrite Hl, Z.eqb_refl. simpl. lia.
      * destruct (MenuPage.find_item j (MenuPage.cart p)) as [l|] eqn:E; simpl;
          [|reflexivity].
        destruct (find_item_some _ _ _ E) as [Hl _]. unfold line_id in Hl.
        rewrite Hl. destruct (Z.eqb_spec j i); [congruence | reflexivity].
    + destruct (Z.eqb_spec j i) as [->|Hne].
      * fold line_id. rewrite find_item_filter_same. lia.
      * fold line_id. rewrite find_item_filter_other by exact Hne. reflexivity.
  - simpl. destruct (Z.eqb_spec j i) as [->|Hne].
    + fold line_id. rewrite find_item_filter_same. reflexivity.
    + fold line_id. rewrite find_item_filter_other by exact Hne. reflexivity.
Qed.

Lemma with_quantity_same l q :
  q = MenuPage.ci_quantity l -> MenuPage.with_quantity l q = l.
Proof. intros ->. destruct l; reflexivity. Qed.

Lemma filter_all {A} (f : A -> bool) l :
  Forall (fun x => f x = true) l -> filter f l = l.
Proof.
  induction 1 as [|x l Hx _ IH]; simpl; [reflexivity|]. now rewrite Hx, IH.
Qed.

Lemma find_item_none j c :
  MenuPage.find_item j c = None -> Forall (fun l => negb (line_id l =? j) = true) c.
Proof.
  unfold MenuPage.find_item. intros H. apply Forall_forall. intros l Hl.
  pose proof (find_none _ _ H l Hl) as Hn. unfold line_id. simpl in Hn.
  now rewrite Hn.
Qed.

(** X12.  Removing an item that was just added gives back the cart as it
    was (shown and stored), every quantity in it being at least one. *)
Theorem remove_undoes_add (item : MenuPage.MenuItem) (p : MenuPage.Page) :
  Forall (fun l => 1 <= MenuPage.ci_quantity l) (MenuPage.cart p) ->
  let p' := MenuPage.removeFromCart (MenuPage.mi_id item)
              (MenuPage.addToCart item p) in
  MenuPage.cart p' = MenuPage.cart p
  /\ MenuPage.stored_cart p' = Some (MenuPage.cart p).
Proof.
  intros Hq p'.
  assert (H : MenuPage.cart p' = MenuPage.cart p
              /\ MenuPage.stored_cart p' = Some (MenuPage.cart p')).
  2:{ destruct H as [H1 H2]. split; [exact H1 | now rewrite H2, H1]. }
  subst p'. unfold MenuPage.removeFromCart, MenuPage.addToCart.
  destruct (MenuPage.find_item (MenuPage.mi_id item) (MenuPage.cart p)) as [l0|] eqn:E0;
    cbn [MenuPage.cart MenuPage.toast MenuPage.updateCart].
  - rewrite find_item_map by (intros l; unfold line_id; simpl;
                              destruct (_ =? _); reflexivity).
    rewrite E0. cbn [option_map].
    destruct (find_item_some _ _ _ E0) as [Hl Hin]. unfold line_id in Hl.
    rewrite Hl, Z.eqb_refl. cbn [MenuPage.with_quantity MenuPage.ci_quantity].
    rewrite Forall_forall in Hq. pose proof (Hq l0 Hin) as Hq0.
    destruct (Z.ltb_spec 1 (MenuPage.ci_quantity l0 + 1)) as [_|]; [|lia].
    cbn [MenuPage.cart MenuPage.stored_cart MenuPage.updateCart]. split; [|reflexivity].
    rewrite map_map. rewrite <- (map_id (MenuPage.cart p)) at 2.
    apply map_ext. intros l.
    destruct (Z.eqb_spec (MenuPage.mi_id (MenuPage.ci_item l)) (MenuPage.mi_id item))
      as [He|He]; cbn [MenuPage.with_quantity MenuPage.ci_item MenuPage.ci_quantity].
    + rewrite He, Z.eqb_refl. destruct l; unfold MenuPage.with_quantity; simpl; f_equal; lia.
    + destruct (Z.eqb_spec (MenuPage.mi_id (MenuPage.ci_item l)) (MenuPage.mi_id item));
        [congruence | reflexivity].
  - rewrite find_item_app, E0.
    assert (Hnew : MenuPage.find_item (MenuPage.mi_id item)
                     [{| MenuPage.ci_item := item; MenuPage.ci_quantity := 1 |}]
                   = Some {| MenuPage.ci_item := item; MenuPage.ci_quantity := 1 |}).
    { unfold MenuPage.find_item. simpl. now rewrite Z.eqb_refl. }
    rewrite Hnew.
    cbn [MenuPage.ci_quantity Z.ltb Z.compare].
    cbn [MenuPage.cart MenuPage.stored_cart MenuPage.updateCart MenuPage.toast].
    split; [|reflexivity].
    rewrite filter_app. cbn [filter MenuPage.ci_item]. rewrite Z.eqb_refl.
    cbn [negb]. rewrite app_nil_r. apply filter_all.
    exact (find_item_none _ _ E0).
Qed.

Lemma remove_undoes_add_witness :
  MenuPage.cart (MenuPage.removeFromCart 2 (MenuPage.addToCart fries menu_page))
  = MenuPage.cart menu_page
  /\ MenuPage.stored_cart
       (MenuPage.removeFromCart 2 (MenuPage.addToCart fries menu_page))
     = Some (MenuPage.cart menu_page).
Proof.
  apply (remove_undoes_add fries menu_page).
  repeat constructor. simpl. lia.
Defined.

Lemma count_from (c : list MenuPage.CartItem) a :
  fold_left (fun sum item => sum + MenuPage.ci_quantity item) c a
  = a + Navbar.count c.
Proof.
  unfold Navbar.count. revert a.
  induction c as [|l c IH]; intros a; simpl; [lia|].
  rewrite IH, (IH (MenuPage.ci_quantity l)). lia.
Qed.

Lemma count_cons l c : Navbar.count (l :: c) = MenuPage.ci_quantity l + Navbar.count c.
Proof. unfold Navbar.count at 1. simpl. now rewrite count_from. Qed.

Lemma count_app c1 c2 : Navbar.count (c1 ++ c2) = Navbar.count c1 + Navbar.count c2.
Proof.
  induction c1 as [|l c1 IH]; simpl; [reflexivity|].
  rewrite !count_cons, IH. lia.
Qed.

Lemma count_bumped i d c :
  NoDup (map line_id c) ->
  Navbar.count
    (map (fun l => if line_id l =? i
                   then MenuPage.with_quantity l (MenuPage.ci_quantity l + d)
                   else l) c)
  = Navbar.count c + (if existsb (fun l => line_id l =? i) c then d else 0).
Proof.
  induction c as [|l c IH]; simpl; intros Hnd; [reflexivity|].
  inversion Hnd as [|? ? Hl Hc]; subst. rewrite !count_cons, IH by exact Hc.
  destruct (Z.eqb_spec (line_id l) i) as [<-|Hne]; simpl.
  - assert (Hno : existsb (fun l' => line_id l' =? line_id l) c = false).
    { destruct (existsb _ c) eqn:E; [|reflexivity]. exfalso. apply Hl.
      apply existsb_exists in E as [l' [Hin He]]. apply Z.eqb_eq in He.
      rewrite <- He. now apply in_map. }
    rewrite Hno. lia.
  - lia.
Qed.

Lemma count_removed i c :
  NoDup (map line_id c) ->
  Navbar.count (filter (fun l => negb (line_id l =? i)) c)
  = Navbar.count c
    - match MenuPage.find_item i c with
      | Some l => MenuPage.ci_quantity l
      | None => 0
      end.
Proof.
  unfold MenuPage.find_item.
  induction c as [|l c IH]; simpl; intros Hnd; [reflexivity|].
  inversion Hnd as [|? ? Hl Hc]; subst. fold (line_id l).
  destruct (Z.eqb_spec (line_id l) i) as [<-|Hne]; simpl.
  - rewrite count_cons. rewrite filter_all; [lia|].
    apply Forall_forall. intros l' Hin.
    destruct (Z.eqb_spec (line_id l') (line_id l)) as [He|]; [|reflexivity].
    exfalso. apply Hl. rewrite <- He. now apply in_map.
  - rewrite !count_cons, IH by exact Hc. lia.
Qed.

Lemma find_item_exists i c :
  existsb (fun l => line_id l =? i) c
  = match MenuPage.find_item i c with Some _ => true | None => false end.
Proof.
  unfold MenuPage.find_item. induction c as [|l c IH]; simpl; [reflexivity|].
  fold (line_id l). destruct (line_id l =? i); [reflexivity | exact IH].
Qed.

(** X13.  The badge of the navigation bar follows the menu page: on a cart
    with one line per item it shows one more after [addToCart], and one
    less after [removeFromCart] of an item that is in the cart with a
    quantity of at least one. *)
Theorem navbar_follows_the_cart (item : MenuPage.MenuItem) (i : Z)
  (p : MenuPage.Page) :
  cart_ok (MenuPage.cart p) ->
  Navbar.handleStorageChange (MenuPage.stored_cart (MenuPage.addToCart item p))
  = Navbar.count (MenuPage.cart p) + 1
  /\ Navbar.handleStorageChange (MenuPage.stored_cart (MenuPage.removeFromCart i p))
     = Navbar.count (MenuPage.cart p)
       - (if 1 <=? MenuPage.getItemQuantity i p then 1 else 0).
Proof.
  intros [Hnd Hq]. split.
  - unfold MenuPage.addToCart.
    destruct (MenuPage.find_item (MenuPage.mi_id item) (MenuPage.cart p)) as [l0|] eqn:E0;
      cbn [MenuPage.stored_cart MenuPage.toast MenuPage.updateCart
           Navbar.handleStorageChange].
    + fold line_id. rewrite (count_bumped _ 1 _ Hnd), find_item_exists, E0.
      reflexivity.
    + rewrite count_app. reflexivity.
  - unfold MenuPage.removeFromCart, MenuPage.getItemQuantity.
    destruct (MenuPage.find_item i (MenuPage.cart p)) as [l0|] eqn:E0.
    + destruct (find_item_some _ _ _ E0) as [_ Hin].
      rewrite Forall_forall in Hq. pose proof (Hq l0 Hin) as Hq0.
      destruct (Z.leb_spec 1 (MenuPage.ci_quantity l0)); [|lia].
      destruct (Z.ltb_spec 1 (MenuPage.ci_quantity l0));
        cbn [MenuPage.stored_cart MenuPage.toast MenuPage.updateCart
             Navbar.handleStorageChange]; fold line_id.
      * change (fun l => if line_id l =? i
                         then MenuPage.with_quantity l (MenuPage.ci_quantity l - 1)
                         else l)
          with (fun l => if line_id l =? i
                         then MenuPage.with_quantity l (MenuPage.ci_quantity l + -1)
                         else l).
        rewrite (count_bumped _ (-1) _ Hnd), find_item_exists, E0. lia.
      * rewrite (count_removed _ _ Hnd), E0. lia.
    + cbn [MenuPage.stored_cart MenuPage.toast MenuPage.updateCart
           Navbar.handleStorageChange Z.leb Z.compare]. fold line_id.
      rewrite (count_removed _ _ Hnd), E0. lia.
Qed.

Lemma navbar_follows_the_cart_witness :
  Navbar.handleStorageChange
    (MenuPage.stored_cart (MenuPage.addToCart fries menu_page)) = 3
  /\ Navbar.handleStorageChange
       (MenuPage.stored_cart (MenuPage.removeFromCart 2 menu_page)) = 1.
Proof.
  apply (navbar_follows_the_cart fries 2 menu_page).
  split; repeat constructor; simpl; [tauto | lia].
Defined.

Lemma map_line_id_bumped (g : MenuPage.CartItem -> Z) i c :
  map line_id
    (map (fun l => if line_id l =? i then MenuPage.with_quantity l (g l) else l) c)
  = map line_id c.
Proof.
  rewrite map_map. apply map_ext. intros l. destruct (_ =? _); reflexivity.
Qed.

Lemma same_line c l l0 :
  NoDup (map line_id c) -> In l c -> In l0 c -> line_id l = line_id l0 -> l = l0.
Proof.
  induction c as [|x c IH]; [contradiction|]. simpl.
  intros Hnd Hin Hin0 He. inversion Hnd as [|? ? Hx Hc]; subst.
  destruct Hin as [->|Hin], Hin0 as [->|Hin0]; auto.
  - exfalso. apply Hx. rewrite He. now apply in_map.
  - exfalso. apply Hx. rewrite <- He. now apply in_map.
Qed.

(** X14.  The cart functions of the menu page keep the cart well formed
    (one line per menu item, every quantity at least one) and leave the
    same cart in local storage as on the page. *)
Theorem menu_cart_stays_well_formed (item : MenuPage.MenuItem) (i : Z)
  (p : MenuPage.Page) :
  cart_ok (MenuPage.cart p) ->
  let added := MenuPage.addToCart item p in
  let removed := MenuPage.removeFromCart i p in
  cart_ok (MenuPage.cart added)
  /\ MenuPage.stored_cart added = Some (MenuPage.cart added)
  /\ cart_ok (MenuPage.cart removed)
  /\ MenuPage.stored_cart removed = Some (MenuPage.cart removed).
Proof.
  intros [Hnd Hq] added removed. subst added removed.
  unfold MenuPage.addToCart, MenuPage.removeFromCart.
  repeat split.
  - destruct (MenuPage.find_item _ _) eqn:E0; cbn [MenuPage.cart MenuPage.toast MenuPage.updateCart].
    + fold line_id.
      rewrite (map_line_id_bumped (fun l => MenuPage.ci_quantity l + 1)). exact Hnd.
    + rewrite map_app. apply NoDup_app; [exact Hnd | repeat constructor; intros [] |].
      intros x Hx [<-|[]]. apply in_map_iff in Hx as [l [Hl Hin]].
      pose proof (find_item_none _ _ E0) as Hnone. rewrite Forall_forall in Hnone.
      specialize (Hnone l Hin). rewrite Hl in Hnone. unfold line_id in Hnone.
      simpl in Hnone. rewrite Z.eqb_refl in Hnone. discriminate.
  - destruct (MenuPage.find_item _ _) eqn:E0; cbn [MenuPage.cart MenuPage.toast MenuPage.updateCart].
    + apply Forall_forall. intros l' Hin. apply in_map_iff in Hin as [l [<- Hin]].
      rewrite Forall_forall in Hq. specialize (Hq l Hin).
      destruct (_ =? _); simpl; lia.
    + apply Forall_app. split; [exact Hq|]. repeat constructor. simpl. lia.
  - destruct (MenuPage.find_item _ _); reflexivity.
  - destruct (match MenuPage.find_item i (MenuPage.cart p) with
              | Some existingItem => 1 <? MenuPage.ci_quantity existingItem
              | None => false
              end); cbn [MenuPage.cart MenuPage.toast MenuPage.updateCart].
    + fold line_id.
      rewrite (map_line_id_bumped (fun l => MenuPage.ci_quantity l - 1)). exact Hnd.
    + now apply NoDup_map_filter.
  - destruct (MenuPage.find_item i (MenuPage.cart p)) as [l0|] eqn:E0.
    + destruct (Z.ltb_spec 1 (MenuPage.ci_quantity l0)) as [H1|H1];
        cbn [MenuPage.cart MenuPage.toast MenuPage.updateCart].
      * destruct (find_item_some _ _ _ E0) as [Hl0 Hin0].
        apply Forall_forall. intros l' Hin. apply in_map_iff in Hin as [l [<- Hin]].
        rewrite Forall_forall in Hq. pose proof (Hq l Hin) as Hql.
        destruct (Z.eqb_spec (MenuPage.mi_id (MenuPage.ci_item l)) i) as [He|];
          [|exact Hql].
        assert (l = l0) as ->
          by (apply (same_line _ _ _ Hnd Hin Hin0); unfold line_id in *; congruence).
        simpl. lia.
      * apply Forall_forall. intros l Hin. apply filter_In in Hin as [Hin _].
        rewrite Forall_forall in Hq. auto.
    + cbn [MenuPage.cart MenuPage.toast MenuPage.updateCart].
      apply Forall_forall. intros l Hin. apply filter_In in Hin as [Hin _].
      rewrite Forall_forall in Hq. auto.
  - destruct (match MenuPage.find_item i (MenuPage.cart p) with
              | Some existingItem => 1 <? MenuPage.ci_quantity existingItem
              | None => false
              end); reflexivity.
Qed.

Lemma menu_cart_stays_well_formed_witness :
  cart_ok (MenuPage.cart (MenuPage.addToCart fries menu_page))
  /\ MenuPage.stored_cart (MenuPage.addToCart fries menu_page)
     = Some (MenuPage.cart (MenuPage.addToCart fries menu_page))
  /\ cart_ok (MenuPage.cart (MenuPage.removeFromCart 2 menu_page))
  /\ MenuPage.stored_cart (MenuPage.removeFromCart 2 menu_page)
     = Some (MenuPage.cart (MenuPage.removeFromCart 2 menu_page)).
Proof.
  apply (menu_cart_stays_well_formed fries 2 menu_page).
  split; repeat constructor; simpl; [tauto | lia].
Defined.

Lemma set_of_In seen values v :
  In v values -> In v seen \/ In v (MenuPage.set_of seen values).
Proof.
  revert seen. induction values as [|x values IH]; intros seen; simpl; [tauto|].
  intros [->|Hin].
  - destruct (existsb (String.eqb v) seen) eqn:E.
    + left. apply existsb_exists in E as [y [Hy He]].
      apply String.eqb_eq in He. now subst.
    + right. now left.
  - destruct (existsb (String.eqb x) seen) eqn:E.
    + apply IH, Hin.
    + destruct (IH (x :: seen) Hin) as [[->|H]|H]; [right; now left | now left |].
      right. now right.
Qed.

Lemma set_of_sound seen values v :
  In v (MenuPage.set_of seen values) -> In v values /\ ~ In v seen.
Proof.
  revert seen. induction values as [|x values IH]; intros seen; simpl; [tauto|].
  destruct (existsb (String.eqb x) seen) eqn:E.
  - intros H. destruct (IH _ H). auto.
  - intros [->|H].
    + split; [now left|]. intros Hin.
      assert (existsb (String.eqb v) seen = true); [|congruence].
      apply existsb_exists. exists v. split; [exact Hin | apply String.eqb_refl].
    + destruct (IH _ H) as [H1 H2]. split; [now right|].
      intros Hin. apply H2. now right.
Qed.

Lemma set_of_NoDup seen values : NoDup (MenuPage.set_of seen values).
Proof.
  revert seen. induction values as [|x values IH]; intros seen; simpl; [constructor|].
  destruct (existsb (String.eqb x) seen); [apply IH|].
  constructor; [|apply IH]. intros H. apply set_of_sound in H as [_ H].
  apply H. now left.
Qed.

(** X15.  The category buttons: after "All" come the categories of the
    menu, each once; every item's category has a button; and a button never
    leads to an empty list, unless the menu itself is empty. *)
Theorem category_buttons (menuItems : list MenuPage.MenuItem) :
  (exists rest, MenuPage.categories menuItems = "All" :: rest /\ NoDup rest)
  /\ (forall item, In item menuItems ->
        In (MenuPage.mi_category item) (MenuPage.categories menuItems))
  /\ (forall c, In c (MenuPage.categories menuItems) -> menuItems <> [] ->
        MenuPage.filteredItems c menuItems <> []
        /\ forall item, In item (MenuPage.filteredItems c menuItems) ->
             In item menuItems /\ (c <> "All" -> MenuPage.mi_category item = c)).
Proof.
  unfold MenuPage.categories. split; [|split].
  - eexists. split; [reflexivity | apply set_of_NoDup].
  - intros item Hin. right.
    destruct (set_of_In [] (map MenuPage.mi_category menuItems) (MenuPage.mi_category item))
      as [[]|H]; [now apply in_map | exact H].
  - intros c Hc Hne. unfold MenuPage.filteredItems.
    destruct (String.eqb_spec c "All") as [->|Hall].
    + split; [exact Hne|]. intros item Hin. split; [exact Hin | congruence].
    + destruct Hc as [Hc|Hc]; [congruence|].
      apply set_of_sound in Hc as [Hc _]. apply in_map_iff in Hc as [item [Hcat Hin]].
      split.
      * intros Hnil.
        assert (Hf : In item (filter (fun i => String.eqb (MenuPage.mi_category i) c) menuItems)).
        { apply filter_In. split; [exact Hin|]. rewrite Hcat. apply String.eqb_refl. }
        rewrite Hnil in Hf. exact Hf.
      * intros item' Hin'. apply filter_In in Hin' as [Hin' He].
        split; [exact Hin'|]. intros _. now apply String.eqb_eq.
Qed.

Lemma isInteger_of_Z z : Num.isInteger (Num.of_Z z) = true.
Proof.
  unfold Num.isInteger, Num.of_Z, inject_Z, Qred.
  pose proof (Z.ggcd_correct_divisors z 1) as H.
  pose proof (Z.ggcd_gcd z 1) as G. rewrite Z.gcd_1_r in G.
  destruct (Z.ggcd z 1) as [g [aa bb]]. simpl in *. subst g.
  destruct H as [_ H]. rewrite Z.mul_1_l in H. subst bb. reflexivity.
Qed.

Lemma le_zero_num z : le_zero (JS.num z) = (z <=? 0).
Proof.
  unfold le_zero, JS.num, Num.of_Z, JS.toNumber, Num.leb, Num.zero, Num.of_Z.
  unfold Qle_bool. simpl. now rewrite Z.mul_1_r.
Qed.

Lemma le_zero_number_false q : Qle_bool q 0 = false -> le_zero (number q) = false.
Proof. intros H. unfold le_zero, number. simpl. exact H. Qed.

Lemma order_item_request order item n :
  order_id order = JS.num n ->
  post (order_item_body order item)
  = {| url_query := [];
       req_body := Json (JObj [ ("orderId", JS.num n);
                                ("menuItemId", JS.num (item_id item));
                                ("quantity", JS.num (item_quantity item));
                                ("price", number (item_price item)) ]) |}.
Proof. intros H. unfold post, order_item_body, stringify. rewrite H. reflexivity. Qed.

Lemma order_item_accepted env st order item n :
  order_id order = JS.num n -> 0 < n -> line_ok item = true ->
  exists row,
    OrderItemsRoute.POST env st (post (order_item_body order item))
    = (with_table st OrderItems
         {| rows := (rows (orderItems st) ++ [row])%list;
            next_id := next_id (orderItems st) + 1 |},
       json (JObj row) 201)
    /\ line_of_row row = line_of_item n item.
Proof.
  intros Hid Hn Hok. unfold line_ok in Hok.
  apply andb_true_iff in Hok as [Hok Hp]. apply andb_true_iff in Hok as [Hi Hq].
  apply Z.ltb_lt in Hi, Hq. apply negb_true_iff in Hp.
  rewrite (order_item_request _ _ _ Hid).
  unfold OrderItemsRoute.POST, OrderItemsRoute.bad_reference.
  cbn [request_json req_body bind destructure JS.get String.eqb Ascii.eqb Bool.eqb].
  change (JS.isInteger (JS.num ?z)) with (Num.isInteger (Num.of_Z z)).
  rewrite !isInteger_of_Z, !le_zero_num, (le_zero_number_false _ Hp).
  destruct (Z.leb_spec (item_quantity item) 0); [lia|].
  destruct (Z.leb_spec n 0); [lia|].
  destruct (Z.leb_spec (item_id item) 0); [lia|].
  eexists. split; [reflexivity|]. reflexivity.
Qed.

Lemma order_item_refused env st order item n :
  order_id order = JS.num n -> 0 < n -> line_ok item = false ->
  fst (OrderItemsRoute.POST env st (post (order_item_body order item))) = st
  /\ resp_status (snd (OrderItemsRoute.POST env st (post (order_item_body order item))))
     = 400.
Proof.
  intros Hid Hn Hok. unfold line_ok in Hok.
  rewrite (order_item_request _ _ _ Hid).
  unfold OrderItemsRoute.POST, OrderItemsRoute.bad_reference.
  cbn [request_json req_body bind destructure JS.get String.eqb Ascii.eqb Bool.eqb].
  change (JS.isInteger (JS.num ?z)) with (Num.isInteger (Num.of_Z z)).
  rewrite !isInteger_of_Z, !le_zero_num.
  change (le_zero (number ?q)) with (Qle_bool q 0).
  destruct (Z.leb_spec n 0); [lia|].
  destruct (Z.leb_spec (item_quantity item) 0) as [Hq|Hq]; [split; reflexivity|].
  destruct (Qle_bool (item_price item) 0) eqn:Hp; [split; reflexivity|].
  destruct (Z.leb_spec (item_id item) 0) as [Hi|Hi]; [split; reflexivity|].
  exfalso. apply Z.ltb_lt in Hi, Hq. rewrite Hi, Hq in Hok. discriminate.
Qed.

Lemma serve_items_rows env order n c st :
  order_id order = JS.num n -> 0 < n ->
  exists new_rows,
    rows (orderItems
            (serve_items env st
               (map (fun item => post (order_item_body order item)) c)))
    = (rows (orderItems st) ++ new_rows)%list
    /\ map line_of_row new_rows = map (line_of_item n) (filter line_ok c).
Proof.
  intros Hid Hn. unfold serve_items. revert st.
  induction c as [|item c IH]; intros st; simpl.
  - exists []. now rewrite app_nil_r.
  - destruct (line_ok item) eqn:Hok.
    + destruct (order_item_accepted env st order item n Hid Hn Hok) as [row [-> Hrow]].
      destruct (IH (fst (with_table st OrderItems
                   {| rows := (rows (orderItems st) ++ [row])%list;
                      next_id := next_id (orderItems st) + 1 |},
                  json (JObj row) 201))) as [rs [Hrs Hmap]].
      exists (row :: rs). simpl in *. rewrite Hrs, <- app_assoc. simpl.
      split; [reflexivity|]. now rewrite Hrow, Hmap.
    + destruct (order_item_refused env st order item n Hid Hn Hok) as [-> _].
      apply IH.
Qed.

Lemma Permutation_filter {A} (p : A -> bool) (l l' : list A) :
  Permutation l l' -> Permutation (filter p l) (filter p l').
Proof.
  induction 1 as [|x l l' _ IH|x y l|l l' l'' _ IH1 _ IH2]; simpl.
  - constructor.
  - destruct (p x); [now constructor | exact IH].
  - destruct (p x), (p y); try apply Permutation_refl. apply perm_swap.
  - now transitivity (filter p l').
Qed.

(** X16.  A checkout whose order request is accepted stores one order item
    for each line of the cart that has a positive menu item id, a positive
    quantity and a positive price, each with the id of the new order and
    the line's menu item id, quantity and price, in the order in which the
    server takes the requests, whichever that is; the other lines are
    dropped without a report.  The customer, if any, and the menu items
    of the lines are stored. *)
Theorem checkout_stores_the_valid_lines (env : Env) (r : Readings) (f : Form)
  (st : Store) (b : Browser) :
  reachable st ->
  cart f <> [] ->
  (customer f <> None \/ (guestName f <> "" /\ guestPhone f <> "")) ->
  (forall (A : Type) (l : list A), Permutation (arrival env A l) l) ->
  references_stored st f ->
  ok (snd (create_order env r f st)) = true ->
  exists new_rows,
    rows (orderItems (fst (handleCheckout env r f st b)))
    = (rows (orderItems st) ++ new_rows)%list
    /\ Permutation (map line_of_row new_rows)
         (map (line_of_item (next_id (orders st))) (filter line_ok (cart f))).
Proof.
  intros Hr Hc Hi Harr _ Hok. destruct (guards_pass f Hc Hi) as [G1 G2].
  pose proof (reachable_ids_fresh _ Hr) as Hfresh.
  destruct (orders_POST_created env st (post (order_body f r)) Hok)
    as [orow [Hresp _]].
  fold (create_order env r f st) in Hresp.
  assert (Hs : resp_status (snd (api Orders POST env st (post (order_body f r)))) = 201).
  { change (api Orders POST) with OrdersRoute.POST.
    fold (create_order env r f st). now rewrite Hresp. }
  destruct (POST_inserts Orders env st _ Hs) as [values [row [Hins Hrow]]].
  change (api Orders POST env st (post (order_body f r)))
    with (create_order env r f st) in Hins, Hrow.
  destruct (select_inserted _ _ _ _ _ Hfresh Hins) as [Hid _].
  assert (Hn : 0 < next_id (orders st)) by (destruct (Hfresh Orders) as [Hn _]; exact Hn).
  assert (Horder : order_id (resp_body (snd (create_order env r f st)))
                   = JS.num (next_id (orders st))).
  { rewrite Hrow. exact Hid. }
  unfold handleCheckout. rewrite G1, G2.
  destruct (create_order env r f st) as [st1 resp] eqn:Ec.
  simpl in Hok. rewrite Hok. cbn [negb].
  destruct (create_payment env r f _ _) as [st3 presp] eqn:Ep.
  cbn [fst snd] in *.
  assert (E3 : table st3 OrderItems
               = table (create_items env st1 (resp_body resp) (cart f)) OrderItems).
  { change st3 with (fst (st3, presp)). rewrite <- Ep. unfold create_payment.
    apply (other_tables_untouched Payments POST). discriminate. }
  assert (E1 : table st1 OrderItems = table st OrderItems).
  { change st1 with (fst (st1, resp)). rewrite <- Ec. unfold create_order.
    apply (other_tables_untouched Orders POST). discriminate. }
  destruct (Permutation_map_inv _ _ (Harr _ (map (fun item => post (order_item_body (resp_body resp) item)) (cart f))))
    as [arrived [Harrived Hperm]].
  destruct (serve_items_rows env (resp_body resp) (next_id (orders st)) arrived st1
              Horder Hn) as [rs [Hrs Hmap]].
  exists rs. split.
  - change (orderItems ?s) with (table s OrderItems) in *.
    rewrite E3. unfold create_items. now rewrite Harrived, Hrs, E1.
  - rewrite Hmap. apply Permutation_map, Permutation_filter.
    now apply Permutation_sym.
Qed.

Lemma checkout_stores_the_valid_lines_witness :
  exists new_rows,
    rows (orderItems (fst (handleCheckout rush_hour sample_readings lunch_form
                             menu_of_two sample_browser)))
    = ([] ++ new_rows)%list
    /\ Permutation (map line_of_row new_rows)
         [line_of_item 1 burger; line_of_item 1 fries_line].
Proof.
  apply (checkout_stores_the_valid_lines rush_hour sample_readings lunch_form
           menu_of_two sample_browser).
  - exact reachable_menu_of_two.
  - discriminate.
  - right. split; discriminate.
  - intros A l. apply Permutation_sym, Permutation_rev.
  - split; [discriminate|].
    intros item [<-|[<-|[<-|[]]]];
      first [ exists (nth 0 (rows (menuItems menu_of_two)) []);
              split; [left; reflexivity | reflexivity]
            | exists (nth 1 (rows (menuItems menu_of_two)) []);
              split; [right; left; reflexivity | reflexivity] ].
  - reflexivity.
Defined.

(** ** The cart of the checkout page *)

(** X17.  On the checkout page the quantity buttons keep the lines of the
    cart and move only the quantity of the line addressed, never below one
    (so the minus button cannot remove a line); the bin button drops
    exactly the lines of the item addressed; both leave in local storage
    the cart shown on the page. *)
Theorem checkout_cart_edits (i delta : Z) (p : Form * Browser) :
  let q := CheckoutCart.updateQuantity i delta p in
  let d := CheckoutCart.removeFromCart i p in
  Forall2 (fun old new =>
             item_id new = item_id old /\ item_name new = item_name old
             /\ item_price new = item_price old
             /\ item_quantity new
                = if item_id old =? i
                  then Z.max 1 (item_quantity old + delta)
                  else item_quantity old)
          (cart (fst p)) (cart (fst q))
  /\ (Forall (fun l => 1 <= item_quantity l) (cart (fst p)) ->
      Forall (fun l => 1 <= item_quantity l) (cart (fst q)))
  /\ stored_cart (snd q) = Some (cart (fst q))
  /\ (forall l, In l (cart (fst d)) <-> In l (cart (fst p)) /\ item_id l <> i)
  /\ stored_cart (snd d) = Some (cart (fst d)).
Proof.
  destruct p as [f b]. cbv zeta.
  unfold CheckoutCart.updateQuantity, CheckoutCart.removeFromCart,
    CheckoutCart.updateCart. cbn [fst snd cart CheckoutCart.setCart stored_cart toast].
  split; [|split; [|split; [|split]]].
  - induction (cart f) as [|l c IH]; simpl; constructor; [|exact IH].
    destruct (item_id l =? i); simpl; auto.
  - intros H. apply Forall_forall. intros l' Hin.
    apply in_map_iff in Hin as [l [<- Hin]]. rewrite Forall_forall in H.
    specialize (H l Hin). destruct (item_id l =? i); simpl; lia.
  - reflexivity.
  - intros l. rewrite filter_In, negb_true_iff, Z.eqb_neq. reflexivity.
  - reflexivity.
Qed.

(** X18.  The name and phone typed by a guest only open the way to the
    requests: whatever is typed, as long as neither is empty, the same
    requests are sent and the same rows are stored; the API never receives
    them. *)
Theorem guest_details_are_not_sent (env : Env) (r : Readings) (f : Form)
  (st : Store) (b : Browser) (name phone name' phone' : string) :
  name <> "" -> phone <> "" -> name' <> "" -> phone' <> "" ->
  handleCheckout env r
    (CheckoutCart.setGuestPhone phone (CheckoutCart.setGuestName name f)) st b
  = handleCheckout env r
      (CheckoutCart.setGuestPhone phone' (CheckoutCart.setGuestName name' f)) st b.
Proof.
  intros Hn Hp Hn' Hp'. unfold handleCheckout.
  cbn [cart customer guestName guestPhone CheckoutCart.setGuestPhone
       CheckoutCart.setGuestName].
  destruct name; [congruence|]. destruct phone; [congruence|].
  destruct name'; [congruence|]. destruct phone'; [congruence|].
  reflexivity.
Qed.

Lemma guest_details_are_not_sent_witness :
  handleCheckout sample_env sample_readings
    (CheckoutCart.setGuestPhone "555-0100" (CheckoutCart.setGuestName "Ann" sample_form))
    empty_store sample_browser
  = handleCheckout sample_env sample_readings
      (CheckoutCart.setGuestPhone "0" (CheckoutCart.setGuestName "Bob" sample_form))
      empty_store sample_browser.
Proof.
  apply (guest_details_are_not_sent sample_env sample_readings sample_form
           empty_store sample_browser "Ann" "555-0100" "Bob" "0");
    discriminate.
Defined.

(** ** Loading the menu page *)

Lemma sql_eqb_true_bool v : Db.sql_eqb v (JBool true) = true -> v = JBool true.
Proof.
  destruct v as [| |[]| | | |]; simpl; try discriminate. reflexivity.
Qed.

(** X19.  Served by the handlers of the API, the menu page always loads: it
    shows at most 100 menu items, all stored and all available, and at most
    10 offers, all stored and all valid at the server's current time (their
    [validFrom] not after it and their [validUntil] not before it, as ISO
    strings); no error is shown. *)
Theorem menu_page_loads_what_is_on_offer (env : Env) (st : Store) :
  exists items deals,
    MenuPage.fetchData env st
    = {| MenuPage.menuItems := JArr (map JObj items);
         MenuPage.offers := JArr (map JObj deals);
         MenuPage.error := None; MenuPage.load_toasts := [];
         MenuPage.isLoading := false |}
    /\ (List.length items <= 100)%nat
    /\ (forall r, In r items ->
          In r (rows (menuItems st)) /\ JS.get r "availability" = JBool true)
    /\ (List.length deals <= 10)%nat
    /\ (forall r, In r deals ->
          In r (rows (offers st))
          /\ exists from until,
               JS.get r "validFrom" = JStr from
               /\ JS.get r "validUntil" = JStr until
               /\ Str.leb from (now env) = true
               /\ Str.leb (now env) until = true).
Proof.
  unfold MenuPage.fetchData, MenuItemsRoute.GET, OffersRoute.GET, list_reply.
  cbn [param url_query MenuPage.menu_request MenuPage.offers_request searchParam
       String.eqb Ascii.eqb Bool.eqb present].
  cbv zeta.
  match goal with
  | |- context [Query.run env st ?q] =>
      destruct (run_regular env st q 100%nat 0%nat eq_refl eq_refl)
        as [items [-> [Hlen Hin]]]
  end.
  match goal with
  | |- context [Query.run env st ?q] =>
      destruct (run_regular env st q 10%nat 0%nat eq_refl eq_refl)
        as [deals [-> [Hlen' Hin']]]
  end.
  exists items, deals. cbn [try_catch snd ok resp_status json negb resp_body].
  split; [reflexivity|]. split; [exact Hlen|]. split; [|split; [exact Hlen'|]].
  - intros r Hr. destruct (Hin r Hr) as [H1 H2]. split; [exact H1|].
    cbn in H2. rewrite !andb_true_r in H2. now apply sql_eqb_true_bool.
  - intros r Hr. destruct (Hin' r Hr) as [H1 H2]. split; [exact H1|].
    cbn in H2. rewrite !andb_true_r in H2. apply andb_true_iff in H2 as [Hf Hu].
    destruct (JS.get r "validFrom") as [| | | |from| |]; try discriminate Hf.
    destruct (JS.get r "validUntil") as [| | | |until| |]; try discriminate Hu.
    exists from, until. auto.
Qed.

(** ** The kitchen display *)

Lemma in_loaded o p :
  In o (Kitchen.orders (Kitchen.loadOrders p))
  <-> In o (stored_list (Kitchen.stored_orders p))
      /\ (Kitchen.has_status "Confirmed" o || Kitchen.has_status "Preparing" o) = true.
Proof.
  unfold Kitchen.loadOrders. cbn [Kitchen.orders].
  rewrite <- in_rev, filter_In. reflexivity.
Qed.

Lemma has_status_set s s' o :
  Kitchen.has_status s (JS.set o "status" (JStr s')) = String.eqb s' s.
Proof. unfold Kitchen.has_status. rewrite get_set. reflexivity. Qed.

Lemma in_updated o id s p :
  In o (Kitchen.orders (Kitchen.updateOrderStatus id s p))
  <-> exists o0,
        In o0 (stored_list (Kitchen.stored_orders p))
        /\ o = (if strict_eq (JS.get o0 "id") id
                then JS.set o0 "status" (JStr s) else o0)
        /\ (Kitchen.has_status "Confirmed" o || Kitchen.has_status "Preparing" o) = true.
Proof.
  unfold Kitchen.updateOrderStatus. cbn [Kitchen.orders Kitchen.stored_orders].
  rewrite in_loaded. cbn [Kitchen.stored_orders stored_list].
  rewrite in_map_iff. split.
  - intros [[o0 [<- Hin]] Hs]. exists o0. auto.
  - intros [o0 [Hin [-> Hs]]]. split; [exists o0; auto | exact Hs].
Qed.

(** X20.  The two buttons of the kitchen display. "Start Preparing" leaves
    no order with the given id among the pending ones and shows every
    stored order with that id as being prepared; "Mark as Ready" takes
    every order with that id off the display; the orders with another id
    are displayed after either as they would be without it. *)
Theorem kitchen_buttons_move_the_order (id : JSValue) (p : Kitchen.Page) :
  let started := Kitchen.updateOrderStatus id "Preparing" p in
  let ready := Kitchen.updateOrderStatus id "Ready" p in
  (forall o, In o (Kitchen.confirmedOrders started) ->
     strict_eq (JS.get o "id") id = false)
  /\ (forall o, In o (stored_list (Kitchen.stored_orders p)) ->
        strict_eq (JS.get o "id") id = true ->
        In (JS.set o "status" (JStr "Preparing")) (Kitchen.preparingOrders started))
  /\ (forall o, In o (Kitchen.orders ready) -> strict_eq (JS.get o "id") id = false)
  /\ (forall o, strict_eq (JS.get o "id") id = false ->
        (In o (Kitchen.orders started) <-> In o (Kitchen.orders (Kitchen.loadOrders p)))
        /\ (In o (Kitchen.orders ready) <-> In o (Kitchen.orders (Kitchen.loadOrders p)))).
Proof.
  cbv zeta.
  assert (Hid : forall o s, JS.get (JS.set o "status" (JStr s)) "id" = JS.get o "id")
    by (intros; now rewrite get_set).
  assert (Hother : forall s o, strict_eq (JS.get o "id") id = false ->
            (In o (Kitchen.orders (Kitchen.updateOrderStatus id s p))
             <-> In o (Kitchen.orders (Kitchen.loadOrders p)))).
  { intros s o Ho. rewrite in_updated, in_loaded. split.
    - intros [o0 [Hin [He Hs]]].
      destruct (strict_eq (JS.get o0 "id") id) eqn:E0.
      + subst o. rewrite Hid in Ho. congruence.
      + subst o. auto.
    - intros [Hin Hs]. exists o. rewrite Ho. auto. }
  split; [|split; [|split]].
  - intros o Ho. unfold Kitchen.confirmedOrders in Ho.
    apply filter_In in Ho as [Ho Hc]. apply in_updated in Ho as [o0 [_ [He _]]].
    destruct (strict_eq (JS.get o0 "id") id) eqn:E0; subst o.
    + rewrite has_status_set in Hc. discriminate Hc.
    + exact E0.
  - intros o Hin Ho. unfold Kitchen.preparingOrders. apply filter_In. split.
    + apply in_updated. exists o. rewrite Ho. split; [exact Hin|].
      split; [reflexivity|]. rewrite !has_status_set. reflexivity.
    + apply has_status_set.
  - intros o Ho. apply in_updated in Ho as [o0 [_ [He Hs]]].
    destruct (strict_eq (JS.get o0 "id") id) eqn:E0; subst o.
    + rewrite !has_status_set in Hs. discriminate Hs.
    + exact E0.
  - intros o Ho. split; apply Hother; exact Ho.
Qed.

Lemma two_digits s :
  0 <= s < 60 -> String.length (Str.padStart0 2 (decimal s)) = 2%nat.
Proof.
  intros Hs.
  assert (H : forallb (fun k => Nat.eqb (String.length
                                           (Str.padStart0 2 (decimal (Z.of_nat k)))) 2)
                      (seq 0 60) = true) by (vm_compute; reflexivity).
  rewrite forallb_forall in H. specialize (H (Z.to_nat s)).
  rewrite Z2Nat.id in H by lia. apply Nat.eqb_eq, H, in_seq. lia.
Qed.

(** X21.  The waiting time shown for an order created at or before the
    current time reads [m:ss]: whole minutes, then the remaining whole
    seconds on two digits, below 60; together they are the elapsed whole
    seconds. *)
Theorem elapsed_time_reads_minutes_and_seconds (currentTime created : Z) :
  created <= currentTime ->
  exists m s,
    Kitchen.getElapsedTime currentTime (Some created)
    = decimal m ++ ":" ++ Str.padStart0 2 (decimal s)
    /\ 0 <= m /\ 0 <= s < 60
    /\ 60 * m + s = (currentTime - created) / 1000
    /\ String.length (Str.padStart0 2 (decimal s)) = 2%nat.
Proof.
  intros Hle. set (diff := currentTime - created).
  assert (Hd : 0 <= diff) by (unfold diff; lia).
  exists (diff / 60000), (Z.rem diff 60000 / 1000).
  rewrite Z.rem_mod_nonneg by lia.
  pose proof (Z.mod_pos_bound diff 60000 ltac:(lia)) as Hm.
  assert (Hs : 0 <= diff mod 60000 / 1000 < 60).
  { split; [apply Z.div_pos; lia | apply Z.div_lt_upper_bound; lia]. }
  split; [|split; [|split; [|split]]].
  - unfold Kitchen.getElapsedTime. fold diff. rewrite Z.rem_mod_nonneg by lia.
    reflexivity.
  - apply Z.div_pos; lia.
  - exact Hs.
  - rewrite (Z.div_mod diff 60000) at 3 by lia.
    replace (60000 * (diff / 60000) + diff mod 60000)
      with (diff mod 60000 + (60 * (diff / 60000)) * 1000) by lia.
    rewrite Z.div_add by lia. lia.
  - now apply two_digits.
Qed.

Lemma elapsed_time_reads_minutes_and_seconds_witness :
  exists m s,
    Kitchen.getElapsedTime 1714564925000 (Some 1714564800123)
    = decimal m ++ ":" ++ Str.padStart0 2 (decimal s)
    /\ 0 <= m /\ 0 <= s < 60
    /\ 60 * m + s = (1714564925000 - 1714564800123) / 1000
    /\ String.length (Str.padStart0 2 (decimal s)) = 2%nat.
Proof.
  apply (elapsed_time_reads_minutes_and_seconds 1714564925000 1714564800123).
  lia.
Defined.

(** ** The customer dashboard *)

(** X22.  The dashboard shows at most five orders, all stored with the
    customer's email, the most recently stored first: they are the end of
    the customer's stored orders, and all of them when there are at most
    five. Its "Total Orders" counts the orders shown, so never more than
    five, and "Active Orders" never more than that. *)
Theorem dashboard_shows_the_latest_five (customer : Obj)
  (stored : option (list Obj)) :
  let mine :=
    filter (fun order =>
              strict_eq (JS.get order "customerEmail") (JS.get customer "email"))
           (stored_list stored) in
  let shown := Dashboard.recentOrders customer stored in
  (forall o, In o shown -> In o mine)
  /\ (exists older,
        mine = (older ++ rev shown)%list
        /\ (older <> [] -> List.length shown = 5%nat))
  /\ (Dashboard.activeOrders shown <= Dashboard.totalOrders shown <= 5)%nat.
Proof.
  cbv zeta. unfold Dashboard.recentOrders. cbv zeta.
  set (mine := filter _ (stored_list stored)).
  split; [|split].
  - intros o Ho. apply in_firstn in Ho. now apply in_rev.
  - exists (rev (skipn 5 (rev mine))). split.
    + rewrite <- rev_app_distr, firstn_skipn. now rewrite rev_involutive.
    + intros Hne. rewrite length_firstn.
      destruct (Nat.le_gt_cases 5 (List.length (rev mine))) as [H|H]; [lia|].
      exfalso. apply Hne. rewrite skipn_all2 by lia. reflexivity.
  - unfold Dashboard.activeOrders, Dashboard.totalOrders. split.
    + apply filter_length_le.
    + rewrite length_firstn. lia.
Qed.

(** ** Signing up and logging in *)

Lemma strict_eq_str v s : strict_eq v (JStr s) = true <-> v = JStr s.
Proof.
  destruct v; simpl; split; try discriminate.
  - intros H. apply String.eqb_eq in H. now subst.
  - intros [= ->]. apply String.eqb_refl.
Qed.

Lemma find_customer_app email cs c :
  Auth.find_customer email cs = None ->
  JS.get c "email" = JStr email ->
  Auth.find_customer email (cs ++ [c]) = Some c.
Proof.
  unfold Auth.find_customer. intros Hnone He.
  induction cs as [|x cs IH]; simpl in *.
  - rewrite He. simpl. now rewrite String.eqb_refl.
  - destruct (strict_eq (JS.get x "email") (JStr email)); [discriminate|].
    now apply IH.
Qed.

(** X23.  A customer who has just signed up can log in: with the same email
    and password the login enters the menu as the customer that the sign-up
    stored; with any other password it is refused and nobody is entered. *)
Theorem signup_then_login (clock_ms : Z) (clock_iso name email password : string)
  (s : Auth.Session) :
  (6 <= Str.length password)%nat ->
  Auth.find_customer email (stored_list (Auth.customers s)) = None ->
  let s1 := Auth.signup clock_ms clock_iso Auth.RoleCustomer name email
              password password s in
  let account : Obj :=
    [ ("id", JStr (decimal clock_ms)); ("name", JStr name);
      ("email", JStr email); ("password", JStr password);
      ("role", JStr "customer"); ("createdAt", JStr clock_iso) ] in
  Auth.customers s1 = Some (stored_list (Auth.customers s) ++ [account])%list
  /\ Auth.current s1 = Some account
  /\ (let s2 := Auth.login Auth.RoleCustomer email password s1 in
      Auth.current s2 = Some account /\ Auth.route s2 = Some "/menu"
      /\ Auth.customers s2 = Auth.customers s1)
  /\ (forall other, other <> password ->
        let s2 := Auth.login Auth.RoleCustomer email other s1 in
        Auth.current s2 = Auth.current s1 /\ Auth.route s2 = Auth.route s1
        /\ Auth.customers s2 = Auth.customers s1
        /\ Auth.toasts s2
           = (Auth.toasts s1 ++ [ToastError "Invalid email or password"])%list).
Proof.
  intros Hlen Hnone. cbv zeta.
  assert (Hs1 : Auth.signup clock_ms clock_iso Auth.RoleCustomer name email
                  password password s
                = Auth.enter
                    [ ("id", JStr (decimal clock_ms)); ("name", JStr name);
                      ("email", JStr email); ("password", JStr password);
                      ("role", JStr "customer"); ("createdAt", JStr clock_iso) ]
                    "Account created successfully!" "/menu"
                    {| Auth.customers :=
                         Some (stored_list (Auth.customers s)
                               ++ [ [ ("id", JStr (decimal clock_ms)); ("name", JStr name);
                                      ("email", JStr email); ("password", JStr password);
                                      ("role", JStr "customer");
                                      ("createdAt", JStr clock_iso) ] ])%list;
                       Auth.current := Auth.current s; Auth.toasts := Auth.toasts s;
                       Auth.route := Auth.route s; Auth.isLoading := true |}).
  { unfold Auth.signup. rewrite String.eqb_refl. cbn [negb].
    destruct (Nat.ltb_spec (Str.length password) 6) as [H|_]; [lia|].
    cbn [Auth.setIsLoading Auth.customers]. rewrite Hnone. reflexivity. }
  rewrite Hs1. clear Hs1.
  split; [reflexivity|]. split; [reflexivity|].
  assert (Hfind : forall l t r, Auth.find_customer email
            (stored_list (Auth.customers
               (Auth.setIsLoading l
                  (Auth.enter
                     [ ("id", JStr (decimal clock_ms)); ("name", JStr name);
                       ("email", JStr email); ("password", JStr password);
                       ("role", JStr "customer"); ("createdAt", JStr clock_iso) ]
                     t r
                     {| Auth.customers :=
                          Some (stored_list (Auth.customers s)
                                ++ [ [ ("id", JStr (decimal clock_ms)); ("name", JStr name);
                                       ("email", JStr email); ("password", JStr password);
                                       ("role", JStr "customer");
                                       ("createdAt", JStr clock_iso) ] ])%list;
                        Auth.current := Auth.current s; Auth.toasts := Auth.toasts s;
                        Auth.route := Auth.route s; Auth.isLoading := true |}))))
          = Some [ ("id", JStr (decimal clock_ms)); ("name", JStr name);
                   ("email", JStr email); ("password", JStr password);
                   ("role", JStr "customer"); ("createdAt", JStr clock_iso) ]).
  { intros. cbn [Auth.enter Auth.setIsLoading Auth.customers Auth.toast stored_list].
    apply find_customer_app; [exact Hnone | reflexivity]. }
  split.
  - unfold Auth.login. rewrite Hfind.
    cbn [JS.get String.eqb Ascii.eqb Bool.eqb strict_eq]. rewrite String.eqb_refl.
    cbn [negb]. repeat split.
  - intros other Hother. unfold Auth.login. rewrite Hfind.
    cbn [JS.get String.eqb Ascii.eqb Bool.eqb strict_eq].
    destruct (String.eqb_spec password other) as [He|_]; [congruence|].
    cbn [negb]. repeat split.
Qed.

Lemma signup_then_login_witness :
  let s := {| Auth.customers := None; Auth.current := None; Auth.toasts := [];
              Auth.route := None; Auth.isLoading := false |} in
  let s1 := Auth.signup 1714564800123 "2024-05-01T12:00:00.123Z"
              Auth.RoleCustomer "Ann" "ann@example.com" "secret1" "secret1" s in
  Auth.route (Auth.login Auth.RoleCustomer "ann@example.com" "secret1" s1)
  = Some "/menu"
  /\ Auth.current (Auth.login Auth.RoleCustomer "ann@example.com" "secret2" s1)
     = Auth.current s1.
Proof.
  cbv zeta.
  destruct (signup_then_login 1714564800123 "2024-05-01T12:00:00.123Z" "Ann"
              "ann@example.com" "secret1"
              {| Auth.customers := None; Auth.current := None; Auth.toasts := [];
                 Auth.route := None; Auth.isLoading := false |})
    as [_ [_ [[_ [Hr _]] Hw]]].
  - simpl. lia.
  - reflexivity.
  - split; [exact Hr|]. apply (Hw "secret2"). discriminate.
Defined.

Lemma find_customer_none email cs :
  Auth.find_customer email cs = None ->
  ~ In (JStr email) (map (fun c => JS.get c "email") cs).
Proof.
  unfold Auth.find_customer. intros H Hin.
  apply in_map_iff in Hin as [c [He Hin]].
  pose proof (find_none _ _ H c Hin) as Hn. simpl in Hn.
  rewrite He in Hn. simpl in Hn. now rewrite String.eqb_refl in Hn.
Qed.

(** X24.  Signing up keeps the registered accounts as they are and adds at
    most one, at the end; no email is registered twice; logging in
    registers nothing. *)
Theorem accounts_are_registered_once (clock_ms : Z) (clock_iso : string)
  (role : Auth.Role) (name email password confirmPassword : string)
  (s : Auth.Session) :
  NoDup (registered_emails s) ->
  let s1 := Auth.signup clock_ms clock_iso role name email password
              confirmPassword s in
  NoDup (registered_emails s1)
  /\ (exists added,
        stored_list (Auth.customers s1)
        = (stored_list (Auth.customers s) ++ added)%list
        /\ (List.length added <= 1)%nat)
  /\ Auth.customers (Auth.login role email password s) = Auth.customers s.
Proof.
  intros Hnd. cbv zeta.
  assert (Hsame : forall m, Auth.customers (Auth.refuse m (Auth.setIsLoading true s))
                            = Auth.customers s) by reflexivity.
  assert (Henter : forall u m path, Auth.customers (Auth.enter u m path (Auth.setIsLoading true s))
                                    = Auth.customers s) by reflexivity.
  assert (Hkeep : forall s', Auth.customers s' = Auth.customers s ->
            NoDup (registered_emails s')
            /\ exists added,
                 stored_list (Auth.customers s')
                 = (stored_list (Auth.customers s) ++ added)%list
                 /\ (List.length added <= 1)%nat).
  { intros s' H. unfold registered_emails. rewrite H. split; [exact Hnd|].
    exists []. rewrite app_nil_r. split; [reflexivity | simpl; lia]. }
  split; [|split].
  1,2: unfold Auth.signup;
    destruct (negb (String.eqb password confirmPassword)); [apply Hkeep, Hsame|];
    destruct (Nat.ltb (Str.length password) 6); [apply Hkeep, Hsame|];
    destruct role;
    [ | destruct (String.eqb password Auth.KITCHEN_PASSWORD);
        apply Hkeep; [apply Henter | apply Hsame]
      | destruct (String.eqb password Auth.ADMIN_PASSWORD);
        apply Hkeep; [apply Henter | apply Hsame] ];
    cbn [Auth.setIsLoading Auth.customers];
    (destruct (Auth.find_customer email (stored_list (Auth.customers s))) eqn:E;
     [apply Hkeep, Hsame|]).
  - unfold registered_emails. cbn [Auth.enter Auth.customers Auth.toast stored_list].
    rewrite map_app. apply NoDup_app; [exact Hnd | repeat constructor; intros [] |].
    intros x Hx [<-|[]]. exact (find_customer_none _ _ E Hx).
  - cbn [Auth.enter Auth.customers Auth.toast stored_list].
    eexists. split; [reflexivity | simpl; lia].
  - unfold Auth.login. destruct role.
    + cbn [Auth.setIsLoading Auth.customers].
      destruct (Auth.find_customer email (stored_list (Auth.customers s))); [|reflexivity].
      destruct (negb _); reflexivity.
    + destruct (String.eqb password Auth.KITCHEN_PASSWORD); reflexivity.
    + destruct (String.eqb password Auth.ADMIN_PASSWORD); reflexivity.
Qed.

Lemma accounts_are_registered_once_witness :
  NoDup (registered_emails
           (Auth.signup 1714564800123 "2024-05-01T12:00:00.123Z" Auth.RoleCustomer
              "Ann" "ann@example.com" "secret1" "secret1" nobody))
  /\ (exists added,
        stored_list
          (Auth.customers
             (Auth.signup 1714564800123 "2024-05-01T12:00:00.123Z"
                Auth.RoleCustomer "Ann" "ann@example.com" "secret1" "secret1"
                nobody))
        = (stored_list (Auth.customers nobody) ++ added)%list
        /\ (List.length added <= 1)%nat)
  /\ Auth.customers (Auth.login Auth.RoleCustomer "ann@example.com" "secret1" nobody)
     = Auth.customers nobody.
Proof.
  apply (accounts_are_registered_once 1714564800123 "2024-05-01T12:00:00.123Z"
           Auth.RoleCustomer "Ann" "ann@example.com" "secret1" "secret1" nobody).
  constructor.
Defined.

(** ** Rules that every stored row obeys *)

Lemma get_has u k : JS.get u k <> JUndefined -> JS.has u k = true.
Proof.
  unfold JS.has. induction u as [|[k0 v0] u IH]; simpl; [congruence|].
  destruct (String.eqb k k0); simpl; auto.
Qed.

Lemma get_new_row sch id values k :
  k <> "id" ->
  JS.get (Db.new_row sch id values) k
  = match find (fun c => String.eqb k (col_name c)) (tbl_columns sch) with
    | Some c => Db.bound_value values c
    | None => JUndefined
    end.
Proof.
  intros Hk. unfold Db.new_row. simpl.
  destruct (String.eqb_spec k "id"); [congruence|].
  induction (tbl_columns sch) as [|c cs IH]; simpl; [reflexivity|].
  destruct (String.eqb k (col_name c)); [reflexivity | exact IH].
Qed.

Section Rules.

Variable ok : Rule.

(** A rule either asks nothing of a name, or the name is a column that
    is NOT NULL with no default, or one whose default obeys the rule. *)
Hypothesis ok_columns : forall t k,
  (forall v, ok t k v = true)
  \/ (k <> "id"
      /\ exists c,
           find (fun c' => String.eqb k (col_name c')) (tbl_columns (schema t)) = Some c
           /\ ((col_notnull c = true /\ col_default c = None)
               \/ exists d, col_default c = Some d /\ ok t k d = true)).

Lemma sets_obey_nil t : sets_obey ok t [].
Proof. intros k H. discriminate H. Qed.

Lemma sets_obey_cons t k v u :
  ok t k v = true -> sets_obey ok t u -> sets_obey ok t ((k, v) :: u).
Proof.
  intros Hv Hu k'. unfold JS.has. simpl.
  destruct (String.eqb_spec k' k) as [->|Hne]; simpl; [auto|]. apply Hu.
Qed.

Lemma sets_obey_set t k v u :
  ok t k v = true -> sets_obey ok t u -> sets_obey ok t (JS.set u k v).
Proof.
  intros Hv Hu k'. rewrite has_set, get_set.
  destruct (String.eqb_spec k' k) as [->|Hne]; simpl; [auto|]. apply Hu.
Qed.

Lemma new_row_obeys t id values :
  sets_obey ok t values ->
  Db.null_violation (schema t) (Db.new_row (schema t) id values) = None ->
  forall k, ok t k (JS.get (Db.new_row (schema t) id values) k) = true.
Proof.
  intros Hv Hnull k.
  destruct (ok_columns t k) as [Hfree|[Hid [c [Hfind Hc]]]]; [apply Hfree|].
  pose proof (find_some _ _ Hfind) as [Hin Hname]. apply String.eqb_eq in Hname.
  rewrite get_new_row by exact Hid. rewrite Hfind. unfold Db.bound_value.
  destruct (JS.get values (col_name c)) eqn:E;
    try (rewrite <- E, <- Hname; apply Hv, get_has; rewrite Hname, E; discriminate).
  destruct Hc as [[Hnn Hdef]|[d [Hdef Hd]]].
  - exfalso. pose proof (find_none _ _ Hnull c Hin) as H. cbv beta in H.
    rewrite Hnn in H. rewrite <- Hname in H.
    rewrite get_new_row in H by exact Hid. rewrite Hfind in H.
    unfold Db.bound_value in H. rewrite E, Hdef in H. discriminate H.
  - rewrite Hdef. exact Hd.
Qed.

Lemma insert_obeys st t values st' rs :
  rows_obey ok st -> sets_obey ok t values ->
  Db.insert st t values = inr (st', rs) -> rows_obey ok st'.
Proof.
  intros Hinv Hv H.
  pose proof (fun t' => frame_insert _ _ _ _ _ t' H) as Hframe.
  destruct (insert_rows _ _ _ _ _ H) as [Hrows _].
  assert (Hnull : Db.null_violation (schema t)
                    (Db.new_row (schema t) (next_id (table st t)) values) = None).
  { unfold Db.insert in H. destruct (Db.null_violation _ _); [discriminate | reflexivity]. }
  intros t' r k Hin. destruct (TableId_eq_dec t' t) as [->|Hne].
  - rewrite Hrows in Hin. apply in_app_iff in Hin as [Hin|[<-|[]]].
    + now apply Hinv.
    + now apply new_row_obeys.
  - rewrite (Hframe t' Hne) in Hin. now apply Hinv.
Qed.

Lemma update_obeys st t changes id st' rs :
  rows_obey ok st -> sets_obey ok t changes ->
  Db.update st t changes id = inr (st', rs) -> rows_obey ok st'.
Proof.
  intros Hinv Hv H.
  pose proof (fun t' => frame_update _ _ _ _ _ _ t' H) as Hframe.
  destruct (update_rows _ _ _ _ _ _ H) as [Hrows _].
  intros t' r k Hin. destruct (TableId_eq_dec t' t) as [->|Hne].
  - rewrite Hrows in Hin. apply in_map_iff in Hin as [r0 [<- Hin]].
    destruct (Db.has_id id r0); [|now apply Hinv].
    rewrite get_assign. destruct (JS.has changes k) eqn:E; [now apply Hv | now apply Hinv].
  - rewrite (Hframe t' Hne) in Hin. now apply Hinv.
Qed.

Lemma delete_obeys st t id st' rs :
  rows_obey ok st -> Db.delete st t id = (st', rs) -> rows_obey ok st'.
Proof.
  intros Hinv H.
  pose proof (fun t' => frame_delete _ _ _ _ _ t' H) as Hframe.
  destruct (delete_rows _ _ _ _ _ H) as [Hrows _].
  intros t' r k Hin. destruct (TableId_eq_dec t' t) as [->|Hne].
  - rewrite Hrows in Hin. apply filter_In in Hin as [Hin _]. now apply Hinv.
  - rewrite (Hframe t' Hne) in Hin. now apply Hinv.
Qed.

End Rules.

(** A name the rule constrains is a column of the table, NOT NULL with
    no default or with a default that obeys the rule. *)
Ltac constrained_column :=
  right; split; [discriminate|]; eexists; split; [reflexivity|];
  first [ left; split; reflexivity
        | right; eexists; split; reflexivity ].

Lemma amount_columns t k :
  (forall v, amount_ok t k v = true)
  \/ (k <> "id"
      /\ exists c,
           find (fun c' => String.eqb k (col_name c')) (tbl_columns (schema t)) = Some c
           /\ ((col_notnull c = true /\ col_default c = None)
               \/ exists d, col_default c = Some d /\ amount_ok t k d = true)).
Proof.
  pose (names := ["discountPercent"; "subtotal"; "finalAmount"; "discount";
                  "price"; "quantity"; "amountPaid"]).
  destruct (in_dec String.string_dec k names) as [Hk|Hk].
  - simpl in Hk.
    destruct t; repeat (destruct Hk as [<-|Hk]; [ | ]); try contradiction;
      first [ left; intros v; reflexivity | constrained_column ].
  - left. intros v.
    assert (Hne : forall n, In n names -> String.eqb k n = false).
    { intros n Hn. destruct (String.eqb_spec k n); [subst; contradiction | reflexivity]. }
    destruct t; unfold amount_ok; rewrite ?Hne by (simpl; tauto); reflexivity.
Qed.

Lemma text_columns t k :
  (forall v, text_ok t k v = true)
  \/ (k <> "id"
      /\ exists c,
           find (fun c' => String.eqb k (col_name c')) (tbl_columns (schema t)) = Some c
           /\ ((col_notnull c = true /\ col_default c = None)
               \/ exists d, col_default c = Some d /\ text_ok t k d = true)).
Proof.
  unfold text_ok. destruct (existsb (String.eqb k) (required_text t)) eqn:E.
  - apply existsb_exists in E as [n [Hn He]]. apply String.eqb_eq in He. subst n.
    destruct t; simpl in Hn; repeat (destruct Hn as [<-|Hn]; [ | ]); try contradiction;
      constrained_column.
  - left. reflexivity.
Qed.

(** One step along a body that builds the object it writes, [Inv] being
    kept by the steps that extend the object. *)
Ltac object_step Inv leaf :=
  lazymatch goal with
  | |- flow_sat _ _ (bind (request_json _) _) =>
      apply sat_bind; [apply sat_request_json | intros ?]
  | |- flow_sat _ _ (bind (destructure _) _) =>
      apply sat_bind; [apply sat_destructure | intros ?]
  | |- flow_sat _ _ (bind (trim_of _) _) =>
      apply sat_bind; [apply sat_trim_of | intros ?]
  | |- flow_sat _ _ (bind (trims_to_empty _) _) =>
      apply sat_bind; [apply sat_trims_to_empty | intros ?]
  | |- flow_sat _ _ (bind (blank _) _) =>
      apply sat_bind; [apply sat_blank | intros ?]
  | |- flow_sat _ _ (bind (trimmed_or_null _) _) =>
      apply sat_bind; [apply sat_trimmed_or_null | intros ?]
  | |- flow_sat _ _ (bind _ _) =>
      apply (sat_bind_with Inv); [ | intros ? ?]
  | |- flow_sat _ _ (if ?c then _ else _) => destruct c eqn:?
  | |- flow_sat _ _ (match ?x with _ => _ end) => destruct x eqn:?
  | |- flow_sat _ _ (list_reply _ _ _) => unfold list_reply
  | |- flow_sat _ _ (Throw _) => exact I
  | |- flow_sat _ _ (Reply _) => simpl; leaf
  | |- flow_sat _ _ (Next _) => simpl; leaf
  end.

Ltac object_paths Inv leaf := cbv zeta; repeat (object_step Inv leaf; cbv zeta).

(** The conditions a path has passed, one boolean fact each. *)
Ltac split_facts :=
  repeat match goal with
         | H : _ || _ = false |- _ => apply orb_false_iff in H; destruct H
         | H : _ && _ = true |- _ => apply andb_true_iff in H; destruct H
         | H : negb _ = false |- _ => apply negb_false_iff in H
         | H : negb _ = true |- _ => apply negb_true_iff in H
         | H : true && _ = _ |- _ => cbn [andb] in H
         | H : false || _ = _ |- _ => cbn [orb] in H
         | H : ?c = _, H' : context [?c] |- _ =>
             lazymatch type of H' with
             | c = _ => fail
             | _ => rewrite H in H'
             end
         end.


Ltac obeys_goal rule_goal :=
  repeat match goal with
         | |- context [if ?c then _ else _] => destruct c eqn:?
         end;
  repeat first
    [ assumption
    | apply sets_obey_nil
    | apply sets_obey_set; [rule_goal|]
    | apply sets_obey_cons; [rule_goal|] ].

Ltac obeys_leaf columns Hinv prepare rule_goal :=
  idtac;
  lazymatch goal with
  | |- sets_obey _ _ _ => prepare; obeys_goal rule_goal
  | |- rows_obey _ _ =>
      first
        [ exact Hinv
        | subst;
          match goal with
          | E : Db.delete _ _ _ = _ |- _ =>
              refine (delete_obeys _ _ _ _ _ _ Hinv E)
          | E : Db.insert _ ?t ?v = inr _ |- _ =>
              refine (insert_obeys _ columns _ t v _ _ Hinv _ E);
              prepare; obeys_goal rule_goal
          | E : Db.update _ ?t ?v _ = inr _ |- _ =>
              refine (update_obeys _ _ t v _ _ _ Hinv _ E);
              prepare; obeys_goal rule_goal
          end ]
  end.

(** ** The numbers stored *)

Ltac amount_goal :=
  idtac;
  lazymatch goal with
  | |- amount_ok ?t ?k ?v = true =>
      first
        [ reflexivity
        | unfold amount_ok, positive; cbn [String.eqb Ascii.eqb Bool.eqb];
          split_facts;
          repeat match goal with
                 | H : ?c = _ |- context [?c] => rewrite H
                 end;
          reflexivity ]
  end.

Ltac each_table tac :=
  match goal with
  | |- flow_sat _ _ ?body =>
      match body with
      | context [Shops] => tac Shops
      | context [Customers] => tac Customers
      | context [MenuItems] => tac MenuItems
      | context [Offers] => tac Offers
      | context [Orders] => tac Orders
      | context [OrderItems] => tac OrderItems
      | context [Payments] => tac Payments
      | context [Receipts] => tac Receipts
      end
  end.

Lemma amounts_kept t m env st req :
  rows_obey amount_ok st -> rows_obey amount_ok (fst (api t m env st req)).
Proof.
  intros Hinv.
  destruct t, m; cbv [api];
  match goal with |- rows_obey _ (fst (?h _ _ _)) => unfold h end.
  all: apply (sat_try_catch (fun out => rows_obey amount_ok (fst out)));
    [ | intros; exact Hinv ].
  all: each_table ltac:(fun T =>
         object_paths (sets_obey amount_ok T)
           ltac:(obeys_leaf amount_columns Hinv idtac amount_goal)).
Qed.

Lemma reachable_amounts_valid st : reachable st -> rows_obey amount_ok st.
Proof.
  induction 1 as [|st t m env req _ IH].
  - intros [] r k [].
  - now apply amounts_kept.
Qed.

(** X25.  In every store the API can produce from the empty database, the
    numeric columns hold what the handlers let through: an offer's
    [discountPercent] is a number from 0 to 100; an order's [subtotal] and
    [finalAmount] are positive numbers and its [discount] a number not
    below 0; a menu item's [price] converts to a positive number; an order
    item's [quantity] is a positive integer and its [price] a positive
    number; a payment's [amountPaid] is a positive number. *)
Theorem stored_amounts_are_valid (st : Store) (t : TableId) (r : Obj)
  (k : string) :
  reachable st -> In r (rows (table st t)) ->
  amount_ok t k (JS.get r k) = true.
Proof. intros Hr Hin. now apply (reachable_amounts_valid st Hr). Qed.

Lemma stored_amounts_are_valid_witness :
  exists r,
    rows (table one_order Orders) = [r]
    /\ amount_ok Orders "finalAmount" (JS.get r "finalAmount") = true.
Proof.
  eexists. split; [reflexivity|].
  apply (stored_amounts_are_valid one_order Orders _ "finalAmount").
  - exact (reach_step empty_store Orders POST sample_env
             (post (order_body sample_form sample_readings)) reach_empty).
  - left. reflexivity.
Defined.

(** ** What a create and an update may set *)

Ltac stamped_goal :=
  repeat match goal with
         | |- context [if ?c then _ else _] => destruct c
         end;
  rewrite ?get_set; simpl; first [assumption | reflexivity].

Ltac stamped_leaf :=
  idtac;
  lazymatch goal with
  | |- _ -> _ =>
      let Hs := fresh "Hs" in
      intros Hs;
      first
        [ discriminate Hs
        | subst;
          lazymatch goal with
          | E : Db.insert _ _ ?v = inr (_, _) |- _ =>
              destruct (insert_rows _ _ _ _ _ E) as [_ ->];
              exists v; eexists; split; [exact E|]; split; [reflexivity|];
              stamped_goal
          end ]
  | |- _ => stamped_goal
  end.

Lemma POST_stamps t env st req :
  resp_status (snd (api t POST env st req)) = 201 ->
  exists values row,
    Db.insert st t values = inr (fst (api t POST env st req), [row])
    /\ snd (api t POST env st req) = json (JObj row) 201
    /\ JS.get values "createdAt" = JStr (now env).
Proof.
  destruct t; cbv [api];
  match goal with |- resp_status (snd (?h _ _ _)) = _ -> _ => unfold h end.
  all: apply (sat_try_catch
                (fun out => resp_status (snd out) = 201 ->
                   exists values row,
                     Db.insert st _ values = inr (fst out, [row])
                     /\ snd out = json (JObj row) 201
                     /\ JS.get values "createdAt" = JStr (now env)));
    [ object_paths (fun u : Obj => JS.get u "createdAt" = JStr (now env)) stamped_leaf
    | intros e; simpl; unfold CustomersRoute.duplicate_email_or_internal;
      try destruct (_ || _); simpl; discriminate ].
Qed.

Lemma created_at_bound t id values v :
  JS.get values "createdAt" = JStr v ->
  JS.get (Db.new_row (schema t) id values) "createdAt" = JStr v.
Proof.
  intros H. rewrite get_new_row by discriminate.
  destruct t; simpl; unfold Db.bound_value; simpl; now rewrite H.
Qed.

(** X26.  The id and the creation time of a record are the server's: a
    create answered 201 appends one row, which is the body of the response;
    its [id] is the table's next id, which moves on by one, and its
    [createdAt] is the handler's current time, whatever the request carries
    under those names. *)
Theorem server_assigns_id_and_time (t : TableId) (env : Env) (st : Store)
  (req : Request) :
  resp_status (snd (api t POST env st req)) = 201 ->
  let st' := fst (api t POST env st req) in
  exists row,
    resp_body (snd (api t POST env st req)) = JObj row
    /\ rows (table st' t) = (rows (table st t) ++ [row])%list
    /\ next_id (table st' t) = next_id (table st t) + 1
    /\ JS.get row "id" = JS.num (next_id (table st t))
    /\ JS.get row "createdAt" = JStr (now env).
Proof.
  intros Hs st'. destruct (POST_stamps t env st req Hs) as [values [row [Hins [Hresp Hat]]]].
  fold st' in Hins. destruct (insert_rows _ _ _ _ _ Hins) as [Hrows Hrow].
  injection Hrow as ->. eexists. rewrite Hresp. split; [reflexivity|].
  split; [exact Hrows|]. split; [|split; [reflexivity | now apply created_at_bound]].
  unfold Db.insert in Hins. destruct (Db.null_violation _ _); [discriminate|].
  destruct (Db.unique_violation _ _ _); [discriminate|].
  injection Hins as <-. now rewrite table_with_same.
Qed.

Lemma server_assigns_id_and_time_witness :
  exists row,
    resp_body (snd (api Customers POST sample_env empty_store alice)) = JObj row
    /\ rows (table one_customer Customers) = ([] ++ [row])%list
    /\ next_id (table one_customer Customers) = 1 + 1
    /\ JS.get row "id" = JS.num 1
    /\ JS.get row "createdAt" = JStr (now sample_env).
Proof.
  apply (server_assigns_id_and_time Customers sample_env empty_store alice).
  reflexivity.
Defined.

Ltac identity_goal :=
  unfold keeps_identity in *;
  repeat match goal with
         | |- context [if ?c then _ else _] => destruct c
         end;
  rewrite ?has_set; simpl;
  first [assumption | split; reflexivity | tauto].

Ltac identity_leaf :=
  idtac;
  lazymatch goal with
  | |- _ -> _ =>
      let Hs := fresh "Hs" in
      intros Hs;
      first
        [ discriminate Hs
        | left; reflexivity
        | subst; right;
          lazymatch goal with
          | E : Db.update _ _ ?ch _ = inr (_, _) |- _ =>
              exists ch; eexists; split; [exact E | identity_goal]
          end ]
  | |- _ => identity_goal
  end.

Lemma PUT_keeps_identity t env st req :
  resp_status (snd (api t PUT env st req)) = 200 ->
  fst (api t PUT env st req) = st
  \/ exists changes rs,
       Db.update st t changes (id_of (param req "id"))
       = inr (fst (api t PUT env st req), rs)
       /\ keeps_identity changes.
Proof.
  destruct t; cbv [api];
  match goal with |- resp_status (snd (?h _ _ _)) = _ -> _ => unfold h end.
  all: apply (sat_try_catch
                (fun out => resp_status (snd out) = 200 ->
                   fst out = st
                   \/ exists changes rs,
                        Db.update st _ changes (id_of (param req "id"))
                        = inr (fst out, rs)
                        /\ keeps_identity changes));
    [ object_paths keeps_identity identity_leaf
    | intros e; simpl; unfold CustomersRoute.duplicate_email_or_internal;
      try destruct (_ || _); simpl; discriminate ].
Qed.

(** X27.  An update answered 200 adds and removes no record and assigns no
    id: the table keeps its rows in place and its next id; every row keeps
    its [id] and its [createdAt]; a row with another id than the one
    addressed is left as it was. *)
Theorem updates_keep_identity (t : TableId) (env : Env) (st : Store)
  (req : Request) :
  resp_status (snd (api t PUT env st req)) = 200 ->
  let st' := fst (api t PUT env st req) in
  next_id (table st' t) = next_id (table st t)
  /\ Forall2 (fun r r' =>
                JS.get r' "id" = JS.get r "id"
                /\ JS.get r' "createdAt" = JS.get r "createdAt"
                /\ (Db.has_id (id_of (param req "id")) r = false -> r' = r))
             (rows (table st t)) (rows (table st' t)).
Proof.
  intros Hs st'.
  assert (Hsame : forall rs : list Obj,
            Forall2 (fun r r' =>
                JS.get r' "id" = JS.get r "id"
                /\ JS.get r' "createdAt" = JS.get r "createdAt"
                /\ (Db.has_id (id_of (param req "id")) r = false -> r' = r)) rs rs).
  { induction rs; constructor; auto. }
  destruct (PUT_keeps_identity t env st req Hs) as [H|[changes [rs [H [Hid Hat]]]]];
    fold st' in H.
  - rewrite H. split; [reflexivity | apply Hsame].
  - destruct (update_rows _ _ _ _ _ _ H) as [Hrows _]. split.
    + unfold Db.update in H. destruct (JS.no_keys _); [discriminate|].
      destruct (filter _ _); [injection H as <- _; reflexivity|].
      destruct (Db.nulled_column _ _); [discriminate|].
      destruct (Db.collided_column _ _ _); [discriminate|].
      injection H as <- _. now rewrite table_with_same.
    + rewrite Hrows. clear Hrows.
      induction (rows (table st t)) as [|r l IH]; simpl; constructor; [|exact IH].
      destruct (Db.has_id _ r).
      * rewrite !get_assign, Hid, Hat. repeat split. discriminate.
      * auto.
Qed.

Lemma updates_keep_identity_witness :
  let st' := fst (api Orders PUT sample_env one_order (set_status "Ready")) in
  next_id (table st' Orders) = next_id (table one_order Orders)
  /\ Forall2 (fun r r' =>
                JS.get r' "id" = JS.get r "id"
                /\ JS.get r' "createdAt" = JS.get r "createdAt"
                /\ (Db.has_id (id_of (param (set_status "Ready") "id")) r = false
                    -> r' = r))
             (rows (table one_order Orders)) (rows (table st' Orders)).
Proof.
  apply (updates_keep_identity Orders sample_env one_order (set_status "Ready")).
  reflexivity.
Defined.

(** ** Changing a customer's email *)

Lemma count_two (f : Obj -> bool) (p : Obj -> bool) (g : Obj -> Obj) rs a b :
  In a rs -> In b rs -> p a = true -> p b = false ->
  f (g a) = true -> f b = true ->
  (2 <= List.length (filter f (map (fun r => if p r then g r else r) rs)))%nat.
Proof.
  intros Ha Hb Hpa Hpb Hfa Hfb.
  assert (H1 : forall l, In a l ->
            (1 <= List.length (filter f (map (fun r => if p r then g r else r) l)))%nat).
  { induction l as [|x l IH]; [contradiction|]. simpl. intros [->|Hin].
    - rewrite Hpa, Hfa. simpl. lia.
    - specialize (IH Hin). destruct (f (if p x then g x else x)); simpl; lia. }
  assert (H2 : forall l, In b l ->
            (1 <= List.length (filter f (map (fun r => if p r then g r else r) l)))%nat).
  { induction l as [|x l IH]; [contradiction|]. simpl. intros [->|Hin].
    - rewrite Hpb, Hfb. simpl. lia.
    - specialize (IH Hin). destruct (f (if p x then g x else x)); simpl; lia. }
  induction rs as [|x rs IH]; [contradiction|]. simpl.
  destruct Ha as [->|Ha], Hb as [->|Hb].
  - congruence.
  - rewrite Hpa, Hfa. simpl. specialize (H2 rs Hb). lia.
  - rewrite Hpb, Hfb. simpl. specialize (H1 rs Ha). lia.
  - specialize (IH Ha Hb). destruct (f (if p x then g x else x)); simpl; lia.
Qed.

(** X28.  Changing a customer's email to the email of another customer, in
    any letter case and with any white space around it, is refused with 400
    DUPLICATE_EMAIL and writes nothing. *)
Theorem email_update_conflict (env : Env) (st : Store) (req : Request)
  (e e0 : string) (other : Obj) :
  reachable st ->
  invalid_id (param req "id") = false ->
  addressed Customers st req ->
  req_body req = Json (JObj [("email", JStr e)]) ->
  In other (rows (customers st)) ->
  Db.has_id (id_of (param req "id")) other = false ->
  JS.get other "email" = JStr e0 ->
  Str.toLowerCase e0 = Str.toLowerCase (Str.trim e) ->
  e0 <> "" ->
  CustomersRoute.PUT env st req
  = (st, error_with_code "Email already exists" "DUPLICATE_EMAIL" 400).
Proof.
  intros Hr Hid Haddr Hb Hin Hother He0 Hlow Hne.
  destruct (reachable_emails_normal st Hr other e0 Hin He0) as [Hl0 _].
  assert (Hnorm : Str.toLowerCase (Str.trim e) = e0) by congruence.
  destruct (select_nonempty _ _ _ Haddr) as [r0 [rest [Hf Hsel]]].
  unfold CustomersRoute.PUT. rewrite Hid. cbv zeta. rewrite Hsel.
  cbn [is_nil]. unfold request_json. rewrite Hb.
  cbn [bind destructure JS.get String.eqb Ascii.eqb Bool.eqb JS.is_undefined negb
       JS.is_string orb CustomersRoute.empty_text JS.text].
  assert (Hempty : Str.is_empty (Str.trim e) = false).
  { destruct (Str.trim e) eqn:E; [|reflexivity]. simpl in Hnorm. congruence. }
  unfold CustomersRoute.empty_text, CustomersRoute.normalized_email.
  cbn [JS.text]. rewrite Hempty. cbn [bind JS.set JS.no_keys]. rewrite Hnorm.
  unfold Db.update. cbn [JS.no_keys]. rewrite Hf.
  change (Db.nulled_column (schema Customers) [("email", JStr e0)]) with (@None Column).
  unfold Db.collided_column. cbn [Db.unique_columns schema tbl_columns filter col_unique column find
    JS.has existsb fst col_name String.eqb Ascii.eqb Bool.eqb orb andb JS.get].
  assert (Hcount : (2 <= Db.count_holding
             (map (fun r => if Db.has_id (id_of (param req "id")) r
                            then Db.assign [("email", JStr e0)] r else r)
                  (rows (table st Customers)))
             (column "email" "email" true true None) (JStr e0))%nat).
  { unfold Db.count_holding.
    apply (count_two _ _ _ _ r0 other).
    - assert (H : In r0 (filter (Db.has_id (id_of (param req "id")))
                                (rows (table st Customers)))) by (rewrite Hf; now left).
      now apply filter_In in H.
    - exact Hin.
    - assert (H : In r0 (filter (Db.has_id (id_of (param req "id")))
                                (rows (table st Customers)))) by (rewrite Hf; now left).
      now apply filter_In in H.
    - exact Hother.
    - cbn [col_name column]. rewrite get_assign. simpl. apply String.eqb_refl.
    - cbn [col_name column]. rewrite He0. simpl. apply String.eqb_refl. }
  destruct (Nat.ltb_spec 1 (Db.count_holding
             (map (fun r => if Db.has_id (id_of (param req "id")) r
                            then Db.assign [("email", JStr e0)] r else r)
                  (rows (table st Customers)))
             (column "email" "email" true true None) (JStr e0))) as [_|H]; [|lia].
  reflexivity.
Qed.

Lemma email_update_conflict_witness :
  CustomersRoute.PUT sample_env two_customers
    (request [("id", "2")] [("email", JStr " ALICE@Example.com ")])
  = (two_customers, error_with_code "Email already exists" "DUPLICATE_EMAIL" 400).
Proof.
  apply (email_update_conflict sample_env two_customers
           (request [("id", "2")] [("email", JStr " ALICE@Example.com ")])
           " ALICE@Example.com " "alice@example.com"
           (nth 0 (rows (customers two_customers)) [])).
  - exact reachable_two_customers.
  - reflexivity.
  - discriminate.
  - reflexivity.
  - left. reflexivity.
  - reflexivity.
  - reflexivity.
  - reflexivity.
  - discriminate.
Defined.

(** ** The text stored *)

Lemma post_trim_of P v :
  flow_sat P (fun t => exists s, v = JStr s /\ t = Str.trim s) (trim_of v).
Proof. destruct v; simpl; eauto. Qed.

Lemma post_trims_to_empty P v :
  flow_sat P (fun b => exists s, v = JStr s /\ Str.is_empty (Str.trim s) = b)
           (trims_to_empty v).
Proof. destruct v; simpl; eauto. Qed.

Lemma post_blank P v :
  flow_sat P (fun b => b = false ->
                exists s, v = JStr s /\ Str.is_empty (Str.trim s) = false)
           (blank v).
Proof.
  unfold blank. destruct (JS.falsy v); [simpl; discriminate|].
  destruct v; simpl; eauto.
Qed.

(** One step along a body, keeping what the text helpers say of their
    results. *)
Ltac text_step Inv leaf :=
  lazymatch goal with
  | |- flow_sat _ _ (bind (request_json _) _) =>
      apply sat_bind; [apply sat_request_json | intros ?]
  | |- flow_sat _ _ (bind (destructure _) _) =>
      apply sat_bind; [apply sat_destructure | intros ?]
  | |- flow_sat _ _ (bind (trim_of ?v) _) =>
      apply (sat_bind_with (fun t => exists s, v = JStr s /\ t = Str.trim s));
      [apply post_trim_of | intros ? ?]
  | |- flow_sat _ _ (bind (trims_to_empty ?v) _) =>
      apply (sat_bind_with
               (fun b => exists s, v = JStr s /\ Str.is_empty (Str.trim s) = b));
      [apply post_trims_to_empty | intros ? ?]
  | |- flow_sat _ _ (bind (blank ?v) _) =>
      apply (sat_bind_with
               (fun b => b = false ->
                  exists s, v = JStr s /\ Str.is_empty (Str.trim s) = false));
      [apply post_blank | intros ? ?]
  | |- flow_sat _ _ (bind (trimmed_or_null _) _) =>
      apply sat_bind; [apply sat_trimmed_or_null | intros ?]
  | |- flow_sat _ _ (bind _ _) =>
      apply (sat_bind_with Inv); [ | intros ? ?]
  | |- flow_sat _ _ (if ?c then _ else _) => destruct c eqn:?
  | |- flow_sat _ _ (match ?x with _ => _ end) => destruct x eqn:?
  | |- flow_sat _ _ (list_reply _ _ _) => unfold list_reply
  | |- flow_sat _ _ (Throw _) => exact I
  | |- flow_sat _ _ (Reply _) => simpl; leaf
  | |- flow_sat _ _ (Next _) => simpl; leaf
  end.

Ltac text_paths Inv leaf := cbv zeta; repeat (text_step Inv leaf; cbv zeta).

Ltac text_facts :=
  repeat match goal with
         | H : false = false -> _ |- _ => specialize (H eq_refl)
         | H : true = false -> _ |- _ => clear H
         | H : exists _, _ /\ _ |- _ => destruct H as [? [? ?]]
         end;
  subst;
  repeat match goal with
         | H1 : ?x = JStr ?s, H2 : ?x = JStr ?s' |- _ =>
             rewrite H1 in H2; injection H2 as H2; try subst
         end;
  unfold CustomersRoute.empty_text, MenuItemsRoute.empty_text in *;
  split_facts.

Ltac text_goal :=
  idtac;
  lazymatch goal with
  | |- text_ok ?t ?k ?v = true =>
      first
        [ reflexivity
        | unfold text_ok, trimmed_text, CustomersRoute.trimmed,
            CustomersRoute.normalized_email, MenuItemsRoute.trimmed;
          cbn [existsb required_text String.eqb Ascii.eqb Bool.eqb orb];
          rewrite ?trim_lower, ?trim_idem, ?is_empty_lower, ?String.eqb_refl;
          repeat match goal with
                 | H : Str.is_empty _ = false |- _ => rewrite H
                 end;
          reflexivity ]
  end.

Lemma text_kept t m env st req :
  rows_obey text_ok st -> rows_obey text_ok (fst (api t m env st req)).
Proof.
  intros Hinv.
  destruct t, m; cbv [api];
  match goal with |- rows_obey _ (fst (?h _ _ _)) => unfold h end.
  all: apply (sat_try_catch (fun out => rows_obey text_ok (fst out)));
    [ | intros; exact Hinv ].
  all: each_table ltac:(fun T =>
         text_paths (sets_obey text_ok T)
           ltac:(obeys_leaf text_columns Hinv text_facts text_goal)).
Qed.

Lemma reachable_text_trimmed st : reachable st -> rows_obey text_ok st.
Proof.
  induction 1 as [|st t m env req _ IH].
  - intros [] r k [].
  - now apply text_kept.
Qed.

(** X29.  In every store the API can produce from the empty database, each
    text column that the creates require holds a string that is not empty
    and has no white space around it: a shop's and a customer's name,
    address, contact or phone and email, a menu item's name and category,
    an offer's title, an order's token number and delivery mode, a
    payment's transaction id, mode and status, a receipt's data. *)
Theorem stored_text_is_trimmed (st : Store) (t : TableId) (r : Obj)
  (k : string) :
  reachable st -> In r (rows (table st t)) ->
  text_ok t k (JS.get r k) = true.
Proof. intros Hr Hin. now apply (reachable_text_trimmed st Hr). Qed.

Lemma stored_text_is_trimmed_witness :
  exists r,
    rows (table one_customer Customers) = [r]
    /\ text_ok Customers "email" (JS.get r "email") = true.
Proof.
  eexists. split; [reflexivity|].
  apply (stored_text_is_trimmed one_customer Customers _ "email").
  - exact (reach_step empty_store Customers POST sample_env alice reach_empty).
  - left. reflexivity.
Defined.
